(** * livemix: the SPA node of [examples/node.c]

    A shallow embedding of the node implementation in [examples/node.c]
    (parameter tables and change emission, port parameter negotiation,
    the per-port buffer pool kept on an intrusive [spa_list], and the
    process callback), followed by the properties established about it.

    Integers of the C code are [Z]; arrays are lists indexed with stdpp's
    lookup and insert; a pointer that may be NULL is an [option]. *)

From Stdlib Require Import ZArith List Bool Lia.
From stdpp Require Import base option list.

Open Scope Z_scope.

(** ** Constants *)

(** [#define]s of [examples/node.c]. *)
Definition BUFFER_SAMPLES : Z := 128.
Definition MAX_BUFFERS : Z := 32.
Definition MAX_PORTS : Z := 16.

Definition PORT_EnumFormat : nat := 0.
Definition PORT_Meta : nat := 1.
Definition PORT_IO : nat := 2.
Definition PORT_Format : nat := 3.
Definition PORT_Buffers : nat := 4.
Definition N_PORT_PARAMS : Z := 5.

Definition NODE_PropInfo : nat := 0.
Definition NODE_Props : nat := 1.
Definition NODE_EnumFormat : nat := 2.
Definition NODE_Format : nat := 3.
Definition N_NODE_PARAMS : Z := 4.

(** Values taken from the SPA and libc headers the file includes
    ([spa/param/param.h], [spa/node/node.h], [spa/node/io.h],
    [spa/utils/defs.h], [errno.h]); they are not part of the repository. *)
Definition SPA_PARAM_INFO_SERIAL : Z := 1.
Definition SPA_PARAM_INFO_READ : Z := 2.
Definition SPA_PARAM_INFO_WRITE : Z := 4.
Definition SPA_PARAM_INFO_READWRITE : Z :=
  Z.lor SPA_PARAM_INFO_WRITE SPA_PARAM_INFO_READ.

Definition SPA_NODE_CHANGE_MASK_FLAGS : Z := 1.
Definition SPA_NODE_CHANGE_MASK_PROPS : Z := 2.
Definition SPA_NODE_CHANGE_MASK_PARAMS : Z := 4.

Definition SPA_PORT_CHANGE_MASK_FLAGS : Z := 1.
Definition SPA_PORT_CHANGE_MASK_RATE : Z := 2.
Definition SPA_PORT_CHANGE_MASK_PROPS : Z := 4.
Definition SPA_PORT_CHANGE_MASK_PARAMS : Z := 8.

Definition SPA_PARAM_PropInfo : Z := 1.
Definition SPA_PARAM_Props : Z := 2.
Definition SPA_PARAM_EnumFormat : Z := 3.
Definition SPA_PARAM_Format : Z := 4.
Definition SPA_PARAM_Buffers : Z := 5.
Definition SPA_PARAM_Meta : Z := 6.
Definition SPA_PARAM_IO : Z := 7.

Definition SPA_IO_Buffers : Z := 1.
Definition SPA_IO_Notify : Z := 6.

Definition SPA_STATUS_OK : Z := 0.
Definition SPA_STATUS_HAVE_DATA : Z := 2.
Definition SPA_ID_INVALID : Z := 4294967295.

Definition SPA_DIRECTION_OUTPUT : Z := 1.
Definition SPA_RESULT_TYPE_NODE_PARAMS : Z := 2.

Definition SPA_AUDIO_FORMAT_UNKNOWN : Z := 0.
Definition SPA_AUDIO_MAX_CHANNELS : nat := 64.

Definition SPA_DATA_MemFd : Z := 2.
Definition SPA_DATA_DmaBuf : Z := 3.

Definition ENOENT : Z := 2.
Definition EINVAL : Z := 22.
Definition ENOSPC : Z := 28.
Definition EPIPE : Z := 32.

Definition INT32_MAX : Z := 2147483647.
Definition sizeof_float : Z := 4.
Definition sizeof_spa_meta_header : Z := 32.
Definition sizeof_spa_io_buffers : Z := 8.
Definition sizeof_spa_io_sequence : Z := 16.

(** ** Data model *)

(** [struct spa_param_info]; the padding words are left out. *)
Record spa_param_info := mk_param_info {
  pi_id : Z;
  pi_flags : Z;
  pi_user : Z;
  pi_seq : Z
}.

(** The [SPA_PARAM_INFO(id, flags)] initialiser: the remaining members
    of the compound literal are zero. *)
Definition SPA_PARAM_INFO (id flags : Z) : spa_param_info :=
  mk_param_info id flags 0 0.

(** [struct spa_audio_info_raw]. *)
Record spa_audio_info_raw := mk_audio_info {
  ai_format : Z;
  ai_flags : Z;
  ai_rate : Z;
  ai_channels : Z;
  ai_position : list Z
}.

(** [spa_zero(p->format)]. *)
Definition audio_info_zero : spa_audio_info_raw :=
  mk_audio_info 0 0 0 0 (replicate SPA_AUDIO_MAX_CHANNELS 0).

(** The members of [struct spa_node_info] and [struct spa_port_info]
    that the file reads or writes ([props] and [params] are pointers to
    members of [struct data] and [struct port], kept there). *)
Record spa_node_info := mk_node_info {
  ni_max_input_ports : Z;
  ni_max_output_ports : Z;
  ni_change_mask : Z;
  ni_n_params : Z
}.

Record spa_port_info := mk_port_info {
  pti_change_mask : Z;
  pti_flags : Z;
  pti_n_params : Z
}.

(** [struct spa_io_buffers], the data-exchange mailbox. *)
Record spa_io_buffers := mk_io_buffers {
  io_status : Z;
  io_buffer_id : Z
}.

(** [struct spa_chunk] and the first [struct spa_data] of a host
    buffer, as [impl_port_use_buffers] and [impl_node_process] read
    [buffers[i]->datas[0]]. [sd_data] is [None] for a NULL [data]. *)
Record spa_chunk := mk_chunk {
  ck_offset : Z;
  ck_size : Z;
  ck_stride : Z
}.

Record spa_data := mk_spa_data {
  sd_type : Z;
  sd_data : option Z;
  sd_maxsize : Z;
  sd_fd : Z;
  sd_mapoffset : Z;
  sd_chunk : spa_chunk
}.

Record spa_buffer := mk_spa_buffer {
  sb_datas0 : spa_data
}.

(** *** The intrusive list

    [struct spa_list] is a pair of pointers to other [struct spa_list]
    members.  In a port they can point at the list head [p->empty], at
    the [link] member of [p->buffers[i]], or be NULL (zeroed memory). *)
Inductive link_ref :=
| NullLink
| EmptyHead
| BufferLink (i : nat).

Record spa_list := mk_spa_list {
  next : link_ref;
  prev : link_ref
}.

#[global] Instance link_ref_eq_dec : EqDecision link_ref.
Proof. solve_decision. Defined.

(** [struct buffer]. [b_buffer] and [b_ptr] are [None] when NULL. *)
Record buffer := mk_buffer {
  b_id : Z;
  b_buffer : option spa_buffer;
  b_link : spa_list;
  b_ptr : option Z;
  b_mapped : bool
}.

(** [struct port].  The mailbox [io] is host memory the port points to;
    the record pointed to is stored in place of the pointer.  The two
    float accumulators and the property dictionary are left out. *)
Record port := mk_port {
  format : spa_audio_info_raw;
  port_info : spa_port_info;
  port_params : list spa_param_info;
  buffers : list buffer;
  n_buffers : Z;
  io : option spa_io_buffers;
  io_notify : option Z;
  io_notify_size : Z;
  empty : spa_list
}.

(** Pods.  The identifiers, keys and object types that
    [impl_port_enum_params] writes into the objects it builds. *)
Inductive spa_id :=
| SPA_MEDIA_TYPE_audio
| SPA_MEDIA_SUBTYPE_raw
| SPA_AUDIO_FORMAT_S16
| SPA_AUDIO_FORMAT_S16P
| SPA_AUDIO_FORMAT_F32P
| SPA_AUDIO_FORMAT_F32
| SPA_META_Header
| SPA_IO_id (id : Z).

Inductive pod_key :=
| SPA_FORMAT_mediaType
| SPA_FORMAT_mediaSubtype
| SPA_FORMAT_AUDIO_format
| SPA_FORMAT_AUDIO_channels
| SPA_FORMAT_AUDIO_rate
| SPA_PARAM_BUFFERS_buffers
| SPA_PARAM_BUFFERS_blocks
| SPA_PARAM_BUFFERS_size
| SPA_PARAM_BUFFERS_stride
| SPA_PARAM_META_type
| SPA_PARAM_META_size
| SPA_PARAM_IO_id
| SPA_PARAM_IO_size.

Inductive pod_value :=
| SPA_POD_Id (v : spa_id)
| SPA_POD_Int (v : Z)
| SPA_POD_CHOICE_ENUM_Id (alternatives : list spa_id)
| SPA_POD_CHOICE_RANGE_Int (default lo hi : Z).

Inductive object_type :=
| SPA_TYPE_OBJECT_Format
| SPA_TYPE_OBJECT_ParamBuffers
| SPA_TYPE_OBJECT_ParamMeta
| SPA_TYPE_OBJECT_ParamIO.

(** A pod: either an object assembled with [spa_pod_builder_add_object],
    or a pod received from or produced by the library, identified by a
    handle. *)
Inductive spa_pod :=
| pod_object (type : object_type) (id : Z) (props : list (pod_key * pod_value))
| pod_foreign (handle : Z).

(** [struct spa_result_node_params] with the filtered pod. *)
Record spa_result_node_params := mk_result {
  r_id : Z;
  r_index : Z;
  r_next : Z;
  r_param : spa_pod
}.

(** What the listeners registered in [d->hooks] are called with. *)
Inductive event :=
| node_info_event (info : spa_node_info) (params : list spa_param_info)
| port_info_event (direction port_id : Z) (info : spa_port_info)
    (params : list spa_param_info)
| result_event (seq res type : Z) (result : spa_result_node_params).

(** [struct data], restricted to the node state, its members in the
    order of the structure.  [hooks] is the trace of the calls made
    through the hook list, oldest first.

    [params] is an array of [N_NODE_PARAMS] entries; it is followed in
    the structure by [port_change_mask_all] and by [ports]. *)
Record data := mk_data {
  change_mask_all : Z;
  info : spa_node_info;
  params : list spa_param_info;
  port_change_mask_all : Z;
  ports : list port;
  n_ports : Z;
  hooks : list event
}.

(** *** Member updates *)

Definition set_pi_flags (f : Z) (x : spa_param_info) : spa_param_info :=
  mk_param_info (pi_id x) f (pi_user x) (pi_seq x).
Definition set_pi_user (u : Z) (x : spa_param_info) : spa_param_info :=
  mk_param_info (pi_id x) (pi_flags x) u (pi_seq x).

Definition set_ni_change_mask (m : Z) (i : spa_node_info) : spa_node_info :=
  mk_node_info (ni_max_input_ports i) (ni_max_output_ports i) m (ni_n_params i).
Definition set_pti_change_mask (m : Z) (i : spa_port_info) : spa_port_info :=
  mk_port_info m (pti_flags i) (pti_n_params i).

Definition set_b_link (l : spa_list) (b : buffer) : buffer :=
  mk_buffer (b_id b) (b_buffer b) l (b_ptr b) (b_mapped b).

Definition set_format (f : spa_audio_info_raw) (p : port) : port :=
  mk_port f (port_info p) (port_params p) (buffers p) (n_buffers p)
    (io p) (io_notify p) (io_notify_size p) (empty p).
Definition set_port_info (i : spa_port_info) (p : port) : port :=
  mk_port (format p) i (port_params p) (buffers p) (n_buffers p)
    (io p) (io_notify p) (io_notify_size p) (empty p).
Definition set_port_params (t : list spa_param_info) (p : port) : port :=
  mk_port (format p) (port_info p) t (buffers p) (n_buffers p)
    (io p) (io_notify p) (io_notify_size p) (empty p).
Definition set_buffers (bs : list buffer) (p : port) : port :=
  mk_port (format p) (port_info p) (port_params p) bs (n_buffers p)
    (io p) (io_notify p) (io_notify_size p) (empty p).
Definition set_n_buffers (n : Z) (p : port) : port :=
  mk_port (format p) (port_info p) (port_params p) (buffers p) n
    (io p) (io_notify p) (io_notify_size p) (empty p).
Definition set_io (m : option spa_io_buffers) (p : port) : port :=
  mk_port (format p) (port_info p) (port_params p) (buffers p) (n_buffers p)
    m (io_notify p) (io_notify_size p) (empty p).
Definition set_io_notify (m : option Z) (size : Z) (p : port) : port :=
  mk_port (format p) (port_info p) (port_params p) (buffers p) (n_buffers p)
    (io p) m size (empty p).
Definition set_empty (l : spa_list) (p : port) : port :=
  mk_port (format p) (port_info p) (port_params p) (buffers p) (n_buffers p)
    (io p) (io_notify p) (io_notify_size p) l.

Definition set_info (i : spa_node_info) (d : data) : data :=
  mk_data (change_mask_all d) i (params d)
    (port_change_mask_all d) (ports d) (n_ports d) (hooks d).
Definition set_params (t : list spa_param_info) (d : data) : data :=
  mk_data (change_mask_all d) (info d) t
    (port_change_mask_all d) (ports d) (n_ports d) (hooks d).
Definition set_port_change_mask_all (m : Z) (d : data) : data :=
  mk_data (change_mask_all d) (info d) (params d)
    m (ports d) (n_ports d) (hooks d).
Definition set_ports (ps : list port) (d : data) : data :=
  mk_data (change_mask_all d) (info d) (params d)
    (port_change_mask_all d) ps (n_ports d) (hooks d).
Definition set_hooks (h : list event) (d : data) : data :=
  mk_data (change_mask_all d) (info d) (params d)
    (port_change_mask_all d) (ports d) (n_ports d) h.

(** ** [spa_list] operations

    The inline functions and macros of [spa/utils/list.h], run on the
    links of one port.  Each returns [None] when it dereferences NULL
    or a link outside [p->buffers]. *)

Definition load_link (p : port) (r : link_ref) : option spa_list :=
  match r with
  | NullLink => None
  | EmptyHead => Some (empty p)
  | BufferLink i => b_link <$> buffers p !! i
  end.

Definition store_link (p : port) (r : link_ref) (l : spa_list) : option port :=
  match r with
  | NullLink => None
  | EmptyHead => Some (set_empty l p)
  | BufferLink i =>
      b ← buffers p !! i;
      Some (set_buffers (<[i := set_b_link l b]> (buffers p)) p)
  end.

(** [r->next = v] and [r->prev = v]. *)
Definition set_next (p : port) (r v : link_ref) : option port :=
  l ← load_link p r; store_link p r (mk_spa_list v (prev l)).
Definition set_prev (p : port) (r v : link_ref) : option port :=
  l ← load_link p r; store_link p r (mk_spa_list (next l) v).

(** [spa_list_is_empty(&p->empty)]: [(l)->next == (l)]. *)
Definition spa_list_is_empty (p : port) : bool :=
  bool_decide (next (empty p) = EmptyHead).

(** [spa_list_insert(list, elem)]:
    [elem->prev = list; elem->next = list->next;
     list->next = elem; elem->next->prev = elem;] *)
Definition spa_list_insert (p : port) (list elem : link_ref) : option port :=
  p1 ← set_prev p elem list;
  l ← load_link p1 list;
  p2 ← set_next p1 elem (next l);
  p3 ← set_next p2 list elem;
  e ← load_link p3 elem;
  set_prev p3 (next e) elem.

(** [spa_list_append(list, item)] is [spa_list_insert((list)->prev, item)]. *)
Definition spa_list_append (p : port) (list item : link_ref) : option port :=
  l ← load_link p list;
  spa_list_insert p (prev l) item.

(** [spa_list_remove(elem)]:
    [elem->prev->next = elem->next; elem->next->prev = elem->prev;] *)
Definition spa_list_remove (p : port) (elem : link_ref) : option port :=
  e ← load_link p elem;
  p1 ← set_next p (prev e) (next e);
  e' ← load_link p1 elem;
  set_prev p1 (next e') (prev e').

(** The free list read from the head along [next], as
    [spa_list_for_each] visits it: buffer indices in order.  [None]
    when the walk meets NULL or a link outside the array, or does not
    come back to the head within [fuel] steps. *)
Fixpoint walk (fuel : nat) (p : port) (r : link_ref) : option (list nat) :=
  match fuel with
  | O => None
  | S fuel' =>
      match r with
      | EmptyHead => Some []
      | NullLink => None
      | BufferLink i =>
          l ← load_link p r;
          rest ← walk fuel' p (next l);
          Some (i :: rest)
      end
  end.

Definition free_list (p : port) : option (list nat) :=
  walk (S (length (buffers p))) p (next (empty p)).

(** ** Library and system calls

    Functions of libspa and of the C library that [examples/node.c]
    calls on pods and file descriptors.  Their code is not part of the
    repository; the node is defined over any implementation of them.
    [spa_format_audio_raw_parse] gets the structure it writes into, as
    the node ignores its return value; [spa_pod_filter] is [None] when
    the C function returns a negative value. *)
Inductive mmap_result :=
| mmap_ok (ptr : Z)
| mmap_failed (errno : Z).

Definition MAP_FAILED : Z := -1.

Class Platform := {
  spa_format_audio_raw_parse : spa_pod -> spa_audio_info_raw -> spa_audio_info_raw;
  spa_format_audio_raw_build : Z -> spa_audio_info_raw -> spa_pod;
  spa_pod_filter : spa_pod -> option spa_pod -> option spa_pod;
  mmap : Z -> Z -> Z -> mmap_result
}.

(** The result of an [impl_*] method: the returned [int] and the node
    state it leaves, or [Undefined] when the C code dereferences NULL
    or indexes [d->ports] or [p->buffers] out of bounds. *)
Inductive outcome :=
| Returns (res : Z) (d : data)
| Undefined.

(** ** Change emission *)

(** A call through [d->hooks]. *)
Definition emit (e : event) (d : data) : data :=
  set_hooks (hooks d ++ [e]) d.

(** [if (params[i].user > 0) { params[i].flags ^= SPA_PARAM_INFO_SERIAL;
    params[i].user = 0; }] *)
Definition drain (x : spa_param_info) : spa_param_info :=
  if 0 <? pi_user x
  then set_pi_user 0 (set_pi_flags (Z.lxor (pi_flags x) SPA_PARAM_INFO_SERIAL) x)
  else x.

(** [for (i = 0; i < n_params; i++)] over a descriptor table.  [main]
    sets each [n_params] to the length of its table and nothing changes
    it; a turn with [i] past the table, which would read outside the
    array, is modelled as leaving the table alone. *)
Definition drain_params (n_params : Z) (t : list spa_param_info)
  : list spa_param_info :=
  foldl (fun t i => alter drain i t) t (seq 0 (Z.to_nat n_params)).

Definition emit_node_info (d : data) (full : bool) : data :=
  let old := if full then ni_change_mask (info d) else 0 in
  let d1 := if full
            then set_info (set_ni_change_mask (change_mask_all d) (info d)) d
            else d in
  let d2 :=
    if negb (ni_change_mask (info d1) =? 0) then
      let d' :=
        if negb (Z.land (ni_change_mask (info d1)) SPA_NODE_CHANGE_MASK_PARAMS =? 0)
        then set_params (drain_params (ni_n_params (info d1)) (params d1)) d1
        else d1 in
      emit (node_info_event (info d') (params d')) d'
    else d1 in
  set_info (set_ni_change_mask old (info d2)) d2.

(** The body of the loop of [emit_port_info] for port [n].  [main]
    sets [n_ports] to the length of [d->ports] and nothing changes it; a
    turn with [n] past the array is modelled as doing nothing. *)
Definition emit_one_port_info (full : bool) (d : data) (n : nat) : data :=
  match ports d !! n with
  | None => d
  | Some port0 =>
      let old := if full then pti_change_mask (port_info port0) else 0 in
      let port1 :=
        if full
        then set_port_info
               (set_pti_change_mask (port_change_mask_all d) (port_info port0)) port0
        else port0 in
      let mask := pti_change_mask (port_info port1) in
      let '(port2, d2) :=
        if negb (mask =? 0) then
          let port' :=
            if negb (Z.land mask SPA_PORT_CHANGE_MASK_PARAMS =? 0)
            then set_port_params
                   (drain_params (pti_n_params (port_info port1)) (port_params port1))
                   port1
            else port1 in
          (port',
           emit (port_info_event SPA_DIRECTION_OUTPUT (Z.of_nat n)
                   (port_info port') (port_params port')) d)
        else (port1, d) in
      set_ports
        (<[n := set_port_info (set_pti_change_mask old (port_info port2)) port2]>
           (ports d2)) d2
  end.

Definition emit_port_info (d : data) (full : bool) : data :=
  foldl (emit_one_port_info full) d (seq 0 (Z.to_nat (n_ports d))).

(** ** Node methods *)

Definition impl_add_listener (d : data) : outcome :=
  Returns 0 (emit_port_info (emit_node_info d true) true).

Definition impl_enum_params (d : data) (seq id start num : Z)
    (filter : option spa_pod) : outcome :=
  Returns (- ENOENT) d.

Definition impl_set_param (d : data) (id flags : Z) (param : option spa_pod)
  : outcome :=
  Returns 0 (emit_port_info (emit_node_info d false) false).

Definition impl_set_io (d : data) (id : Z) (size : Z) : outcome :=
  Returns 0 d.

(** [impl_send_command] and [impl_set_callbacks] log and return 0. *)
Definition impl_send_command (d : data) : outcome :=
  Returns 0 d.

Definition impl_set_callbacks (d : data) : outcome :=
  Returns 0 d.

(** A memory area handed to [port_set_io]: its address and the
    [struct spa_io_buffers] found there. *)
Record io_area := mk_io_area {
  area_addr : Z;
  area_buffers : spa_io_buffers
}.

(** [p->io_notify_size = size] stores the [size_t] argument in a
    [uint32_t] member. *)
Definition impl_port_set_io (d : data) (direction port_id id : Z)
    (area : option io_area) (size : Z) : outcome :=
  if n_ports d <=? port_id then Returns (- EINVAL) d
  else
    match ports d !! Z.to_nat port_id with
    | None => Undefined
    | Some p =>
        if id =? SPA_IO_Buffers then
          Returns 0
            (set_ports (<[Z.to_nat port_id := set_io (area_buffers <$> area) p]>
                          (ports d)) d)
        else if id =? SPA_IO_Notify then
          Returns 0
            (set_ports
               (<[Z.to_nat port_id :=
                    set_io_notify (area_addr <$> area) (size mod 2 ^ 32) p]>
                  (ports d)) d)
        else Returns (- ENOENT) d
    end.

(** *** [impl_port_enum_params] *)

(** What the [switch] on [id] and [result.index] does in one turn of
    the loop. *)
Inductive enum_turn :=
| Candidate (param : spa_pod)
| Exhausted
| Unsupported.

Definition enum_format_pod : spa_pod :=
  pod_object SPA_TYPE_OBJECT_Format SPA_PARAM_EnumFormat
    [ (SPA_FORMAT_mediaType, SPA_POD_Id SPA_MEDIA_TYPE_audio);
      (SPA_FORMAT_mediaSubtype, SPA_POD_Id SPA_MEDIA_SUBTYPE_raw);
      (SPA_FORMAT_AUDIO_format,
       SPA_POD_CHOICE_ENUM_Id
         [ SPA_AUDIO_FORMAT_S16; SPA_AUDIO_FORMAT_S16P; SPA_AUDIO_FORMAT_S16;
           SPA_AUDIO_FORMAT_F32P; SPA_AUDIO_FORMAT_F32 ]);
      (SPA_FORMAT_AUDIO_channels, SPA_POD_CHOICE_RANGE_Int 2 1 INT32_MAX);
      (SPA_FORMAT_AUDIO_rate, SPA_POD_CHOICE_RANGE_Int 44100 1 INT32_MAX) ].

Definition buffers_pod (id : Z) : spa_pod :=
  pod_object SPA_TYPE_OBJECT_ParamBuffers id
    [ (SPA_PARAM_BUFFERS_buffers, SPA_POD_CHOICE_RANGE_Int 1 1 32);
      (SPA_PARAM_BUFFERS_blocks, SPA_POD_Int 1);
      (SPA_PARAM_BUFFERS_size,
       SPA_POD_CHOICE_RANGE_Int (BUFFER_SAMPLES * sizeof_float) 32 INT32_MAX);
      (SPA_PARAM_BUFFERS_stride, SPA_POD_Int sizeof_float) ].

Definition meta_pod (id : Z) : spa_pod :=
  pod_object SPA_TYPE_OBJECT_ParamMeta id
    [ (SPA_PARAM_META_type, SPA_POD_Id SPA_META_Header);
      (SPA_PARAM_META_size, SPA_POD_Int sizeof_spa_meta_header) ].

Definition io_pod (id io_id size : Z) : spa_pod :=
  pod_object SPA_TYPE_OBJECT_ParamIO id
    [ (SPA_PARAM_IO_id, SPA_POD_Id (SPA_IO_id io_id));
      (SPA_PARAM_IO_size, SPA_POD_Int size) ].

Definition enum_switch `{Platform} (p : port) (id index : Z) : enum_turn :=
  if id =? SPA_PARAM_EnumFormat then
    if index =? 0 then Candidate enum_format_pod else Exhausted
  else if id =? SPA_PARAM_Format then
    if index =? 0 then
      if ai_format (format p) =? SPA_AUDIO_FORMAT_UNKNOWN then Exhausted
      else Candidate (spa_format_audio_raw_build id (format p))
    else Exhausted
  else if id =? SPA_PARAM_Buffers then
    if index =? 0 then Candidate (buffers_pod id) else Exhausted
  else if id =? SPA_PARAM_Meta then
    if index =? 0 then Candidate (meta_pod id) else Exhausted
  else if id =? SPA_PARAM_IO then
    if index =? 0 then Candidate (io_pod id SPA_IO_Buffers sizeof_spa_io_buffers)
    else if index =? 1 then
      Candidate (io_pod id SPA_IO_Notify (sizeof_spa_io_sequence + 1024))
    else Exhausted
  else Unsupported.

(** The [while (true)] loop.  [nxt] is [result.next], a [uint32_t];
    [None] when [fuel] turns were not enough to leave the loop. *)
Fixpoint enum_loop `{Platform} (fuel : nat) (p : port) (seq id num : Z)
    (filter : option spa_pod) (nxt emitted : Z) (d : data) : option outcome :=
  match fuel with
  | O => None
  | S fuel' =>
      if num <=? emitted then Some (Returns 0 d)
      else
        let index := nxt in
        let nxt' := (nxt + 1) mod 2 ^ 32 in
        match enum_switch p id index with
        | Unsupported => Some (Returns (- ENOENT) d)
        | Exhausted => Some (Returns 0 d)
        | Candidate param =>
            match spa_pod_filter param filter with
            | None => enum_loop fuel' p seq id num filter nxt' emitted d
            | Some r =>
                enum_loop fuel' p seq id num filter nxt' (emitted + 1)
                  (emit (result_event seq 0 SPA_RESULT_TYPE_NODE_PARAMS
                           (mk_result id index nxt' r)) d)
            end
        end
  end.

Definition impl_port_enum_params `{Platform} (fuel : nat) (d : data)
    (seq direction port_id id start num : Z) (filter : option spa_pod)
  : option outcome :=
  if n_ports d <=? port_id then Some (Returns (- EINVAL) d)
  else
    match ports d !! Z.to_nat port_id with
    | None => Some Undefined
    | Some p => enum_loop fuel p seq id num filter start 0 d
    end.

(** *** [impl_port_set_param] *)

(** The 32 bytes of [v] written at [&d->params[N_NODE_PARAMS]], one
    entry past the end of the array.  A [struct spa_param_info] is
    [id], [flags], [user], [seq] and [padding[4]], all 32 bits wide,
    the padding being zero in every value [SPA_PARAM_INFO] builds.  In
    [struct data] the array is followed, with no gap, by the 64 bits
    of [port_change_mask_all] and then by [ports[0]], whose first
    member is [format]: a [struct spa_audio_info_raw] of the 32-bit
    members [format], [flags], [rate], [channels] and [position[]].
    With the little-endian layout the program is built for, [id] and
    [flags] become the low and the high half of
    [port_change_mask_all], and [user], [seq] and the padding replace
    [format], [flags], [rate], [channels], [position[0]] and
    [position[1]] of [ports[0].format]. *)
Definition overrun_format (v : spa_param_info) (f : spa_audio_info_raw)
  : spa_audio_info_raw :=
  mk_audio_info (pi_user v) (pi_seq v mod 2 ^ 32) 0 0
    (<[0%nat := 0]> (<[1%nat := 0]> (ai_position f))).

Definition store_past_params (v : spa_param_info) (d : data) : data :=
  set_ports
    (alter (fun p => set_format (overrun_format v (format p)) p) 0%nat (ports d))
    (set_port_change_mask_all (pi_id v + 2 ^ 32 * pi_flags v) d).

(** [d->params[i] = v].  The node stores at the indices [PORT_Format]
    and [PORT_Buffers], the second being [N_NODE_PARAMS]; a store
    further out is [None], undefined. *)
Definition store_param (i : nat) (v : spa_param_info) (d : data) : option data :=
  if decide (i < Z.to_nat N_NODE_PARAMS)%nat
  then Some (set_params (<[i := v]> (params d)) d)
  else if decide (i = Z.to_nat N_NODE_PARAMS) then Some (store_past_params v d)
  else None.

(** The [case SPA_PARAM_Format] of the [switch], for the port [k]:
    the format is written through [p], then the two descriptors are
    stored. *)
Definition commit_format `{Platform} (k : nat) (param : option spa_pod) (d : data)
  : option data :=
  match param with
  | Some pod =>
      let d0 :=
        set_ports
          (alter (fun p => set_format (spa_format_audio_raw_parse pod (format p)) p)
             k (ports d)) d in
      d1 ← store_param PORT_Format
             (SPA_PARAM_INFO SPA_PARAM_Format SPA_PARAM_INFO_READWRITE) d0;
      store_param PORT_Buffers
        (SPA_PARAM_INFO SPA_PARAM_Buffers SPA_PARAM_INFO_READ) d1
  | None =>
      let d0 :=
        set_ports (alter (fun p => set_format audio_info_zero p) k (ports d)) d in
      d1 ← store_param PORT_Format
             (SPA_PARAM_INFO SPA_PARAM_Format SPA_PARAM_INFO_WRITE) d0;
      store_param PORT_Buffers (SPA_PARAM_INFO SPA_PARAM_Buffers 0) d1
  end.

(** [p->port_info.change_mask = SPA_PORT_CHANGE_MASK_PARAMS]. *)
Definition mark_params_changed (p : port) : port :=
  set_port_info (set_pti_change_mask SPA_PORT_CHANGE_MASK_PARAMS (port_info p)) p.

Definition impl_port_set_param `{Platform} (d : data)
    (direction port_id id flags : Z) (param : option spa_pod) : outcome :=
  if n_ports d <=? port_id then Returns (- EINVAL) d
  else
    let k := Z.to_nat port_id in
    match ports d !! k with
    | None => Undefined
    | Some _ =>
        if id =? SPA_PARAM_Format then
          match commit_format k param d with
          | None => Undefined
          | Some d1 =>
              let d2 := set_ports (alter mark_params_changed k (ports d1)) d1 in
              Returns 0 (emit_port_info (emit_node_info d2 false) false)
          end
        else Returns (- ENOENT) d
    end.

(** *** [impl_port_use_buffers] *)

(** [spa_list_append(&p->empty, &p->buffers[id].link)]. *)
Definition port_reuse_buffer (p : port) (id : Z) : option port :=
  spa_list_append p EmptyHead (BufferLink (Z.to_nat id)).

(** How the first [if]/[else if]/[else] of the loop body settles the
    memory of one buffer: the pointer and [mapped] flag to store, or the
    value to return, with the pointer left in [b->ptr] if one was
    stored before returning. *)
Inductive buffer_mem :=
| mem_bound (ptr : Z) (mapped : bool)
| mem_error (res : Z) (ptr : option Z).

Definition bind_buffer_mem `{Platform} (datas : spa_data) : buffer_mem :=
  match sd_data datas with
  | Some ptr => mem_bound ptr false
  | None =>
      if (sd_type datas =? SPA_DATA_MemFd) || (sd_type datas =? SPA_DATA_DmaBuf)
      then
        match mmap (sd_maxsize datas) (sd_fd datas) (sd_mapoffset datas) with
        | mmap_ok ptr => mem_bound ptr true
        | mmap_failed errno => mem_error (- errno) (Some MAP_FAILED)
        end
      else mem_error (- EINVAL) None
  end.

(** The [for] loop from index [i] on, over the descriptors not yet
    visited.  The result is the port and [None] when the loop ran to
    its end, or the value returned from inside it; the outer [None]
    is undefined behaviour. *)
Fixpoint use_buffers_loop `{Platform} (p : port) (i : nat)
    (bufs : list spa_buffer) : option (port * option Z) :=
  match bufs with
  | [] => Some (p, None)
  | sb :: rest =>
      b ← buffers p !! i;
      match bind_buffer_mem (sb_datas0 sb) with
      | mem_error res None => Some (p, Some res)
      | mem_error res (Some ptr) =>
          Some (set_buffers
                  (<[i := mk_buffer (b_id b) (b_buffer b) (b_link b) (Some ptr)
                            (b_mapped b)]> (buffers p)) p,
                Some res)
      | mem_bound ptr mapped =>
          let b' := mk_buffer (Z.of_nat i) (Some sb) (b_link b) (Some ptr) mapped in
          p' ← spa_list_append (set_buffers (<[i := b']> (buffers p)) p)
                 EmptyHead (BufferLink i);
          use_buffers_loop p' (S i) rest
      end
  end.

(** [buffers] and [n_buffers] of the C signature are the list and its
    length. *)
Definition impl_port_use_buffers `{Platform} (d : data)
    (direction port_id flags : Z) (bufs : list spa_buffer) : outcome :=
  let n := Z.of_nat (length bufs) in
  if n_ports d <=? port_id then Returns (- EINVAL) d
  else
    match ports d !! Z.to_nat port_id with
    | None => Undefined
    | Some p =>
        if MAX_BUFFERS <? n then Returns (- ENOSPC) d
        else
          match use_buffers_loop p 0 bufs with
          | None => Undefined
          | Some (p', Some res) =>
              Returns res (set_ports (<[Z.to_nat port_id := p']> (ports d)) d)
          | Some (p', None) =>
              Returns 0
                (set_ports (<[Z.to_nat port_id := set_n_buffers n p']> (ports d)) d)
          end
    end.

(** *** [impl_port_reuse_buffer] *)

Definition impl_port_reuse_buffer (d : data) (port_id buffer_id : Z) : outcome :=
  if n_ports d <=? port_id then Returns (- EINVAL) d
  else
    match ports d !! Z.to_nat port_id with
    | None => Undefined
    | Some p =>
        match port_reuse_buffer p buffer_id with
        | None => Undefined
        | Some p' => Returns 0 (set_ports (<[Z.to_nat port_id := p']> (ports d)) d)
        end
    end.

(** *** [impl_node_process] *)

(** The condition of the [if (true)] that recycles the buffer just
    taken and returns. *)
Definition process_gate : bool := true.

(** One turn of the loop over the ports ends the call with a value or
    goes on to the next port. *)
Inductive port_turn :=
| Stop (res : Z) (p : port)
| Continue (p : port).

(** The statements after the [if (true)] block: stamp the chunk of the
    host buffer, publish the buffer in the mailbox.  The call of
    [port_update_volume], which writes a float control into the notify
    area, is left out. *)
Definition deliver (p : port) (i : nat) (b : buffer) (sb : spa_buffer)
    (io0 : spa_io_buffers) : port :=
  let od := sb_datas0 sb in
  let od' := mk_spa_data (sd_type od) (sd_data od) (sd_maxsize od) (sd_fd od)
               (sd_mapoffset od) (mk_chunk 0 (sd_maxsize od) 0) in
  let b' := mk_buffer (b_id b) (Some (mk_spa_buffer od')) (b_link b) (b_ptr b)
              (b_mapped b) in
  set_io (Some (mk_io_buffers SPA_STATUS_HAVE_DATA (b_id b)))
    (set_buffers (<[i := b']> (buffers p)) p).

(** The body of the [for] loop for one port; [None] is undefined
    behaviour. *)
Definition process_port (p : port) : option port_turn :=
  io0 ← io p;
  p1 ← (if io_buffer_id io0 <? n_buffers p then
          p' ← port_reuse_buffer p (io_buffer_id io0);
          Some (set_io (Some (mk_io_buffers (io_status io0) SPA_ID_INVALID)) p')
        else Some p);
  if spa_list_is_empty p1 then Some (Stop (- EPIPE) p1)
  else
    match next (empty p1) with
    | BufferLink i =>
        p2 ← spa_list_remove p1 (BufferLink i);
        b ← buffers p2 !! i;
        sb ← b_buffer b;
        if process_gate then
          p3 ← port_reuse_buffer p2 (b_id b);
          Some (Stop SPA_STATUS_OK p3)
        else
          io1 ← io p2;
          Some (Continue (deliver p2 i b sb io1))
    | _ => None
    end.

Fixpoint process_ports (ns : list nat) (d : data) : outcome :=
  match ns with
  | [] => Returns SPA_STATUS_HAVE_DATA d
  | n :: ns' =>
      match ports d !! n with
      | None => Undefined
      | Some p =>
          match process_port p with
          | None => Undefined
          | Some (Stop res p') => Returns res (set_ports (<[n := p']> (ports d)) d)
          | Some (Continue p') =>
              process_ports ns' (set_ports (<[n := p']> (ports d)) d)
          end
      end
  end.

Definition impl_node_process (d : data) : outcome :=
  process_ports (seq 0 (Z.to_nat (n_ports d))) d.

(** ** The method table

    [static const struct spa_node_methods impl_node]: a call of the
    node through a member of the table, with the arguments the
    method looks at.  [fuel] bounds the turns of the loop of [port_enum_params]. *)
Inductive spa_node_methods :=
| call_add_listener
| call_set_callbacks
| call_enum_params (seq id start num : Z) (filter : option spa_pod)
| call_set_param (id flags : Z) (param : option spa_pod)
| call_set_io (id size : Z)
| call_send_command
| call_port_enum_params (seq direction port_id id start num : Z)
    (filter : option spa_pod)
| call_port_set_param (direction port_id id flags : Z) (param : option spa_pod)
| call_port_use_buffers (direction port_id flags : Z) (bufs : list spa_buffer)
| call_port_set_io (direction port_id id : Z) (area : option io_area) (size : Z)
| call_port_reuse_buffer (port_id buffer_id : Z)
| call_process.

Definition impl_node `{Platform} (fuel : nat) (m : spa_node_methods) (d : data)
  : option outcome :=
  match m with
  | call_add_listener => Some (impl_add_listener d)
  | call_set_callbacks => Some (impl_set_callbacks d)
  | call_enum_params seq id start num filter =>
      Some (impl_enum_params d seq id start num filter)
  | call_set_param id flags param => Some (impl_set_param d id flags param)
  | call_set_io id size => Some (impl_set_io d id size)
  | call_send_command => Some (impl_send_command d)
  | call_port_enum_params seq direction port_id id start num filter =>
      impl_port_enum_params fuel d seq direction port_id id start num filter
  | call_port_set_param direction port_id id flags param =>
      Some (impl_port_set_param d direction port_id id flags param)
  | call_port_use_buffers direction port_id flags bufs =>
      Some (impl_port_use_buffers d direction port_id flags bufs)
  | call_port_set_io direction port_id id area size =>
      Some (impl_port_set_io d direction port_id id area size)
  | call_port_reuse_buffer port_id buffer_id =>
      Some (impl_port_reuse_buffer d port_id buffer_id)
  | call_process => Some (impl_node_process d)
  end.

(** ** The state [main] builds *)

Definition zero_buffer : buffer :=
  mk_buffer 0 None (mk_spa_list NullLink NullLink) None false.

Definition main_change_mask_all : Z :=
  Z.lor (Z.lor SPA_NODE_CHANGE_MASK_FLAGS SPA_NODE_CHANGE_MASK_PROPS)
    SPA_NODE_CHANGE_MASK_PARAMS.

Definition main_port_change_mask_all : Z :=
  Z.lor (Z.lor SPA_PORT_CHANGE_MASK_FLAGS SPA_PORT_CHANGE_MASK_PROPS)
    SPA_PORT_CHANGE_MASK_PARAMS.

Definition main_port : port :=
  mk_port audio_info_zero
    (mk_port_info main_port_change_mask_all 0 N_PORT_PARAMS)
    [ SPA_PARAM_INFO SPA_PARAM_EnumFormat SPA_PARAM_INFO_READ;
      SPA_PARAM_INFO SPA_PARAM_Meta SPA_PARAM_INFO_READ;
      SPA_PARAM_INFO SPA_PARAM_IO SPA_PARAM_INFO_READ;
      SPA_PARAM_INFO SPA_PARAM_Format SPA_PARAM_INFO_WRITE;
      SPA_PARAM_INFO SPA_PARAM_Buffers 0 ]
    (replicate (Z.to_nat MAX_BUFFERS) zero_buffer)
    0 None None 0
    (mk_spa_list EmptyHead EmptyHead).

Definition main_data : data :=
  mk_data main_change_mask_all
    (mk_node_info 0 2 main_change_mask_all N_NODE_PARAMS)
    [ SPA_PARAM_INFO SPA_PARAM_PropInfo 0;
      SPA_PARAM_INFO SPA_PARAM_Props SPA_PARAM_INFO_WRITE;
      SPA_PARAM_INFO SPA_PARAM_EnumFormat SPA_PARAM_INFO_READ;
      SPA_PARAM_INFO SPA_PARAM_Format SPA_PARAM_INFO_WRITE ]
    main_port_change_mask_all
    (replicate (Z.to_nat MAX_PORTS) main_port)
    MAX_PORTS
    [].

(** ** Well-formed free lists *)

Definition nx (p : port) (r : link_ref) : option link_ref :=
  next <$> load_link p r.
Definition pv (p : port) (r : link_ref) : option link_ref :=
  prev <$> load_link p r.

(** [a] and [b] are neighbours: [a->next == b] and [b->prev == a]. *)
Definition linked (p : port) (a b : link_ref) : Prop :=
  nx p a = Some b /\ pv p b = Some a.

(** From [a], the links of the buffers [l] follow one another in order
    and the last one is followed by the head. *)
Fixpoint chain (p : port) (a : link_ref) (l : list nat) : Prop :=
  match l with
  | [] => linked p a EmptyHead
  | i :: l' => linked p a (BufferLink i) /\ chain p (BufferLink i) l'
  end.

(** [p->empty] is a proper circular list holding exactly the buffers
    [l], each once. *)
Definition is_free_list (p : port) (l : list nat) : Prop :=
  NoDup l /\ chain p EmptyHead l.

(** The link that precedes the head in a chain from [a] over [l], and
    the first link of a chain over [l]. *)
Fixpoint tail_ref (a : link_ref) (l : list nat) : link_ref :=
  match l with
  | [] => a
  | i :: l' => tail_ref (BufferLink i) l'
  end.

Definition head_ref (l : list nat) : link_ref :=
  match l with
  | [] => EmptyHead
  | i :: _ => BufferLink i
  end.

#[global] Instance linked_dec p a b : Decision (linked p a b).
Proof. unfold linked. apply _. Defined.

#[global] Instance chain_dec p a l : Decision (chain p a l).
Proof. revert a. induction l; simpl; intros; apply _. Defined.

#[global] Instance is_free_list_dec p l : Decision (is_free_list p l).
Proof. unfold is_free_list. apply _. Defined.

(** The port with every link pointer blanked: what the list operations
    do not touch. *)
Definition null_list : spa_list := mk_spa_list NullLink NullLink.
Definition unlinked (p : port) : port :=
  set_empty null_list (set_buffers (set_b_link null_list <$> buffers p) p).

(** Buffer [i] of the port carries its own index and a host buffer, as
    [impl_port_use_buffers] leaves it. *)
Definition buffer_bound (p : port) (i : nat) : Prop :=
  exists b sb, buffers p !! i = Some b /\ b_id b = Z.of_nat i
               /\ b_buffer b = Some sb.

(** ** A platform to run the node on

    Parsing yields a fixed stereo format, a NULL filter lets every
    candidate through and any other filter rejects, and mappings
    succeed at the descriptor's offset. *)
Definition sample_format : spa_audio_info_raw :=
  mk_audio_info 283 0 44100 2 (replicate SPA_AUDIO_MAX_CHANNELS 0).

Definition sample_platform : Platform :=
  {| spa_format_audio_raw_parse := fun _ _ => sample_format;
     spa_format_audio_raw_build := fun _ _ => pod_foreign 0;
     spa_pod_filter := fun param filter =>
       match filter with None => Some param | Some _ => None end;
     mmap := fun _ _ offset => mmap_ok (4096 + offset) |}.

(** A host buffer whose first data block is already mapped at [ptr]. *)
Definition host_buffer (ptr : Z) : spa_buffer :=
  mk_spa_buffer (mk_spa_data 1 (Some ptr) 512 (-1) 0 (mk_chunk 0 0 0)).

(** ** Notions used to state the properties *)

(** What a commit with payload [param] writes: the format, and the
    descriptors it stores at [PORT_Format] and [PORT_Buffers] of
    [d->params]. *)
Definition committed_format `{Platform} (param : option spa_pod)
    (f : spa_audio_info_raw) : spa_audio_info_raw :=
  match param with
  | Some pod => spa_format_audio_raw_parse pod f
  | None => audio_info_zero
  end.

Definition format_descriptor (param : option spa_pod) : spa_param_info :=
  SPA_PARAM_INFO SPA_PARAM_Format
    match param with
    | Some _ => SPA_PARAM_INFO_READWRITE
    | None => SPA_PARAM_INFO_WRITE
    end.

Definition buffers_descriptor (param : option spa_pod) : spa_param_info :=
  SPA_PARAM_INFO SPA_PARAM_Buffers
    match param with
    | Some _ => SPA_PARAM_INFO_READ
    | None => 0
    end.


(** The notification an emission sends for the node, if any, and for
    port [n] in state [p]: the info with the mask the emission uses
    (the all-facets mask when full, the pending mask otherwise) and
    the descriptor table, drained when that mask has the parameters
    facet.  Nothing is sent when the mask is zero. *)
Definition node_notification (full : bool) (d : data) : list event :=
  let mask := if full then change_mask_all d else ni_change_mask (info d) in
  if mask =? 0 then []
  else [node_info_event (set_ni_change_mask mask (info d))
          (if Z.land mask SPA_NODE_CHANGE_MASK_PARAMS =? 0 then params d
           else drain_params (ni_n_params (info d)) (params d))].

Definition port_notification (full : bool) (mask_all : Z) (n : nat) (p : port)
  : option event :=
  let mask := if full then mask_all else pti_change_mask (port_info p) in
  if mask =? 0 then None
  else Some (port_info_event SPA_DIRECTION_OUTPUT (Z.of_nat n)
               (set_pti_change_mask mask (port_info p))
               (if Z.land mask SPA_PORT_CHANGE_MASK_PARAMS =? 0 then port_params p
                else drain_params (pti_n_params (port_info p)) (port_params p))).


(** What one turn of the loop of [emit_port_info] leaves in the port it
    visits. *)
Definition port_after_emit (full : bool) (mask_all : Z) (p : port) : port :=
  let old := if full then pti_change_mask (port_info p) else 0 in
  let mask := if full then mask_all else pti_change_mask (port_info p) in
  let t :=
    if negb (mask =? 0) && negb (Z.land mask SPA_PORT_CHANGE_MASK_PARAMS =? 0)
    then drain_params (pti_n_params (port_info p)) (port_params p)
    else port_params p in
  set_port_info (set_pti_change_mask old (port_info p)) (set_port_params t p).

(** Sequencing of method calls on the node state. *)
Definition and_then (o : outcome) (k : data -> outcome) : outcome :=
  match o with
  | Returns _ d => k d
  | Undefined => Undefined
  end.

Definition state_of (o : outcome) : option data :=
  match o with
  | Returns _ d => Some d
  | Undefined => None
  end.

(** A session on the sample platform: the host binds a data mailbox
    with no buffer in it to port 0, commits a format and hands over
    [bufs]. *)
Definition sample_mailbox : io_area :=
  mk_io_area 65536 (mk_io_buffers 0 SPA_ID_INVALID).

Definition sample_session (bufs : list spa_buffer) : outcome :=
  and_then
    (impl_port_set_io main_data SPA_DIRECTION_OUTPUT 0 SPA_IO_Buffers
       (Some sample_mailbox) sizeof_spa_io_buffers)
    (fun d =>
       and_then
         (@impl_port_set_param sample_platform d SPA_DIRECTION_OUTPUT 0
            SPA_PARAM_Format 0 (Some (pod_foreign 1)))
         (fun d =>
            @impl_port_use_buffers sample_platform d SPA_DIRECTION_OUTPUT 0 0 bufs)).

(** The states the sample session reaches with a pool of two buffers,
    of one buffer and of none, and their port 0. *)
Definition state_or_main (o : outcome) : data :=
  match state_of o with
  | Some d => d
  | None => main_data
  end.

Definition first_port (d : data) : port :=
  match ports d !! 0%nat with
  | Some p => p
  | None => main_port
  end.

Definition sample_pool2 : data :=
  state_or_main (sample_session [host_buffer 8192; host_buffer 12288]).
Definition sample_pool1 : data :=
  state_or_main (sample_session [host_buffer 8192]).
Definition sample_pool0 : data :=
  state_or_main (sample_session []).




(** ** Notions used to state further properties *)

(** The parameter ids that have a [case] in the [switch] of
    [impl_port_enum_params]. *)
Definition supported_param (id : Z) : bool :=
  (id =? SPA_PARAM_EnumFormat) || (id =? SPA_PARAM_Format)
  || (id =? SPA_PARAM_Buffers) || (id =? SPA_PARAM_Meta) || (id =? SPA_PARAM_IO).

(** A call of the listeners with a result of the enumeration [seq] of
    the parameter [id]. *)
Definition is_result (seq id : Z) (e : event) : Prop :=
  exists index nxt param,
    e = result_event seq 0 SPA_RESULT_TYPE_NODE_PARAMS
          (mk_result id index nxt param).

(** [k] calls of [process] in a row: the values returned, oldest first,
    and the state left; [None] once a call is undefined. *)
Fixpoint process_cycles (k : nat) (d : data) : option (list Z * data) :=
  match k with
  | O => Some ([], d)
  | S k' =>
      match impl_node_process d with
      | Undefined => None
      | Returns res d' =>
          '(rs, d'') ← process_cycles k' d';
          Some (res :: rs, d'')
      end
  end.

(** The shape [main] gives the node: every [n_params] is the length
    of its table, [n_ports] the number of ports, every port has its
    [MAX_BUFFERS] buffer slots and a buffer count within them. *)
Definition port_ok (p : port) : Prop :=
  Z.of_nat (length (port_params p)) = pti_n_params (port_info p)
  /\ length (buffers p) = Z.to_nat MAX_BUFFERS
  /\ 0 <= n_buffers p <= MAX_BUFFERS.

Definition node_ok (d : data) : Prop :=
  Z.of_nat (length (ports d)) = n_ports d
  /\ Z.of_nat (length (params d)) = ni_n_params (info d)
  /\ Forall port_ok (ports d).

(** The states the node can be in: the one [main] builds, and the ones
    a method that returns leaves. *)
Inductive reachable `{Platform} : data -> Prop :=
| reachable_main : reachable main_data
| reachable_call fuel m d res d' :
    reachable d -> impl_node fuel m d = Some (Returns res d') -> reachable d'.

(** The notification a full emission sends for a port, and for the
    node, in state [p], [d]: its info with the all-facets mask, and
    its descriptor table. *)
Definition port_snapshot (mask_all : Z) (n : nat) (p : port) : event :=
  port_info_event SPA_DIRECTION_OUTPUT (Z.of_nat n)
    (set_pti_change_mask mask_all (port_info p)) (port_params p).

Definition node_snapshot (d : data) : event :=
  node_info_event (set_ni_change_mask (change_mask_all d) (info d)) (params d).

(** No change is pending: the node mask and the masks of the ports are
    all zero. *)
Definition quiet (d : data) : Prop :=
  ni_change_mask (info d) = 0
  /\ Forall (fun p => pti_change_mask (port_info p) = 0) (ports d).

(** A platform like the sample one, whose filter turns down the
    candidate that describes the data mailbox. *)
Definition picky_platform : Platform :=
  {| spa_format_audio_raw_parse := fun _ _ => sample_format;
     spa_format_audio_raw_build := fun _ _ => pod_foreign 0;
     spa_pod_filter := fun param filter =>
       match param with
       | pod_object SPA_TYPE_OBJECT_ParamIO _
           ((_, SPA_POD_Id (SPA_IO_id io_id)) :: _) =>
           if io_id =? SPA_IO_Buffers then None else Some param
       | _ => Some param
       end;
     mmap := fun _ _ offset => mmap_ok (4096 + offset) |}.

(** * Properties *)

(** ** Links *)

Section Links.

Implicit Types (p : port) (r : link_ref).

Lemma load_store_eq p r l p' :
  store_link p r l = Some p' -> load_link p' r = Some l.
Proof.
  destruct r as [| |i]; simpl; intros Hs; simplify_eq/=; [done|].
  destruct (buffers p !! i) as [b|] eqn:Hb; simplify_eq/=.
  rewrite list_lookup_insert_eq; [done|]. by eapply lookup_lt_Some.
Qed.

Lemma load_store_ne p r l p' r' :
  store_link p r l = Some p' -> r' <> r -> load_link p' r' = load_link p r'.
Proof.
  destruct r as [| |i]; simpl; intros Hs Hne; simplify_eq/=.
  - by destruct r'.
  - destruct (buffers p !! i) as [b|] eqn:Hb; simplify_eq/=.
    destruct r' as [| |j]; simpl; [done..|].
    rewrite list_lookup_insert_ne; [done|]. congruence.
Qed.

Lemma store_unlinked p r l p' :
  store_link p r l = Some p' -> unlinked p' = unlinked p.
Proof.
  destruct r as [| |i]; simpl; intros Hs; simplify_eq/=; [done|].
  destruct (buffers p !! i) as [b|] eqn:Hb; simplify_eq/=.
  unfold unlinked, set_empty, set_buffers; simpl. f_equal.
  rewrite list_fmap_insert. apply list_insert_id.
  rewrite list_lookup_fmap, Hb. done.
Qed.

Lemma store_is_Some p r l0 l :
  load_link p r = Some l0 -> is_Some (store_link p r l).
Proof.
  destruct r as [| |i]; simpl; intros Hl; simplify_eq/=; [by eexists|].
  destruct (buffers p !! i) as [b|]; simplify_eq/=. by eexists.
Qed.

Lemma set_next_spec p r v :
  is_Some (load_link p r) ->
  exists p', set_next p r v = Some p'
    /\ (forall r', nx p' r' = if decide (r' = r) then Some v else nx p r')
    /\ (forall r', pv p' r' = pv p r')
    /\ unlinked p' = unlinked p.
Proof.
  intros [l0 Hl]. unfold set_next. rewrite Hl. simpl.
  destruct (store_is_Some p r l0 (mk_spa_list v (prev l0)) Hl) as [p' Hs].
  exists p'. split; [done|]. split; [|split].
  - intros r'. unfold nx. case_decide as Hr.
    + subst r'. by rewrite (load_store_eq _ _ _ _ Hs).
    + by rewrite (load_store_ne _ _ _ _ _ Hs Hr).
  - intros r'. unfold pv. destruct (decide (r' = r)) as [->|Hr].
    + by rewrite (load_store_eq _ _ _ _ Hs), Hl.
    + by rewrite (load_store_ne _ _ _ _ _ Hs Hr).
  - by eapply store_unlinked.
Qed.

Lemma set_prev_spec p r v :
  is_Some (load_link p r) ->
  exists p', set_prev p r v = Some p'
    /\ (forall r', pv p' r' = if decide (r' = r) then Some v else pv p r')
    /\ (forall r', nx p' r' = nx p r')
    /\ unlinked p' = unlinked p.
Proof.
  intros [l0 Hl]. unfold set_prev. rewrite Hl. simpl.
  destruct (store_is_Some p r l0 (mk_spa_list (next l0) v) Hl) as [p' Hs].
  exists p'. split; [done|]. split; [|split].
  - intros r'. unfold pv. case_decide as Hr.
    + subst r'. by rewrite (load_store_eq _ _ _ _ Hs).
    + by rewrite (load_store_ne _ _ _ _ _ Hs Hr).
  - intros r'. unfold nx. destruct (decide (r' = r)) as [->|Hr].
    + by rewrite (load_store_eq _ _ _ _ Hs), Hl.
    + by rewrite (load_store_ne _ _ _ _ _ Hs Hr).
  - by eapply store_unlinked.
Qed.

Lemma nx_is_Some p r : is_Some (nx p r) <-> is_Some (load_link p r).
Proof. unfold nx. by rewrite fmap_is_Some. Qed.

Lemma pv_is_Some p r : is_Some (pv p r) <-> is_Some (load_link p r).
Proof. unfold pv. by rewrite fmap_is_Some. Qed.

Lemma nx_Some_load p r v :
  nx p r = Some v -> exists l, load_link p r = Some l /\ next l = v.
Proof.
  unfold nx. destruct (load_link p r) as [l|]; intros; simplify_eq/=. eauto.
Qed.

Lemma pv_Some_load p r v :
  pv p r = Some v -> exists l, load_link p r = Some l /\ prev l = v.
Proof.
  unfold pv. destruct (load_link p r) as [l|]; intros; simplify_eq/=. eauto.
Qed.

End Links.

(** ** Insertion and removal on well-formed lists *)

Section FreeList.

Implicit Types (p : port) (r a : link_ref) (l : list nat).

#[local] Arguments load_link : simpl never.

Lemma valid_by_nx p p' :
  (forall r, nx p' r = nx p r) ->
  forall r, is_Some (load_link p r) -> is_Some (load_link p' r).
Proof. intros H r. rewrite <- !nx_is_Some, H. done. Qed.

Lemma valid_by_pv p p' :
  (forall r, pv p' r = pv p r) ->
  forall r, is_Some (load_link p r) -> is_Some (load_link p' r).
Proof. intros H r. rewrite <- !pv_is_Some, H. done. Qed.

(** [spa_list_insert(list, elem)] when [elem] is neither [list] nor its
    successor [n]: [elem] ends up between the two. *)
Lemma insert_spec p list elem n :
  elem <> list -> n <> elem ->
  nx p list = Some n ->
  is_Some (load_link p elem) -> is_Some (load_link p n) ->
  exists p', spa_list_insert p list elem = Some p'
    /\ (forall r, nx p' r = if decide (r = list) then Some elem
                            else if decide (r = elem) then Some n else nx p r)
    /\ (forall r, pv p' r = if decide (r = n) then Some elem
                            else if decide (r = elem) then Some list else pv p r)
    /\ unlinked p' = unlinked p.
Proof.
  intros Hel Hne Hn He Hvn. unfold spa_list_insert.
  destruct (set_prev_spec p elem list He) as (p1 & -> & Hpv1 & Hnx1 & U1); simpl.
  assert (nx p1 list = Some n) as Hn1 by (by rewrite Hnx1).
  destruct (nx_Some_load _ _ _ Hn1) as (l1 & -> & <-); simpl.
  destruct (set_next_spec p1 elem (next l1) (valid_by_nx _ _ Hnx1 _ He))
    as (p2 & -> & Hnx2 & Hpv2 & U2); simpl.
  assert (is_Some (load_link p2 list)) as Hl2.
  { apply (valid_by_pv p1), (valid_by_nx p); auto. apply nx_is_Some. by rewrite Hn. }
  destruct (set_next_spec p2 list elem Hl2) as (p3 & -> & Hnx3 & Hpv3 & U3); simpl.
  assert (nx p3 elem = Some (next l1)) as Hn3.
  { rewrite Hnx3, decide_False, Hnx2, decide_True by done. done. }
  destruct (nx_Some_load _ _ _ Hn3) as (e & -> & He3); simpl. rewrite He3.
  assert (is_Some (load_link p3 (next l1))) as Hv3.
  { apply (valid_by_pv p2), (valid_by_pv p1), (valid_by_nx p); auto. }
  destruct (set_prev_spec p3 (next l1) elem Hv3) as (p4 & -> & Hpv4 & Hnx4 & U4).
  exists p4. split; [done|]. split; [|split].
  - intros r. rewrite Hnx4, Hnx3. case_decide; [done|].
    rewrite Hnx2. case_decide; [done|]. apply Hnx1.
  - intros r. rewrite Hpv4. case_decide; [done|].
    rewrite Hpv3, Hpv2, Hpv1. done.
  - congruence.
Qed.

Lemma chain_tail p l a : chain p a l -> linked p (tail_ref a l) EmptyHead.
Proof. revert a. induction l as [|i l IH]; simpl; intros a; [done|]. intros [_ H]. auto. Qed.

Lemma tail_ref_cases a l :
  tail_ref a l = a \/ exists i, i ∈ l /\ tail_ref a l = BufferLink i.
Proof.
  revert a. induction l as [|i l IH]; simpl; intros a; [by left|].
  right. destruct (IH (BufferLink i)) as [->|(j & Hj & ->)].
  - exists i. split; [left|done].
  - exists j. split; [by right|done].
Qed.

Lemma chain_valid p l a i : chain p a l -> i ∈ l -> is_Some (buffers p !! i).
Proof.
  revert a. induction l as [|j l IH]; simpl; intros a Hc Hi.
  - by apply elem_of_nil in Hi.
  - destruct Hc as [[_ Hp] Hc]. apply elem_of_cons in Hi as [->|Hi]; [|eauto].
    assert (is_Some (pv p (BufferLink j))) as Hs by (by rewrite Hp).
    apply pv_is_Some in Hs. simpl in Hs. by apply fmap_is_Some in Hs.
Qed.

(** Links of a chain survive any change that leaves the [next] of its
    sources and the [prev] of its targets alone. *)
Lemma chain_frame p p' l a :
  (forall r, r = a \/ (exists i, i ∈ l /\ r = BufferLink i) -> nx p' r = nx p r) ->
  (forall r, r = EmptyHead \/ (exists i, i ∈ l /\ r = BufferLink i) ->
             pv p' r = pv p r) ->
  chain p a l -> chain p' a l.
Proof.
  revert a. induction l as [|i l IH]; simpl; intros a Hnx Hpv.
  - intros [H1 H2]. split; [rewrite Hnx | rewrite Hpv]; auto.
  - intros [[H1 H2] Hc]. split; [split|].
    + rewrite Hnx; auto.
    + rewrite Hpv; [done|]. right. exists i. split; [left|done].
    + apply IH; [| |done].
      * intros r [->|(j & Hj & ->)]; apply Hnx; right.
        -- exists i. split; [left|done].
        -- exists j. split; [by right|done].
      * intros r [->|(j & Hj & ->)]; apply Hpv; [by left|right].
        exists j. split; [by right|done].
Qed.

(** The effect of inserting [x] after the tail, on a chain: [x] is its
    new last element. *)
Lemma chain_snoc p p' x l a :
  (forall i, i ∈ l -> a <> BufferLink i) -> x ∉ l -> a <> BufferLink x ->
  (forall r, nx p' r = if decide (r = tail_ref a l) then Some (BufferLink x)
                       else if decide (r = BufferLink x) then Some EmptyHead
                       else nx p r) ->
  (forall r, pv p' r = if decide (r = EmptyHead) then Some (BufferLink x)
                       else if decide (r = BufferLink x) then Some (tail_ref a l)
                       else pv p r) ->
  NoDup l ->
  chain p a l -> chain p' a (l ++ [x]).
Proof.
  revert a. induction l as [|i l IH]; simpl; intros a Ha Hx Hax Hnx Hpv Hnd.
  - intros _. repeat split.
    + by rewrite Hnx, decide_True.
    + by rewrite Hpv, decide_False, decide_True.
    + rewrite Hnx, decide_False, decide_True by done. done.
    + by rewrite Hpv, decide_True.
  - intros [[H1 H2] Hc]. apply NoDup_cons in Hnd as [Hi Hnd].
    apply not_elem_of_cons in Hx as [Hxi Hx].
    split; [split|].
    + rewrite Hnx, decide_False, decide_False; [done|done|].
      destruct (tail_ref_cases (BufferLink i) l) as [->|(j & Hj & ->)].
      * apply Ha. left.
      * apply Ha. by right.
    + rewrite Hpv, decide_False, decide_False; [done|congruence|done].
    + apply IH; auto; congruence.
Qed.

(** [spa_list_append(&p->empty, &p->buffers[x].link)] on a proper free
    list that does not hold [x]: [x] is appended at the tail and nothing
    but links changes. *)
Lemma append_spec p l x :
  is_free_list p l -> x ∉ l -> is_Some (buffers p !! x) ->
  exists p', spa_list_append p EmptyHead (BufferLink x) = Some p'
    /\ is_free_list p' (l ++ [x]) /\ unlinked p' = unlinked p.
Proof.
  intros [Hnd Hc] Hx Hv. unfold spa_list_append. simpl.
  destruct (chain_tail _ _ _ Hc) as [Ht1 Ht2].
  destruct (pv_Some_load _ _ _ Ht2) as (l0 & Hl0 & Hp0). simpl in Hl0.
  injection Hl0 as <-. rewrite Hp0.
  destruct (insert_spec p (tail_ref EmptyHead l) (BufferLink x) EmptyHead)
    as (p' & -> & Hnx & Hpv & U); [|done|done| |by eexists|].
  - destruct (tail_ref_cases EmptyHead l) as [->|(j & Hj & ->)]; [done|].
    intros [= ->]. done.
  - simpl. by apply fmap_is_Some.
  - exists p'. split; [done|]. split; [|done]. split.
    + apply NoDup_app. split; [done|]. split; [|apply NoDup_singleton].
      intros y Hy Hy'%list_elem_of_singleton. by subst.
    + by apply (chain_snoc p).
Qed.

Lemma chain_head p l a : chain p a l -> linked p a (head_ref l).
Proof. destruct l; simpl; [done|]. by intros [H _]. Qed.

(** [spa_list_remove] of the first buffer of a proper free list. *)
Lemma remove_first_spec p x l :
  is_free_list p (x :: l) ->
  exists p', spa_list_remove p (BufferLink x) = Some p'
    /\ is_free_list p' l /\ unlinked p' = unlinked p.
Proof.
  intros [Hnd [[H1 H2] Hc]]. apply NoDup_cons in Hnd as [Hx Hnd].
  destruct (chain_head _ _ _ Hc) as [Hn1 Hn2].
  unfold spa_list_remove.
  destruct (pv_Some_load _ _ _ H2) as (e & He & Hpe).
  destruct (nx_Some_load _ _ _ Hn1) as (e' & He' & Hne).
  assert (e' = e) as -> by congruence.
  rewrite He; simpl. rewrite Hpe, Hne.
  destruct (set_next_spec p EmptyHead (head_ref l)) as (p1 & -> & Hnx1 & Hpv1 & U1);
    [by eexists|]. simpl.
  assert (load_link p1 (BufferLink x) = Some e) as ->.
  { pose proof (Hnx1 (BufferLink x)) as Ha. pose proof (Hpv1 (BufferLink x)) as Hb.
    rewrite decide_False in Ha by done. unfold nx, pv in Ha, Hb. rewrite He in Ha, Hb.
    destruct (load_link p1 (BufferLink x)) as [[? ?]|]; destruct e; simplify_eq/=. done. }
  simpl. rewrite Hpe, Hne.
  destruct (set_prev_spec p1 (head_ref l) EmptyHead) as (p2 & -> & Hpv2 & Hnx2 & U2).
  { apply (valid_by_pv p); [done|]. apply pv_is_Some. by rewrite Hn2. }
  exists p2. split; [done|]. split; [|congruence]. split; [done|].
  destruct l as [|y l]; simpl in *.
  - split.
    + by rewrite Hnx2, Hnx1, decide_True.
    + by rewrite Hpv2, decide_True.
  - destruct Hc as [_ Hc]. apply NoDup_cons in Hnd as [Hy Hnd]. split; [split|].
    + by rewrite Hnx2, Hnx1, decide_True.
    + by rewrite Hpv2, decide_True.
    + apply (chain_frame p); [| |done].
      * intros r Hr. rewrite Hnx2, Hnx1, decide_False; [done|].
        destruct Hr as [->|(j & _ & ->)]; done.
      * intros r Hr. rewrite Hpv2, decide_False; [apply Hpv1|].
        destruct Hr as [->|(j & Hj & ->)]; [done|]. intros [= ->]. done.
Qed.

(** Reading a proper free list from the head yields its buffers. *)
Lemma walk_chain p l a fuel :
  chain p a l -> (length l < fuel)%nat ->
  exists r, nx p a = Some r /\ walk fuel p r = Some l.
Proof.
  revert a fuel. induction l as [|i l IH]; simpl; intros a fuel Hc Hf.
  - destruct Hc as [H _]. exists EmptyHead. split; [done|].
    destruct fuel; [lia|done].
  - destruct Hc as [[H _] Hc]. exists (BufferLink i). split; [done|].
    destruct fuel as [|fuel]; [lia|].
    destruct (IH (BufferLink i) fuel Hc) as (r & Hr & Hw); [lia|].
    destruct (nx_Some_load _ _ _ Hr) as (li & Hli & <-).
    simpl in *. rewrite Hli. simpl. rewrite Hw. done.
Qed.

Lemma free_list_bound p l :
  is_free_list p l -> (length l <= length (buffers p))%nat.
Proof.
  intros [Hnd Hc].
  replace (length (buffers p)) with (length (seq 0%nat (length (buffers p))))
    by apply length_seq.
  apply submseteq_length, NoDup_submseteq; [done|].
  intros i Hi. apply elem_of_seq. split; [lia|]. simpl.
  destruct (chain_valid _ _ _ _ Hc Hi) as [b Hb]. by eapply lookup_lt_Some.
Qed.

Lemma free_list_walk p l : is_free_list p l -> free_list p = Some l.
Proof.
  intros H. pose proof (free_list_bound _ _ H) as Hlen. destruct H as [_ Hc].
  destruct (walk_chain p l EmptyHead (S (length (buffers p))) Hc) as (r & Hr & Hw);
    [lia|].
  unfold free_list. unfold nx in Hr. simpl in Hr. by injection Hr as ->.
Qed.

Lemma free_list_is_empty p l :
  is_free_list p l -> spa_list_is_empty p = bool_decide (l = []).
Proof.
  intros [_ Hc]. destruct (chain_head _ _ _ Hc) as [Hn _].
  unfold nx in Hn; simpl in Hn. injection Hn as Hn.
  unfold spa_list_is_empty. rewrite Hn. by destruct l.
Qed.

End FreeList.

(** ** Port index checks *)

Section PortIndex.

Context `{Platform}.

(** C10.  Each of [port_set_io], [port_enum_params], [port_set_param]
    and [port_use_buffers], called with a port index that is not below
    the node's port count, returns [-EINVAL] and leaves the whole node
    state as it was: no mailbox bound, nothing sent to the listeners,
    no parameter table or pool touched. *)
Theorem invalid_port_rejected (d : data) (port_id : Z) :
  n_ports d <= port_id ->
  (forall direction id area size,
      impl_port_set_io d direction port_id id area size = Returns (- EINVAL) d)
  /\ (forall fuel seq direction id start num filter,
         impl_port_enum_params fuel d seq direction port_id id start num filter
         = Some (Returns (- EINVAL) d))
  /\ (forall direction id flags param,
         impl_port_set_param d direction port_id id flags param
         = Returns (- EINVAL) d)
  /\ (forall direction flags bufs,
         impl_port_use_buffers d direction port_id flags bufs
         = Returns (- EINVAL) d).
Proof.
  intros Hge. apply Z.leb_le in Hge.
  unfold impl_port_set_io, impl_port_enum_params, impl_port_set_param,
    impl_port_use_buffers.
  rewrite Hge. repeat split.
Qed.

End PortIndex.

Lemma invalid_port_rejected_witness :
  n_ports main_data <= 16
  /\ @impl_port_set_param sample_platform main_data SPA_DIRECTION_OUTPUT 16
       SPA_PARAM_Format 0 None = Returns (- EINVAL) main_data.
Proof.
  assert (n_ports main_data <= 16) as Hle by (vm_compute; discriminate).
  split; [exact Hle|].
  apply (@invalid_port_rejected sample_platform main_data 16 Hle).
Defined.

(** ** What emission leaves alone *)

Section Emission.

Lemma emit_node_info_ports d full : ports (emit_node_info d full) = ports d.
Proof. unfold emit_node_info. destruct full; simpl; repeat case_match; done. Qed.

Lemma emit_node_info_n_ports d full : n_ports (emit_node_info d full) = n_ports d.
Proof. unfold emit_node_info. destruct full; simpl; repeat case_match; done. Qed.

Lemma emit_node_info_mask_all d full :
  port_change_mask_all (emit_node_info d full) = port_change_mask_all d.
Proof. unfold emit_node_info. destruct full; simpl; repeat case_match; done. Qed.

(** One turn of the loop of [emit_port_info] rewrites the port it
    visits and may call the listeners; nothing else. *)
Lemma emit_one_port_info_spec full d n p :
  ports d !! n = Some p ->
  exists evs,
    emit_one_port_info full d n
    = set_hooks (hooks d ++ evs)
        (set_ports (<[n := port_after_emit full (port_change_mask_all d) p]> (ports d)) d).
Proof.
  intros Hp. unfold emit_one_port_info, port_after_emit. rewrite Hp.
  destruct p as [f [m fl np] t bs nb i ion ions e]. destruct d. simpl in *.
  destruct full; simpl.
  - destruct (port_change_mask_all0 =? 0); simpl.
    + exists []. by rewrite app_nil_r.
    + destruct (Z.land port_change_mask_all0 SPA_PORT_CHANGE_MASK_PARAMS =? 0);
        simpl; eexists [_]; reflexivity.
  - destruct (m =? 0); simpl.
    + exists []. by rewrite app_nil_r.
    + destruct (Z.land m SPA_PORT_CHANGE_MASK_PARAMS =? 0);
        simpl; eexists [_]; reflexivity.
Qed.

Lemma emit_one_port_info_none full d n :
  ports d !! n = None -> emit_one_port_info full d n = d.
Proof. intros Hp. unfold emit_one_port_info. by rewrite Hp. Qed.

(** The loop keeps the node tables and port count, and the number of
    ports. *)
Lemma emit_ports_loop_frame full ns d :
  let d' := foldl (emit_one_port_info full) d ns in
  n_ports d' = n_ports d /\ length (ports d') = length (ports d)
  /\ port_change_mask_all d' = port_change_mask_all d
  /\ params d' = params d /\ info d' = info d
  /\ change_mask_all d' = change_mask_all d.
Proof.
  revert d. induction ns as [|n ns IH]; simpl; intros d; [done|].
  destruct (IH (emit_one_port_info full d n)) as (-> & -> & -> & -> & -> & ->).
  destruct (ports d !! n) as [p|] eqn:Hp.
  - destruct (emit_one_port_info_spec full d n p Hp) as [evs ->]. simpl.
    by rewrite length_insert.
  - by rewrite emit_one_port_info_none.
Qed.

(** A port the loop does not visit is unchanged; a port it visits once
    is left as [port_after_emit] says. *)
Lemma emit_ports_loop_skip full ns d n :
  n ∉ ns -> ports (foldl (emit_one_port_info full) d ns) !! n = ports d !! n.
Proof.
  revert d. induction ns as [|m ns IH]; simpl; intros d Hn; [done|].
  apply not_elem_of_cons in Hn as [Hnm Hn]. rewrite IH by done.
  destruct (ports d !! m) as [p|] eqn:Hp.
  - destruct (emit_one_port_info_spec full d m p Hp) as [evs ->]. simpl.
    by rewrite list_lookup_insert_ne.
  - by rewrite emit_one_port_info_none.
Qed.

Lemma emit_ports_loop_visit full ns d n p :
  NoDup ns -> n ∈ ns -> ports d !! n = Some p ->
  ports (foldl (emit_one_port_info full) d ns) !! n
  = Some (port_after_emit full (port_change_mask_all d) p).
Proof.
  revert d. induction ns as [|m ns IH]; simpl; intros d Hnd Hn Hp.
  - by apply elem_of_nil in Hn.
  - apply NoDup_cons in Hnd as [Hm Hnd].
    destruct (decide (n = m)) as [->|Hne].
    + rewrite emit_ports_loop_skip by done.
      destruct (emit_one_port_info_spec full d m p Hp) as [evs ->]. simpl.
      rewrite list_lookup_insert_eq; [done|]. by eapply lookup_lt_Some.
    + apply elem_of_cons in Hn as [?|Hn]; [done|].
      destruct (ports d !! m) as [q|] eqn:Hq.
      * destruct (emit_one_port_info_spec full d m q Hq) as [evs Hev].
        rewrite Hev. rewrite IH; [done|done|done|].
        simpl. by rewrite list_lookup_insert_ne.
      * rewrite emit_one_port_info_none by done. by apply IH.
Qed.

Lemma emit_port_info_lookup d full n p :
  (n < Z.to_nat (n_ports d))%nat -> ports d !! n = Some p ->
  ports (emit_port_info d full) !! n
  = Some (port_after_emit full (port_change_mask_all d) p).
Proof.
  intros Hn Hp. unfold emit_port_info.
  apply emit_ports_loop_visit; [apply NoDup_seq| |done].
  apply elem_of_seq. lia.
Qed.

Lemma emit_port_info_frame d full :
  n_ports (emit_port_info d full) = n_ports d
  /\ length (ports (emit_port_info d full)) = length (ports d)
  /\ port_change_mask_all (emit_port_info d full) = port_change_mask_all d
  /\ params (emit_port_info d full) = params d
  /\ info (emit_port_info d full) = info d
  /\ change_mask_all (emit_port_info d full) = change_mask_all d.
Proof. apply emit_ports_loop_frame. Qed.

End Emission.

(** ** Enumeration *)

Section Enumeration.

Context `{Platform}.

(** What the [Format] case leaves: the format written through [p],
    the [Format] descriptor in entry [PORT_Format] of the node table
    and the [Buffers] descriptor over the members that follow the
    table. *)
Lemma commit_format_spec k param d :
  commit_format k param d
  = Some (store_past_params (buffers_descriptor param)
            (set_params (<[PORT_Format := format_descriptor param]> (params d))
               (set_ports
                  (alter (fun p => set_format (committed_format param (format p)) p)
                     k (ports d)) d))).
Proof. destruct param; reflexivity. Qed.

Lemma commit_format_frame k param d d1 :
  commit_format k param d = Some d1 ->
  n_ports d1 = n_ports d /\ length (ports d1) = length (ports d)
  /\ info d1 = info d /\ hooks d1 = hooks d
  /\ change_mask_all d1 = change_mask_all d
  /\ length (params d1) = length (params d).
Proof.
  rewrite commit_format_spec. intros [= <-].
  cbn [store_past_params set_ports set_port_change_mask_all set_params
       n_ports ports info hooks change_mask_all params].
  rewrite !length_alter, length_insert. done.
Qed.

(** A committed or cleared format leaves the port count and the number
    of ports as they were. *)
Lemma set_param_format_frame d direction port_id flags param :
  0 <= port_id < n_ports d -> (Z.to_nat port_id < length (ports d))%nat ->
  exists d',
    impl_port_set_param d direction port_id SPA_PARAM_Format flags param
    = Returns 0 d'
    /\ n_ports d' = n_ports d /\ length (ports d') = length (ports d).
Proof.
  intros [H0 Hlt] Hlen. unfold impl_port_set_param.
  apply Z.leb_gt in Hlt. rewrite Hlt.
  destruct (lookup_lt_is_Some_2 _ _ Hlen) as [p ->].
  change (SPA_PARAM_Format =? SPA_PARAM_Format) with true. cbv iota zeta.
  destruct (commit_format (Z.to_nat port_id) param d) as [d1|] eqn:Hc;
    [|by rewrite commit_format_spec in Hc].
  destruct (commit_format_frame _ _ _ _ Hc) as (Hn & Hl & _).
  eexists. split; [reflexivity|].
  match goal with
  | |- context [emit_port_info ?x false] =>
      destruct (emit_port_info_frame x false) as (-> & -> & _)
  end.
  rewrite emit_node_info_n_ports, emit_node_info_ports.
  cbn [n_ports ports set_ports]. by rewrite length_alter.
Qed.

(** The loop always ends: candidates exist at index 0, and at index 1
    for [SPA_PARAM_IO], so it is left after three turns at most, and
    more fuel does not change what it returns. *)
Lemma enum_switch_candidate p id index param :
  enum_switch p id index = Candidate param -> index = 0 \/ index = 1.
Proof.
  unfold enum_switch.
  destruct (Z.eqb_spec index 0) as [->|?]; [by left|].
  destruct (Z.eqb_spec index 1) as [->|?]; [by right|].
  repeat case_match; done.
Qed.

Lemma enum_loop_unfold fuel p seq id num filter nxt emitted d :
  enum_loop (S fuel) p seq id num filter nxt emitted d
  = if num <=? emitted then Some (Returns 0 d)
    else
      match enum_switch p id nxt with
      | Unsupported => Some (Returns (- ENOENT) d)
      | Exhausted => Some (Returns 0 d)
      | Candidate param =>
          match spa_pod_filter param filter with
          | None =>
              enum_loop fuel p seq id num filter ((nxt + 1) mod 2 ^ 32) emitted d
          | Some r =>
              enum_loop fuel p seq id num filter ((nxt + 1) mod 2 ^ 32)
                (emitted + 1)
                (emit (result_event seq 0 SPA_RESULT_TYPE_NODE_PARAMS
                         (mk_result id nxt ((nxt + 1) mod 2 ^ 32) r)) d)
          end
      end.
Proof. reflexivity. Qed.

Lemma enum_loop_more_fuel fuel p seq id num filter nxt emitted d o :
  enum_loop fuel p seq id num filter nxt emitted d = Some o ->
  enum_loop (S fuel) p seq id num filter nxt emitted d = Some o.
Proof.
  revert nxt emitted d. induction fuel as [|fuel IH]; intros nxt emitted d; [done|].
  intros Ho. rewrite enum_loop_unfold in Ho. rewrite enum_loop_unfold.
  destruct (num <=? emitted); [done|].
  destruct (enum_switch p id nxt) as [param| |]; [|done..].
  destruct (spa_pod_filter param filter); by apply IH.
Qed.

Lemma enum_loop_total fuel p seq id num filter nxt emitted d :
  (3 <= fuel)%nat -> 0 <= nxt < 2 ^ 32 ->
  is_Some (enum_loop fuel p seq id num filter nxt emitted d).
Proof.
  intros Hf Hn.
  assert (is_Some (enum_loop 3 p seq id num filter nxt emitted d)) as [o Ho].
  { assert (forall e d', is_Some (enum_loop 1 p seq id num filter 2 e d')) as H2.
    { intros e d'. rewrite enum_loop_unfold. destruct (num <=? e); [by eexists|].
      destruct (enum_switch p id 2) as [param| |] eqn:Hs; [|by eexists..].
      apply enum_switch_candidate in Hs. lia. }
    assert (forall e d', is_Some (enum_loop 2 p seq id num filter 1 e d')) as H1.
    { intros e d'. rewrite enum_loop_unfold. destruct (num <=? e); [by eexists|].
      destruct (enum_switch p id 1) as [param| |] eqn:Hs; [|by eexists..].
      change ((1 + 1) mod 2 ^ 32) with 2.
      destruct (spa_pod_filter param filter); apply H2. }
    rewrite enum_loop_unfold. destruct (num <=? emitted); [by eexists|].
    destruct (enum_switch p id nxt) as [param| |] eqn:Hs; [|by eexists..].
    apply enum_switch_candidate in Hs as Hi. destruct Hi as [-> | ->].
    - change ((0 + 1) mod 2 ^ 32) with 1.
      destruct (spa_pod_filter param filter); apply H1.
    - change ((1 + 1) mod 2 ^ 32) with 2.
      destruct (spa_pod_filter param filter) as [r|].
      + destruct (H2 (emitted + 1)
                    (emit (result_event seq 0 SPA_RESULT_TYPE_NODE_PARAMS
                             (mk_result id 1 2 r)) d)) as [o Ho].
        exists o. by apply enum_loop_more_fuel.
      + destruct (H2 emitted d) as [o Ho].
        exists o. by apply enum_loop_more_fuel. }
  exists o. clear Hn. revert Ho.
  replace fuel with (fuel - 3 + 3)%nat by lia. generalize (fuel - 3)%nat as k.
  intros k. induction k as [|k IH]; [done|].
  intros Ho. apply enum_loop_more_fuel. auto.
Qed.

(** One turn that finds a candidate the filter accepts, then the test
    [emitted >= num] with [num = 1], ends the loop. *)
Lemma enum_loop_single fuel p seq id filter d param r :
  (2 <= fuel)%nat ->
  enum_switch p id 0 = Candidate param ->
  spa_pod_filter param filter = Some r ->
  enum_loop fuel p seq id 1 filter 0 0 d
  = Some (Returns 0
            (emit (result_event seq 0 SPA_RESULT_TYPE_NODE_PARAMS
                     (mk_result id 0 1 r)) d)).
Proof.
  intros Hf Hc Hr. destruct fuel as [|[|fuel]]; [lia..|].
  simpl. rewrite Hc, Hr. reflexivity.
Qed.

(** C7.  Whatever the state of the node and of the port (format
    committed or not), enumerating [SPA_PARAM_EnumFormat] on an existing
    port with [start = 0] and [num = 1] sends exactly one result to the
    listeners, the format choice filtered by the caller's filter, and
    returns 0. *)
Theorem enum_format_one_candidate (fuel : nat) (d : data) (p : port)
    (seq direction port_id : Z) (filter : option spa_pod) (r : spa_pod) :
  (2 <= fuel)%nat ->
  port_id < n_ports d ->
  ports d !! Z.to_nat port_id = Some p ->
  spa_pod_filter enum_format_pod filter = Some r ->
  impl_port_enum_params fuel d seq direction port_id SPA_PARAM_EnumFormat 0 1 filter
  = Some (Returns 0
            (emit (result_event seq 0 SPA_RESULT_TYPE_NODE_PARAMS
                     (mk_result SPA_PARAM_EnumFormat 0 1 r)) d)).
Proof.
  intros Hf Hlt Hp Hr. unfold impl_port_enum_params.
  apply Z.leb_gt in Hlt. rewrite Hlt, Hp.
  by apply enum_loop_single with (param := enum_format_pod).
Qed.

(** C6, as the code has it.  After a format is committed on a port and
    then cleared, enumerating [SPA_PARAM_Buffers] with [start = 0] and
    [num = 1] sends exactly one result, the buffer requirements, just as
    it does before any commit: the enumeration does not look at the
    format. *)
Theorem enum_buffers_after_recommit (fuel : nat) (d : data)
    (seq direction port_id flags : Z) (payload : spa_pod)
    (filter : option spa_pod) (r : spa_pod) :
  (2 <= fuel)%nat ->
  0 <= port_id < n_ports d ->
  (Z.to_nat port_id < length (ports d))%nat ->
  spa_pod_filter (buffers_pod SPA_PARAM_Buffers) filter = Some r ->
  let answer := result_event seq 0 SPA_RESULT_TYPE_NODE_PARAMS
                  (mk_result SPA_PARAM_Buffers 0 1 r) in
  exists d1 d2,
    impl_port_set_param d direction port_id SPA_PARAM_Format flags (Some payload)
    = Returns 0 d1
    /\ impl_port_set_param d1 direction port_id SPA_PARAM_Format flags None
       = Returns 0 d2
    /\ impl_port_enum_params fuel d2 seq direction port_id SPA_PARAM_Buffers 0 1 filter
       = Some (Returns 0 (emit answer d2))
    /\ impl_port_enum_params fuel d seq direction port_id SPA_PARAM_Buffers 0 1 filter
       = Some (Returns 0 (emit answer d)).
Proof.
  intros Hf Hid Hlen Hr answer.
  destruct (set_param_format_frame d direction port_id flags (Some payload) Hid Hlen)
    as (d1 & E1 & Hn1 & Hl1).
  destruct (set_param_format_frame d1 direction port_id flags None)
    as (d2 & E2 & Hn2 & Hl2); [lia..|].
  exists d1, d2. split; [done|]. split; [done|].
  assert (forall d', n_ports d' = n_ports d -> length (ports d') = length (ports d) ->
            impl_port_enum_params fuel d' seq direction port_id SPA_PARAM_Buffers 0 1 filter
            = Some (Returns 0 (emit answer d'))) as Hgen.
  { intros d' Hn Hl. unfold impl_port_enum_params.
    destruct (Z.leb_spec (n_ports d') port_id) as [?|_]; [lia|].
    destruct (lookup_lt_is_Some_2 (ports d') (Z.to_nat port_id)) as [p ->]; [lia|].
    by apply enum_loop_single with (param := buffers_pod SPA_PARAM_Buffers). }
  split; apply Hgen; congruence.
Qed.

End Enumeration.

Lemma enum_format_one_candidate_witness :
  @impl_port_enum_params sample_platform 2 main_data 0 SPA_DIRECTION_OUTPUT 0
    SPA_PARAM_EnumFormat 0 1 None
  = Some (Returns 0
            (emit (result_event 0 0 SPA_RESULT_TYPE_NODE_PARAMS
                     (mk_result SPA_PARAM_EnumFormat 0 1 enum_format_pod))
               main_data)).
Proof.
  apply (@enum_format_one_candidate sample_platform 2 main_data main_port
           0 SPA_DIRECTION_OUTPUT 0 None enum_format_pod).
  - lia.
  - vm_compute. reflexivity.
  - reflexivity.
  - reflexivity.
Defined.

Lemma enum_buffers_after_recommit_witness :
  exists d1 d2,
    @impl_port_set_param sample_platform main_data SPA_DIRECTION_OUTPUT 0
      SPA_PARAM_Format 0 (Some (pod_foreign 1)) = Returns 0 d1
    /\ @impl_port_set_param sample_platform d1 SPA_DIRECTION_OUTPUT 0
         SPA_PARAM_Format 0 None = Returns 0 d2
    /\ @impl_port_enum_params sample_platform 2 d2 0 SPA_DIRECTION_OUTPUT 0
         SPA_PARAM_Buffers 0 1 None
       = Some (Returns 0
                 (emit (result_event 0 0 SPA_RESULT_TYPE_NODE_PARAMS
                          (mk_result SPA_PARAM_Buffers 0 1
                             (buffers_pod SPA_PARAM_Buffers))) d2))
    /\ @impl_port_enum_params sample_platform 2 main_data 0 SPA_DIRECTION_OUTPUT 0
         SPA_PARAM_Buffers 0 1 None
       = Some (Returns 0
                 (emit (result_event 0 0 SPA_RESULT_TYPE_NODE_PARAMS
                          (mk_result SPA_PARAM_Buffers 0 1
                             (buffers_pod SPA_PARAM_Buffers))) main_data)).
Proof.
  apply (@enum_buffers_after_recommit sample_platform 2 main_data 0
           SPA_DIRECTION_OUTPUT 0 0 (pod_foreign 1) None
           (buffers_pod SPA_PARAM_Buffers)).
  - lia.
  - vm_compute. split; [discriminate|reflexivity].
  - vm_compute. lia.
  - reflexivity.
Defined.

(** C6 as the spec words it fails: on the state [main] builds, after a
    commit and a clearing commit on port 0, the enumeration of
    [SPA_PARAM_Buffers] sends one result to the listeners, not none. *)
Lemma enum_buffers_after_recommit_counterexample :
  exists d1 d2 d3,
    @impl_port_set_param sample_platform main_data SPA_DIRECTION_OUTPUT 0
      SPA_PARAM_Format 0 (Some (pod_foreign 1)) = Returns 0 d1
    /\ @impl_port_set_param sample_platform d1 SPA_DIRECTION_OUTPUT 0
         SPA_PARAM_Format 0 None = Returns 0 d2
    /\ @impl_port_enum_params sample_platform 3 d2 0 SPA_DIRECTION_OUTPUT 0
         SPA_PARAM_Buffers 0 1 None = Some (Returns 0 d3)
    /\ hooks d3
       = hooks d2 ++ [result_event 0 0 SPA_RESULT_TYPE_NODE_PARAMS
                        (mk_result SPA_PARAM_Buffers 0 1
                           (buffers_pod SPA_PARAM_Buffers))]
    /\ hooks d3 <> hooks d2.
Proof.
  do 3 eexists. split; [vm_compute; reflexivity|].
  split; [vm_compute; reflexivity|]. split; [vm_compute; reflexivity|].
  split; [vm_compute; reflexivity|].
  intros Heq. apply (f_equal length) in Heq. vm_compute in Heq. discriminate.
Qed.

(** ** Draining descriptors *)

Section Drain.

Lemma drain_params_lookup n t i :
  drain_params n t !! i
  = if decide (i < Z.to_nat n)%nat then drain <$> t !! i else t !! i.
Proof.
  unfold drain_params. generalize (Z.to_nat n) as k. intros k.
  induction k as [|k IH].
  - destruct (decide (i < 0)%nat); [lia|done].
  - rewrite seq_S, foldl_app. cbn [foldl Nat.add].
    destruct (decide (i = k)) as [->|Hne].
    + rewrite list_lookup_alter_eq, IH.
      destruct (decide (k < k)%nat); [lia|].
      destruct (decide (k < S k)%nat); [done|lia].
    + rewrite list_lookup_alter_ne, IH by done.
      destruct (decide (i < k)%nat), (decide (i < S k)%nat); done || lia.
Qed.




(** Draining never changes a descriptor's id nor its read and write
    flags. *)
Lemma drain_access x :
  pi_id (drain x) = pi_id x
  /\ Z.land (pi_flags (drain x)) SPA_PARAM_INFO_READWRITE
     = Z.land (pi_flags x) SPA_PARAM_INFO_READWRITE.
Proof.
  unfold drain. destruct (0 <? pi_user x); simpl; [|done]. split; [done|].
  apply Z.bits_inj'. intros n Hn. rewrite !Z.land_spec, Z.lxor_spec.
  destruct (Z.eq_dec n 0) as [->|Hne].
  - change (Z.testbit SPA_PARAM_INFO_READWRITE 0) with false.
    by rewrite !andb_false_r.
  - change SPA_PARAM_INFO_SERIAL with (2 ^ 0).
    rewrite Z.pow2_bits_false by lia. by rewrite xorb_false_r.
Qed.

End Drain.

(** ** Committing a format *)

Section Commit.

Context `{Platform}.

Lemma port_after_emit_marked full mask_all p :
  format (port_after_emit full mask_all p) = format p
  /\ port_params (port_after_emit false mask_all (mark_params_changed p))
     = drain_params (pti_n_params (port_info p)) (port_params p).
Proof. destruct p as [f [m fl np] t bs nb i ion ions e]. done. Qed.

(** The ports after the [Format] case and the marking of port [k]. *)
Lemma commit_format_ports k param d d1 :
  commit_format k param d = Some d1 ->
  alter mark_params_changed k (ports d1)
  = alter mark_params_changed k
      (alter (fun p => set_format (overrun_format (buffers_descriptor param) (format p)) p)
         0%nat
         (alter (fun p => set_format (committed_format param (format p)) p)
            k (ports d)))
  /\ port_change_mask_all d1
     = SPA_PARAM_Buffers + 2 ^ 32 * pi_flags (buffers_descriptor param)
  /\ params d1 = <[PORT_Format := format_descriptor param]> (params d).
Proof. rewrite commit_format_spec. by intros [= <-]. Qed.

(** C2, what the code does.  Committing [SPA_PARAM_Format] on an
    existing port writes the parsed format (or the zeroed one when the
    payload is absent) into the port, but the descriptors it rewrites
    are those of the node table [d->params]: in the port's own table
    every descriptor keeps its id and its read and write flags,
    payload or not; the table is only drained by the emission that
    follows.  The [Format] descriptor goes to entry [PORT_Format] of
    the node table, and the [Buffers] descriptor to
    [d->params[PORT_Buffers]], one entry past the end of the table:
    it replaces [port_change_mask_all] and blanks the start of the
    format of port 0, so the format just committed survives on every
    port but port 0. *)
Theorem set_param_format_keeps_port_table (d : data) (p : port)
    (direction port_id flags : Z) (param : option spa_pod) :
  0 <= port_id < n_ports d ->
  ports d !! Z.to_nat port_id = Some p ->
  exists d1 p1 q0,
    impl_port_set_param d direction port_id SPA_PARAM_Format flags param
    = Returns 0 d1
    /\ ports d1 !! Z.to_nat port_id = Some p1
    /\ port_params p1 = drain_params (pti_n_params (port_info p)) (port_params p)
    /\ (forall i x, port_params p !! i = Some x ->
          exists x', port_params p1 !! i = Some x' /\ pi_id x' = pi_id x
            /\ Z.land (pi_flags x') SPA_PARAM_INFO_READWRITE
               = Z.land (pi_flags x) SPA_PARAM_INFO_READWRITE)
    /\ (port_id <> 0 -> format p1 = committed_format param (format p))
    /\ (port_id = 0 ->
        format p1
        = overrun_format (buffers_descriptor param)
            (committed_format param (format p)))
    /\ ports d1 !! 0%nat = Some q0
    /\ ai_format (format q0) = SPA_AUDIO_FORMAT_UNKNOWN
    /\ ai_rate (format q0) = 0 /\ ai_channels (format q0) = 0
    /\ port_change_mask_all d1
       = SPA_PARAM_Buffers + 2 ^ 32 * pi_flags (buffers_descriptor param)
    /\ (forall x, params d !! PORT_Format = Some x ->
        exists y, params d1 !! PORT_Format = Some y
          /\ pi_id y = SPA_PARAM_Format
          /\ Z.land (pi_flags y) SPA_PARAM_INFO_READWRITE
             = pi_flags (format_descriptor param)).
Proof.
  intros [H0 Hlt] Hp. unfold impl_port_set_param.
  pose proof Hlt as Hlt'. apply Z.leb_gt in Hlt'. rewrite Hlt', Hp.
  change (SPA_PARAM_Format =? SPA_PARAM_Format) with true. cbv iota zeta.
  destruct (commit_format (Z.to_nat port_id) param d) as [dS|] eqn:Hc;
    [|by rewrite commit_format_spec in Hc].
  destruct (commit_format_frame _ _ _ _ Hc) as (Hn & Hl & _).
  destruct (commit_format_ports _ _ _ _ Hc) as (Hps & Hm & Ht).
  rewrite Hps.
  set (wf := fun q : port => set_format (committed_format param (format q)) q).
  set (ov := fun q : port =>
               set_format (overrun_format (buffers_descriptor param) (format q)) q).
  set (d2 := set_ports _ dS).
  assert (Z.to_nat port_id < length (ports d))%nat as Hk
    by (by eapply lookup_lt_Some).
  assert (is_Some (ports d !! 0%nat)) as [p0 Hp0]
    by (apply lookup_lt_is_Some_2; lia).
  assert (forall n q, Z.of_nat n < n_ports d -> ports d2 !! n = Some q ->
            ports (emit_port_info (emit_node_info d2 false) false) !! n
            = Some (port_after_emit false (port_change_mask_all d2) q)) as Hemit.
  { intros n q Hn' Hq. rewrite <- (emit_node_info_mask_all d2 false).
    apply emit_port_info_lookup.
    - rewrite emit_node_info_n_ports. unfold d2. cbn [n_ports set_ports]. lia.
    - by rewrite emit_node_info_ports. }
  assert (forall p1 t,
    port_params p1 = drain_params t (port_params p) ->
    forall i x, port_params p !! i = Some x ->
      exists x', port_params p1 !! i = Some x' /\ pi_id x' = pi_id x
        /\ Z.land (pi_flags x') SPA_PARAM_INFO_READWRITE
           = Z.land (pi_flags x) SPA_PARAM_INFO_READWRITE) as Hacc.
  { intros p1 t -> i x Hx. rewrite drain_params_lookup, Hx. simpl.
    case_decide; eexists; (split; [reflexivity|]); [apply drain_access|done]. }
  assert (port_change_mask_all (emit_port_info (emit_node_info d2 false) false)
          = port_change_mask_all dS
          /\ forall x, params d !! PORT_Format = Some x ->
               exists y,
                 params (emit_port_info (emit_node_info d2 false) false) !! PORT_Format
                 = Some y
                 /\ pi_id y = SPA_PARAM_Format
                 /\ Z.land (pi_flags y) SPA_PARAM_INFO_READWRITE
                    = pi_flags (format_descriptor param))
    as (Hm' & Ht').
  { destruct (emit_port_info_frame (emit_node_info d2 false) false)
      as (_ & _ & -> & -> & _).
    rewrite emit_node_info_mask_all. split; [done|]. intros x Hx.
    assert (params dS !! PORT_Format = Some (format_descriptor param)) as Hfd.
    { rewrite Ht. apply list_lookup_insert_eq. by eapply lookup_lt_Some. }
    assert (Z.land (pi_flags (format_descriptor param)) SPA_PARAM_INFO_READWRITE
            = pi_flags (format_descriptor param)) as Hrw by (by destruct param).
    assert (params (emit_node_info d2 false) = params dS
            \/ params (emit_node_info d2 false)
               = drain_params (ni_n_params (info dS)) (params dS)) as [-> | ->].
    { unfold emit_node_info, d2. simpl. repeat case_match; auto. }
    - by exists (format_descriptor param).
    - rewrite drain_params_lookup, Hfd. simpl. case_decide; [|by eexists].
      eexists. split; [done|]. destruct (drain_access (format_descriptor param))
        as [-> ->]. done. }
  destruct (decide (port_id = 0)) as [->|Hne].
  - change (Z.to_nat 0) with 0%nat in *.
    assert (ports d2 !! 0%nat
            = Some (mark_params_changed (ov (wf p)))) as Hq.
    { unfold d2. cbn [ports set_ports].
      rewrite !list_lookup_alter_eq, Hp. done. }
    eexists _, _, _. split; [reflexivity|]. split; [apply Hemit; [lia|done]|].
    destruct (port_after_emit_marked false (port_change_mask_all d2)
                (mark_params_changed (ov (wf p)))) as [Hf _].
    destruct (port_after_emit_marked false (port_change_mask_all d2) (ov (wf p)))
      as [_ Hpp].
    split; [exact Hpp|]. split; [by apply (Hacc _ _ Hpp)|].
    split; [done|]. split; [intros _; by rewrite Hf|].
    split; [apply Hemit; [lia|done]|]. rewrite Hf.
    split; [done|]. split; [done|]. split; [done|]. split; [congruence|done].
  - assert (Z.to_nat port_id <> 0%nat) as Hne' by lia.
    assert (ports d2 !! Z.to_nat port_id = Some (mark_params_changed (wf p))) as Hq.
    { unfold d2. cbn [ports set_ports].
      rewrite list_lookup_alter_eq, list_lookup_alter_ne by done.
      rewrite list_lookup_alter_eq, Hp. done. }
    assert (ports d2 !! 0%nat = Some (ov p0)) as Hq0.
    { unfold d2. cbn [ports set_ports].
      rewrite list_lookup_alter_ne by done.
      rewrite list_lookup_alter_eq, list_lookup_alter_ne by done.
      by rewrite Hp0. }
    eexists _, _, _. split; [reflexivity|]. split; [apply Hemit; [lia|done]|].
    destruct (port_after_emit_marked false (port_change_mask_all d2)
                (mark_params_changed (wf p))) as [Hf _].
    destruct (port_after_emit_marked false (port_change_mask_all d2) (wf p))
      as [_ Hpp].
    destruct (port_after_emit_marked false (port_change_mask_all d2) (ov p0))
      as [Hf0 _].
    split; [exact Hpp|]. split; [by apply (Hacc _ _ Hpp)|].
    split; [intros _; by rewrite Hf|]. split; [done|].
    split; [apply Hemit; [lia|exact Hq0]|]. rewrite Hf0.
    split; [done|]. split; [done|]. split; [done|]. split; [congruence|done].
Qed.

End Commit.

Lemma set_param_format_keeps_port_table_witness :
  (0 <= 0 < n_ports main_data)
  /\ ports main_data !! Z.to_nat 0 = Some main_port
  /\ exists d1 p1,
       @impl_port_set_param sample_platform main_data SPA_DIRECTION_OUTPUT 0
         SPA_PARAM_Format 0 (Some (pod_foreign 1)) = Returns 0 d1
       /\ ports d1 !! Z.to_nat 0 = Some p1
       /\ port_params p1 = port_params main_port
       /\ format p1 = audio_info_zero
       /\ port_change_mask_all d1 = 8589934597.
Proof.
  assert (0 <= 0 < n_ports main_data) as H1
    by (vm_compute; split; [discriminate|reflexivity]).
  assert (ports main_data !! Z.to_nat 0 = Some main_port) as H2 by reflexivity.
  split; [exact H1|]. split; [exact H2|].
  destruct (@set_param_format_keeps_port_table sample_platform main_data main_port
              SPA_DIRECTION_OUTPUT 0 0 (Some (pod_foreign 1)) H1 H2)
    as (d1 & p1 & q0 & E & Hp & Ht & _ & _ & Hf & _ & _ & _ & _ & Hm & _).
  exists d1, p1. split; [exact E|]. split; [exact Hp|].
  split; [rewrite Ht; reflexivity|].
  split; [rewrite (Hf eq_refl); vm_compute; reflexivity|].
  rewrite Hm. reflexivity.
Defined.

(** The commit of a format on port 0 of the state [main] builds, run to
    its end: the port's descriptors for [Format] and [Buffers] are as
    [main] set them (write-only and without flags) and its format is
    blank; the node's own [Format] descriptor, at index [PORT_Format]
    of [d->params], has become read-write, and the [Buffers]
    descriptor, stored one entry past the end of [d->params], is now
    the value of [port_change_mask_all]. *)
Lemma commit_format_on_main :
  exists d1 p1,
    @impl_port_set_param sample_platform main_data SPA_DIRECTION_OUTPUT 0
      SPA_PARAM_Format 0 (Some (pod_foreign 1)) = Returns 0 d1
    /\ ports d1 !! 0%nat = Some p1
    /\ port_params p1 !! PORT_Format
       = Some (SPA_PARAM_INFO SPA_PARAM_Format SPA_PARAM_INFO_WRITE)
    /\ port_params p1 !! PORT_Buffers = Some (SPA_PARAM_INFO SPA_PARAM_Buffers 0)
    /\ format p1 = audio_info_zero
    /\ params d1 !! NODE_Format
       = Some (SPA_PARAM_INFO SPA_PARAM_Format SPA_PARAM_INFO_READWRITE)
    /\ length (params d1) = 4%nat
    /\ port_change_mask_all main_data = 13
    /\ port_change_mask_all d1 = SPA_PARAM_Buffers + 2 ^ 32 * SPA_PARAM_INFO_READ.
Proof.
  do 2 eexists. split; [vm_compute; reflexivity|].
  split; [vm_compute; reflexivity|]. repeat split.
Qed.

(** ** Change masks and serial bits *)

Section ChangeMask.

Lemma emit_node_info_mask d full :
  ni_change_mask (info (emit_node_info d full))
  = if full then ni_change_mask (info d) else 0.
Proof. unfold emit_node_info. destruct full; simpl; repeat case_match; done. Qed.

Lemma emit_node_info_full_event d :
  change_mask_all d <> 0 ->
  exists t,
    hooks (emit_node_info d true)
    = hooks d ++ [node_info_event (set_ni_change_mask (change_mask_all d) (info d)) t].
Proof.
  intros Hne. apply Z.eqb_neq in Hne. unfold emit_node_info. simpl. rewrite Hne. simpl.
  case_match; eexists; reflexivity.
Qed.

Lemma omap_ext_in {A B} (f g : A -> option B) (l : list A) :
  (forall x, x ∈ l -> f x = g x) -> omap f l = omap g l.
Proof.
  induction l as [|x l IH]; intros Hfg; [done|].
  cbn [omap list_omap]. rewrite (Hfg x) by apply list_elem_of_here.
  rewrite IH; [done|]. intros y Hy. apply Hfg. by apply list_elem_of_further.
Qed.

Lemma emit_node_info_hooks d full :
  hooks (emit_node_info d full) = hooks d ++ node_notification full d.
Proof.
  unfold emit_node_info, node_notification.
  destruct d as [cma [mi mo m np] t pcma ps n hs].
  destruct full; simpl.
  - destruct (cma =? 0); simpl; [by rewrite app_nil_r|].
    by destruct (Z.land cma SPA_NODE_CHANGE_MASK_PARAMS =? 0).
  - destruct (m =? 0); simpl; [by rewrite app_nil_r|].
    by destruct (Z.land m SPA_NODE_CHANGE_MASK_PARAMS =? 0).
Qed.

Lemma emit_one_port_info_hooks full d n p :
  ports d !! n = Some p ->
  emit_one_port_info full d n
  = set_hooks
      (hooks d ++ option_list (port_notification full (port_change_mask_all d) n p))
      (set_ports (<[n := port_after_emit full (port_change_mask_all d) p]> (ports d)) d).
Proof.
  intros Hp. unfold emit_one_port_info, port_after_emit, port_notification.
  rewrite Hp. destruct p as [f [m fl np] t bs nb i ion ions e].
  destruct d as [cma inf t' pcma ps n' hs]. simpl in *.
  destruct full; simpl.
  - destruct (pcma =? 0); simpl; [by rewrite app_nil_r|].
    by destruct (Z.land pcma SPA_PORT_CHANGE_MASK_PARAMS =? 0).
  - destruct (m =? 0); simpl; [by rewrite app_nil_r|].
    by destruct (Z.land m SPA_PORT_CHANGE_MASK_PARAMS =? 0).
Qed.

Lemma emit_ports_loop_hooks full ns d :
  NoDup ns ->
  hooks (foldl (emit_one_port_info full) d ns)
  = hooks d
    ++ omap (fun n => ports d !! n ≫= port_notification full (port_change_mask_all d) n)
         ns.
Proof.
  revert d. induction ns as [|n ns IH]; intros d Hnd.
  { simpl. by rewrite app_nil_r. }
  apply NoDup_cons in Hnd as [Hn Hnd]. cbn [foldl omap list_omap].
  destruct (ports d !! n) as [p|] eqn:Hp; cbn [mbind option_bind].
  - rewrite (emit_one_port_info_hooks full d n p Hp), IH by done.
    cbn [hooks ports port_change_mask_all set_hooks set_ports].
    rewrite <- app_assoc. f_equal.
    rewrite (omap_ext_in
               (fun m => <[n := port_after_emit full (port_change_mask_all d) p]>
                           (ports d) !! m
                         ≫= port_notification full (port_change_mask_all d) m)
               (fun m => ports d !! m
                         ≫= port_notification full (port_change_mask_all d) m)).
    + by destruct (port_notification full (port_change_mask_all d) n p).
    + intros m Hm. rewrite list_lookup_insert_ne; [done|]. intros ->. done.
  - rewrite emit_one_port_info_none by done. by apply IH.
Qed.

(** C9, as the code has it.  A full emission puts the mask back to the
    value it had before the call, after having set it to the all-facets
    value for the notification; a non-full emission notifies with the
    mask as it is and leaves the mask cleared to zero.  This holds for
    the node mask and for the mask of every port the loop of
    [emit_port_info] visits.  The listeners are called once for the
    node and once for each port, in index order, with the mask the
    emission uses, and not at all where that mask is zero. *)
Theorem emit_mask_after (d : data) (n : nat) (p : port) :
  (n < Z.to_nat (n_ports d))%nat ->
  ports d !! n = Some p ->
  ni_change_mask (info (emit_node_info d true)) = ni_change_mask (info d)
  /\ ni_change_mask (info (emit_node_info d false)) = 0
  /\ (exists p', ports (emit_port_info d true) !! n = Some p'
                 /\ pti_change_mask (port_info p') = pti_change_mask (port_info p))
  /\ (exists p', ports (emit_port_info d false) !! n = Some p'
                 /\ pti_change_mask (port_info p') = 0)
  /\ (forall full,
        hooks (emit_node_info d full) = hooks d ++ node_notification full d)
  /\ (forall full,
        hooks (emit_port_info d full)
        = hooks d
          ++ omap (fun m =>
                     ports d !! m
                     ≫= port_notification full (port_change_mask_all d) m)
               (seq 0 (Z.to_nat (n_ports d))))
  /\ (forall full e,
        port_notification full (port_change_mask_all d) n p = Some e ->
        e ∈ hooks (emit_port_info d full)).
Proof.
  intros Hn Hp. rewrite !emit_node_info_mask.
  split; [done|]. split; [done|].
  split; [|split; [|split; [|split]]].
  - eexists. split; [by apply emit_port_info_lookup|done].
  - eexists. split; [by apply emit_port_info_lookup|done].
  - intros full. apply emit_node_info_hooks.
  - intros full. apply emit_ports_loop_hooks, NoDup_seq.
  - intros full e He. unfold emit_port_info.
    rewrite emit_ports_loop_hooks by apply NoDup_seq.
    apply elem_of_app. right. apply list_elem_of_omap. exists n. split.
    + apply elem_of_seq. lia.
    + by rewrite Hp.
Qed.







End ChangeMask.



Lemma emit_mask_after_witness :
  ni_change_mask (info (emit_node_info main_data true))
  = ni_change_mask (info main_data)
  /\ ni_change_mask (info (emit_node_info main_data false)) = 0
  /\ (exists p', ports (emit_port_info main_data true) !! 0%nat = Some p'
                 /\ pti_change_mask (port_info p')
                    = pti_change_mask (port_info main_port))
  /\ (exists p', ports (emit_port_info main_data false) !! 0%nat = Some p'
                 /\ pti_change_mask (port_info p') = 0)
  /\ hooks (emit_node_info main_data false)
     = [node_info_event (info main_data) (params main_data)]
  /\ length (hooks (emit_port_info main_data false)) = 16%nat
  /\ port_info_event SPA_DIRECTION_OUTPUT 0 (port_info main_port)
       (port_params main_port)
     ∈ hooks (emit_port_info main_data false).
Proof.
  assert (0 < Z.to_nat (n_ports main_data))%nat as Hn by (vm_compute; lia).
  assert (ports main_data !! 0%nat = Some main_port) as Hp by reflexivity.
  destruct (emit_mask_after main_data 0 main_port Hn Hp)
    as (H1 & H2 & H3 & H4 & H5 & H6 & H7).
  split; [exact H1|]. split; [exact H2|]. split; [exact H3|]. split; [exact H4|].
  split; [rewrite (H5 false); vm_compute; reflexivity|].
  split; [rewrite (H6 false); vm_compute; reflexivity|].
  apply (H7 false). vm_compute. reflexivity.
Defined.

(** C9 as the spec words it fails: in the state [main] builds the node
    mask holds all three facets; after a non-full emission it is zero,
    not what it was. *)
Lemma emit_mask_after_counterexample :
  ni_change_mask (info main_data) = 7
  /\ ni_change_mask (info (emit_node_info main_data false)) = 0
  /\ ni_change_mask (info (emit_node_info main_data false))
     <> ni_change_mask (info main_data).
Proof. split; [reflexivity|]. split; [reflexivity|]. vm_compute. discriminate. Qed.

(** ** The process callback *)

Section Process.

Implicit Types (p : port) (d : data).

Lemma unlinked_fields p p' :
  unlinked p' = unlinked p ->
  io p' = io p /\ n_buffers p' = n_buffers p /\ format p' = format p
  /\ port_params p' = port_params p /\ port_info p' = port_info p
  /\ io_notify p' = io_notify p
  /\ length (buffers p') = length (buffers p)
  /\ (forall i, buffer_bound p i -> buffer_bound p' i).
Proof.
  intros U.
  pose proof (f_equal io U) as H1. pose proof (f_equal n_buffers U) as H2.
  pose proof (f_equal format U) as H3. pose proof (f_equal port_params U) as H4.
  pose proof (f_equal port_info U) as H5. pose proof (f_equal io_notify U) as H6.
  pose proof (f_equal buffers U) as H7. simpl in *.
  repeat (split; [done|]). split.
  - apply (f_equal length) in H7. by rewrite !length_fmap in H7.
  - intros i (b & sb & Hb & Hid & Hsb).
    pose proof (f_equal (fun l => l !! i) H7) as Hi. simpl in Hi.
    rewrite !list_lookup_fmap, Hb in Hi.
    destruct (buffers p' !! i) as [b'|] eqn:Hb'; simplify_eq/=.
    exists b', sb. destruct b, b'. simplify_eq/=. done.
Qed.

(** One turn of the loop on a port whose mailbox holds no buffer of the
    pool and whose free list is [x :: l]: the head is unlinked, linked
    back at the tail, and the call ends with [SPA_STATUS_OK]. *)
Lemma process_port_rotates p m x l :
  io p = Some m -> n_buffers p <= io_buffer_id m ->
  is_free_list p (x :: l) -> buffer_bound p x ->
  exists p', process_port p = Some (Stop SPA_STATUS_OK p')
    /\ is_free_list p' (l ++ [x]) /\ unlinked p' = unlinked p.
Proof.
  intros Hio Hid Hfl Hb. unfold process_port. rewrite Hio. simpl.
  destruct (Z.ltb_spec (io_buffer_id m) (n_buffers p)) as [?|_]; [lia|]. simpl.
  rewrite (free_list_is_empty p (x :: l)) by done. simpl.
  assert (next (empty p) = BufferLink x) as ->.
  { destruct Hfl as [_ [[Hn _] _]]. unfold nx in Hn. simpl in Hn. by injection Hn. }
  destruct (remove_first_spec p x l Hfl) as (p2 & -> & Hfl2 & U2). simpl.
  destruct (unlinked_fields _ _ U2) as (_ & _ & _ & _ & _ & _ & _ & Hbb).
  destruct (Hbb x Hb) as (b & sb & -> & Hbid & Hsb). simpl. rewrite Hsb. simpl.
  unfold port_reuse_buffer. rewrite Hbid, Nat2Z.id.
  destruct (append_spec p2 l x Hfl2) as (p3 & -> & Hfl3 & U3).
  - destruct Hfl as [Hnd _]. by apply NoDup_cons in Hnd as [? _].
  - destruct (Hbb x Hb) as (b' & _ & -> & _). by eexists.
  - exists p3. split; [done|]. split; [done|]. congruence.
Qed.

(** One turn on a port with a bound mailbox, nothing to recycle and an
    empty free list: [-EPIPE], the port untouched. *)
Lemma process_port_starved p m :
  io p = Some m -> n_buffers p <= io_buffer_id m ->
  spa_list_is_empty p = true ->
  process_port p = Some (Stop (- EPIPE) p).
Proof.
  intros Hio Hid He. unfold process_port. rewrite Hio. simpl.
  destruct (Z.ltb_spec (io_buffer_id m) (n_buffers p)) as [?|_]; [lia|]. simpl.
  by rewrite He.
Qed.

(** The loop of [impl_node_process] when the turn of port 0 ends the
    call. *)
Lemma process_first_port d p res p' :
  0 < n_ports d -> ports d !! 0%nat = Some p ->
  process_port p = Some (Stop res p') ->
  impl_node_process d = Returns res (set_ports (<[0%nat := p']> (ports d)) d).
Proof.
  intros Hn Hp Ht. unfold impl_node_process.
  destruct (Z.to_nat (n_ports d)) as [|k] eqn:Hk; [lia|].
  simpl. by rewrite Hp, Ht.
Qed.


Lemma set_ports_same d p :
  ports d !! 0%nat = Some p -> set_ports (<[0%nat := p]> (ports d)) d = d.
Proof. intros Hp. rewrite list_insert_id by done. by destruct d. Qed.



End Process.

(** Before the host binds a data mailbox to the first port, [process]
    reads [io->buffer_id] through the NULL [p->io]. *)
Lemma process_unbound_mailbox :
  io (first_port main_data) = None /\ impl_node_process main_data = Undefined.
Proof. split; vm_compute; reflexivity. Qed.

Lemma sample_sessions_return :
  sample_session [host_buffer 8192; host_buffer 12288] = Returns 0 sample_pool2
  /\ sample_session [host_buffer 8192] = Returns 0 sample_pool1
  /\ sample_session [] = Returns 0 sample_pool0.
Proof. split; [|split]; vm_compute; reflexivity. Qed.





(** ** Recycling and replacing buffers *)

Section Pool.

Context `{Platform}.

Implicit Types (p : port) (d : data).

(** A link that is its own successor is never left by a walk. *)
Lemma walk_self_loop p i fuel :
  nx p (BufferLink i) = Some (BufferLink i) ->
  walk fuel p (BufferLink i) = None.
Proof.
  intros Hn. destruct (nx_Some_load _ _ _ Hn) as (li & Hli & Hnext).
  induction fuel as [|fuel IH]; simpl; [done|].
  simpl in Hli. rewrite Hli. simpl. rewrite Hnext, IH. done.
Qed.

(** C3, as the code has it.  [port_reuse_buffer] links the buffer at the
    tail of the free list without looking whether it is already there.
    For a buffer of the array that is not in a proper free list, the
    call returns 0, the free list is the old one followed by that
    buffer, no buffer occurs twice in it, and nothing but links
    changes. *)
Theorem reuse_buffer_appends (d : data) (p : port) (port_id buffer_id : Z)
    (l : list nat) :
  0 <= port_id < n_ports d ->
  ports d !! Z.to_nat port_id = Some p ->
  is_free_list p l ->
  Z.to_nat buffer_id ∉ l ->
  (Z.to_nat buffer_id < length (buffers p))%nat ->
  exists p',
    impl_port_reuse_buffer d port_id buffer_id
    = Returns 0 (set_ports (<[Z.to_nat port_id := p']> (ports d)) d)
    /\ is_free_list p' (l ++ [Z.to_nat buffer_id])
    /\ free_list p' = Some (l ++ [Z.to_nat buffer_id])
    /\ NoDup (l ++ [Z.to_nat buffer_id])
    /\ unlinked p' = unlinked p.
Proof.
  intros [H0 Hlt] Hp Hfl Hnotin Hlen. unfold impl_port_reuse_buffer.
  apply Z.leb_gt in Hlt. rewrite Hlt, Hp. unfold port_reuse_buffer.
  destruct (append_spec p l (Z.to_nat buffer_id) Hfl Hnotin) as (p' & -> & Hfl' & U).
  { by apply lookup_lt_is_Some_2. }
  exists p'. split; [done|]. split; [done|].
  split; [by apply free_list_walk|]. split; [apply Hfl'|done].
Qed.

End Pool.

Lemma reuse_buffer_appends_witness :
  exists p',
    impl_port_reuse_buffer sample_pool1 0 1
    = Returns 0 (set_ports (<[Z.to_nat 0 := p']> (ports sample_pool1)) sample_pool1)
    /\ is_free_list p' ([0%nat] ++ [Z.to_nat 1])
    /\ free_list p' = Some ([0%nat] ++ [Z.to_nat 1])
    /\ NoDup ([0%nat] ++ [Z.to_nat 1])
    /\ unlinked p' = unlinked (first_port sample_pool1).
Proof.
  apply (reuse_buffer_appends sample_pool1 (first_port sample_pool1) 0 1 [0%nat]).
  - vm_compute. split; [discriminate|reflexivity].
  - vm_compute. reflexivity.
  - apply (bool_decide_unpack _). vm_compute. exact I.
  - apply (bool_decide_unpack _). vm_compute. exact I.
  - vm_compute. lia.
Defined.

(** C3 as the spec words it fails.  Port 0 holds buffer 0 free, in a
    proper list.  Recycling buffer 0 again returns 0 and leaves the
    link of buffer 0 as its own successor: the list read from the head
    meets buffer 0 again and again and never comes back to the head,
    so the port no longer has a free list at all.  With the buffers 0
    and 1 free, recycling buffer 0 again leaves a list that reads [0]
    from the head: buffer 1 has dropped out of it, and the back links
    no longer mirror the forward ones.  Recycling a buffer that is
    already free is therefore not a no-op. *)
Lemma reuse_buffer_appends_counterexample :
  (is_free_list (first_port sample_pool1) [0%nat]
   /\ exists d',
        impl_port_reuse_buffer sample_pool1 0 0 = Returns 0 d'
        /\ nx (first_port d') EmptyHead = Some (BufferLink 0)
        /\ nx (first_port d') (BufferLink 0) = Some (BufferLink 0)
        /\ (forall fuel, walk fuel (first_port d') (BufferLink 0) = None)
        /\ free_list (first_port d') = None
        /\ ~ (exists l, is_free_list (first_port d') l))
  /\ (is_free_list (first_port sample_pool2) [0; 1]%nat
      /\ exists d',
           impl_port_reuse_buffer sample_pool2 0 0 = Returns 0 d'
           /\ free_list (first_port d') = Some [0%nat]
           /\ ~ (exists l, is_free_list (first_port d') l)).
Proof.
  split.
  - split; [apply (bool_decide_unpack _); vm_compute; exact I|].
    eexists. split; [vm_compute; reflexivity|].
    split; [vm_compute; reflexivity|]. split; [vm_compute; reflexivity|].
    split; [|split; [vm_compute; reflexivity|]].
    + intros fuel. apply walk_self_loop. vm_compute. reflexivity.
    + intros [l Hl]. apply free_list_walk in Hl.
      vm_compute in Hl. discriminate.
  - split; [apply (bool_decide_unpack _); vm_compute; exact I|].
    eexists. split; [vm_compute; reflexivity|].
    split; [vm_compute; reflexivity|].
    intros [l Hl]. pose proof (free_list_walk _ _ Hl) as Hw.
    vm_compute in Hw. injection Hw as <-.
    apply (bool_decide_pack _) in Hl. vm_compute in Hl. exact Hl.
Qed.

Section UseBuffers.

Context `{Platform}.

Implicit Types (p : port) (d : data).

(** Rewriting the members of a buffer other than its link leaves every
    link, hence the free list, as it is. *)
Lemma set_buffer_keeps_links p i b b' :
  buffers p !! i = Some b -> b_link b' = b_link b ->
  forall r, load_link (set_buffers (<[i := b']> (buffers p)) p) r = load_link p r.
Proof.
  intros Hb Hl [| |j]; simpl; [done..|].
  destruct (decide (i = j)) as [->|Hne].
  - rewrite list_lookup_insert_eq by (by eapply lookup_lt_Some).
    rewrite Hb. simpl. by rewrite Hl.
  - by rewrite list_lookup_insert_ne.
Qed.

Lemma same_links_free_list p p' l :
  (forall r, load_link p' r = load_link p r) ->
  is_free_list p l -> is_free_list p' l.
Proof.
  intros Hl [Hnd Hc]. split; [done|].
  apply (chain_frame p); [| |done]; intros r _; unfold nx, pv; by rewrite Hl.
Qed.

(** The loop of [impl_port_use_buffers] started on a free list that
    holds the buffers below [i] in order, when the memory of every
    descriptor can be bound: it runs to its end and the free list holds
    the buffers below [i + length bufs] in order. *)
Lemma use_buffers_loop_fresh bufs p i :
  is_free_list p (seq 0 i) ->
  (forall j, (j < i)%nat -> buffer_bound p j) ->
  (i + length bufs <= length (buffers p))%nat ->
  Forall (fun sb => exists ptr mapped,
            bind_buffer_mem (sb_datas0 sb) = mem_bound ptr mapped) bufs ->
  exists p',
    use_buffers_loop p i bufs = Some (p', None)
    /\ is_free_list p' (seq 0 (i + length bufs))
    /\ (forall j, (j < i + length bufs)%nat -> buffer_bound p' j)
    /\ io p' = io p /\ format p' = format p /\ port_params p' = port_params p
    /\ port_info p' = port_info p /\ n_buffers p' = n_buffers p.
Proof.
  revert p i. induction bufs as [|sb bufs IH]; intros p i Hfl Hprev Hlen Hall.
  - exists p. simpl. rewrite Nat.add_0_r. done.
  - apply Forall_cons in Hall as [(ptr & mapped & Hbind) Hall].
    simpl in Hlen. simpl.
    destruct (lookup_lt_is_Some_2 (buffers p) i) as [b Hb]; [lia|].
    rewrite Hb. simpl. rewrite Hbind.
    set (b' := mk_buffer (Z.of_nat i) (Some sb) (b_link b) (Some ptr) mapped).
    set (pm := set_buffers (<[i := b']> (buffers p)) p).
    assert (is_free_list pm (seq 0 i)) as Hflm.
    { apply (same_links_free_list p); [|done].
      by apply set_buffer_keeps_links with (b := b). }
    assert (buffers pm !! i = Some b') as Hbm.
    { apply list_lookup_insert_eq. by eapply lookup_lt_Some. }
    assert (forall j, (j < S i)%nat -> buffer_bound pm j) as Hprevm.
    { intros j Hj. destruct (decide (j = i)) as [->|Hne].
      - by exists b', sb.
      - destruct (Hprev j) as (bj & sbj & Hbj & ?); [lia|]. exists bj, sbj.
        split; [|done]. unfold pm. simpl. by rewrite list_lookup_insert_ne. }
    destruct (append_spec pm (seq 0 i) i Hflm) as (p1 & -> & Hfl1 & U1).
    { rewrite elem_of_seq. lia. } { by eexists. }
    simpl. rewrite <- seq_S in Hfl1.
    destruct (unlinked_fields _ _ U1) as (Hio & Hnb & Hf & Hpp & Hpi & _ & Hl1 & Hbb).
    destruct (IH p1 (S i) Hfl1)
      as (p' & -> & Hfl' & Hb' & Hio' & Hf' & Hpp' & Hpi' & Hnb'); [auto| |done|].
    { rewrite Hl1. unfold pm. simpl. rewrite length_insert. lia. }
    exists p'. split; [done|].
    replace (i + S (length bufs))%nat with (S i + length bufs)%nat by lia.
    split; [done|]. split; [done|].
    rewrite Hio', Hf', Hpp', Hpi', Hnb', Hio, Hnb, Hf, Hpp, Hpi. done.
Qed.

(** The first hand-over of buffers to a port: on a port whose free list
    is empty, a call whose descriptors can all be bound returns 0 and
    leaves [n_buffers] at the descriptor count and the free list at the
    buffers [0 .. n_buffers - 1], in order, each bound to its
    descriptor. *)
Lemma use_buffers_fresh d p direction port_id flags bufs :
  0 <= port_id < n_ports d ->
  ports d !! Z.to_nat port_id = Some p ->
  is_free_list p [] ->
  length (buffers p) = Z.to_nat MAX_BUFFERS ->
  Forall (fun sb => exists ptr mapped,
            bind_buffer_mem (sb_datas0 sb) = mem_bound ptr mapped) bufs ->
  (length bufs <= Z.to_nat MAX_BUFFERS)%nat ->
  exists p',
    impl_port_use_buffers d direction port_id flags bufs
    = Returns 0 (set_ports (<[Z.to_nat port_id := p']> (ports d)) d)
    /\ n_buffers p' = Z.of_nat (length bufs)
    /\ free_list p' = Some (seq 0 (length bufs))
    /\ (forall j, (j < length bufs)%nat -> buffer_bound p' j).
Proof.
  intros [H0 Hlt] Hp Hfl Hlen Hall Hn. unfold impl_port_use_buffers.
  apply Z.leb_gt in Hlt. rewrite Hlt, Hp.
  destruct (Z.ltb_spec MAX_BUFFERS (Z.of_nat (length bufs))) as [?|_];
    [unfold MAX_BUFFERS in *; lia|].
  destruct (use_buffers_loop_fresh bufs p 0 Hfl) as (p' & -> & Hfl' & Hb' & _);
    [intros; lia|lia|done|].
  eexists. split; [reflexivity|]. split; [done|]. split.
  - apply free_list_walk.
    apply (same_links_free_list p'); [by intros [| |?]|done].
  - intros j Hj. destruct (Hb' j Hj) as (b & sb & ?). by exists b, sb.
Qed.

End UseBuffers.

(** C4, at two failing inputs.  After a first hand-over the free list
    of port 0 holds the new buffers in order.  A second successful call
    does not clear it: with no descriptor, [n_buffers] becomes 0 while
    the free list still holds the two buffers of the old set; with one
    descriptor on a pool of one, the link of buffer 0 is appended while
    it is already linked and becomes its own successor, so the list
    read from the head never ends and the port is left without a free
    list. *)
Theorem use_buffers_keeps_old_links :
  free_list (first_port sample_pool2) = Some [0; 1]%nat
  /\ free_list (first_port sample_pool1) = Some [0%nat]
  /\ (exists d',
        @impl_port_use_buffers sample_platform sample_pool2
          SPA_DIRECTION_OUTPUT 0 0 [] = Returns 0 d'
        /\ n_buffers (first_port d') = 0
        /\ free_list (first_port d') = Some [0; 1]%nat)
  /\ (exists d',
        @impl_port_use_buffers sample_platform sample_pool1
          SPA_DIRECTION_OUTPUT 0 0 [host_buffer 16384] = Returns 0 d'
        /\ n_buffers (first_port d') = 1
        /\ next (empty (first_port d')) = BufferLink 0
        /\ nx (first_port d') (BufferLink 0) = Some (BufferLink 0)
        /\ (forall fuel, walk fuel (first_port d') (BufferLink 0) = None)
        /\ free_list (first_port d') = None).
Proof.
  split; [vm_compute; reflexivity|]. split; [vm_compute; reflexivity|]. split.
  - eexists. split; [vm_compute; reflexivity|].
    split; vm_compute; reflexivity.
  - eexists. split; [vm_compute; reflexivity|].
    split; [vm_compute; reflexivity|]. split; [vm_compute; reflexivity|].
    split; [vm_compute; reflexivity|]. split; [|vm_compute; reflexivity].
    intros fuel. apply walk_self_loop. vm_compute. reflexivity.
Qed.

(** * Further properties of the node *)

(** ** The outcome of [process] *)

Section ProcessOutcome.

Implicit Types (p : port) (d : data).

Lemma set_next_unlinked p r v p' :
  set_next p r v = Some p' -> unlinked p' = unlinked p.
Proof.
  unfold set_next. destruct (load_link p r); simpl; [|done].
  apply store_unlinked.
Qed.

Lemma set_prev_unlinked p r v p' :
  set_prev p r v = Some p' -> unlinked p' = unlinked p.
Proof.
  unfold set_prev. destruct (load_link p r); simpl; [|done].
  apply store_unlinked.
Qed.

Lemma insert_unlinked p list elem p' :
  spa_list_insert p list elem = Some p' -> unlinked p' = unlinked p.
Proof.
  unfold spa_list_insert. intros Hi.
  destruct (set_prev p elem list) as [p1|] eqn:E1; simpl in Hi; [|done].
  destruct (load_link p1 list) as [l|]; simpl in Hi; [|done].
  destruct (set_next p1 elem (next l)) as [p2|] eqn:E2; simpl in Hi; [|done].
  destruct (set_next p2 list elem) as [p3|] eqn:E3; simpl in Hi; [|done].
  destruct (load_link p3 elem) as [e|]; simpl in Hi; [|done].
  apply set_prev_unlinked in E1, Hi. apply set_next_unlinked in E2, E3.
  congruence.
Qed.

Lemma append_unlinked p list item p' :
  spa_list_append p list item = Some p' -> unlinked p' = unlinked p.
Proof.
  unfold spa_list_append. destruct (load_link p list); simpl; [|done].
  apply insert_unlinked.
Qed.

Lemma remove_unlinked p elem p' :
  spa_list_remove p elem = Some p' -> unlinked p' = unlinked p.
Proof.
  unfold spa_list_remove. intros Hr.
  destruct (load_link p elem) as [e|]; simpl in Hr; [|done].
  destruct (set_next p (prev e) (next e)) as [p1|] eqn:E1; simpl in Hr; [|done].
  destruct (load_link p1 elem) as [e'|]; simpl in Hr; [|done].
  apply set_next_unlinked in E1. apply set_prev_unlinked in Hr. congruence.
Qed.

Lemma unlinked_set_io p p' m :
  unlinked p' = unlinked p -> unlinked (set_io (io p) (set_io m p')) = unlinked p.
Proof.
  intros U. unfold unlinked, set_io, set_empty, set_buffers in *. simpl in *.
  injection U as -> -> -> E -> _ -> ->. by rewrite E.
Qed.

(** Whatever the port, a turn of the loop that is defined ends the call
    with [-EPIPE] or [SPA_STATUS_OK], and differs from the port it
    started on by links and by the mailbox only. *)
Lemma process_port_cases p t :
  process_port p = Some t ->
  exists res p',
    t = Stop res p' /\ (res = - EPIPE \/ res = SPA_STATUS_OK)
    /\ unlinked (set_io (io p) p') = unlinked p.
Proof.
  unfold process_port. intros Ht.
  destruct (io p) as [m|] eqn:Hio; simpl in Ht; [|done].
  assert (exists p1,
    (if io_buffer_id m <? n_buffers p
     then p' ← port_reuse_buffer p (io_buffer_id m);
          Some (set_io (Some (mk_io_buffers (io_status m) SPA_ID_INVALID)) p')
     else Some p) = Some p1
    /\ unlinked (set_io (Some m) p1) = unlinked p) as (p1 & E1 & U1).
  { destruct (io_buffer_id m <? n_buffers p).
    - destruct (port_reuse_buffer p (io_buffer_id m)) as [pa|] eqn:Ea;
        simpl in Ht; [|done].
      eexists. split; [reflexivity|]. apply append_unlinked in Ea.
      rewrite <- Hio. by apply unlinked_set_io.
    - exists p. split; [done|]. rewrite <- Hio. by destruct p. }
  rewrite E1 in Ht. simpl in Ht.
  destruct (spa_list_is_empty p1).
  { injection Ht as <-. exists (- EPIPE), p1. auto. }
  destruct (next (empty p1)) as [| |i]; [done..|].
  destruct (spa_list_remove p1 (BufferLink i)) as [p2|] eqn:E2; simpl in Ht; [|done].
  destruct (buffers p2 !! i) as [b|]; simpl in Ht; [|done].
  destruct (b_buffer b) as [sb|]; simpl in Ht; [|done].
  unfold process_gate in Ht.
  destruct (port_reuse_buffer p2 (b_id b)) as [p3|] eqn:E3; simpl in Ht; [|done].
  injection Ht as <-. exists SPA_STATUS_OK, p3. split; [done|]. split; [by right|].
  apply remove_unlinked in E2. apply append_unlinked in E3.
  rewrite <- U1. unfold unlinked, set_io, set_empty, set_buffers in *. simpl in *.
  injection E2 as E2a E2b E2c E2d E2e E2f E2g E2h.
  injection E3 as E3a E3b E3c E3d E3e E3f E3g E3h.
  congruence.
Qed.

End ProcessOutcome.

Section ProcessCycles.

Implicit Types (p : port) (d : data).

Lemma unlinked_members p p' :
  unlinked p' = unlinked p ->
  format p' = format p /\ port_info p' = port_info p
  /\ port_params p' = port_params p /\ n_buffers p' = n_buffers p
  /\ io p' = io p /\ io_notify p' = io_notify p
  /\ io_notify_size p' = io_notify_size p
  /\ set_b_link null_list <$> buffers p' = set_b_link null_list <$> buffers p.
Proof.
  intros U. unfold unlinked, set_empty, set_buffers in U. simpl in U.
  injection U as -> -> -> E -> -> -> ->. done.
Qed.

(** X1.  With no port [process] returns [SPA_STATUS_HAVE_DATA] and
    changes nothing.  With at least one port it looks at the first port
    only: it is undefined when that port has no data mailbox; when it
    returns, the value is [-EPIPE] or [SPA_STATUS_OK], never
    [SPA_STATUS_HAVE_DATA], the listeners are not called, the node
    tables and all other ports are as before, and in the first port
    only the links of the free list and the mailbox may differ: format,
    descriptors, buffer count and what the buffers point to are kept. *)
Theorem process_outcome (d : data) :
  (n_ports d <= 0 -> impl_node_process d = Returns SPA_STATUS_HAVE_DATA d)
  /\ (0 < n_ports d ->
      forall p, ports d !! 0%nat = Some p ->
        (io p = None -> impl_node_process d = Undefined)
        /\ forall res d',
             impl_node_process d = Returns res d' ->
             (res = - EPIPE \/ res = SPA_STATUS_OK)
             /\ res <> SPA_STATUS_HAVE_DATA
             /\ hooks d' = hooks d /\ params d' = params d /\ info d' = info d
             /\ n_ports d' = n_ports d
             /\ (forall j, j <> 0%nat -> ports d' !! j = ports d !! j)
             /\ exists p',
                  ports d' !! 0%nat = Some p'
                  /\ format p' = format p /\ port_info p' = port_info p
                  /\ port_params p' = port_params p
                  /\ n_buffers p' = n_buffers p
                  /\ io_notify p' = io_notify p
                  /\ set_b_link null_list <$> buffers p'
                     = set_b_link null_list <$> buffers p).
Proof.
  split.
  - intros Hn. unfold impl_node_process.
    replace (Z.to_nat (n_ports d)) with 0%nat by lia. done.
  - intros Hn p Hp. unfold impl_node_process.
    destruct (Z.to_nat (n_ports d)) as [|k] eqn:Hk; [lia|].
    simpl. rewrite Hp. split.
    + intros Hio. unfold process_port. by rewrite Hio.
    + intros res d' Hr.
      destruct (process_port p) as [t|] eqn:Ht; [|done].
      destruct (process_port_cases p t Ht) as (res' & p' & -> & Hres & U).
      injection Hr as <- <-. split; [done|]. split.
      { destruct Hres as [-> | ->]; discriminate. }
      simpl. repeat (split; [done|]). split.
      { intros j Hj. by rewrite list_lookup_insert_ne. }
      exists p'. split.
      { apply list_lookup_insert_eq. by eapply lookup_lt_Some. }
      destruct (unlinked_members _ _ U) as (? & ? & ? & ? & _ & ? & _ & ?).
      done.
Qed.

Lemma process_outcome_witness :
  0 < n_ports sample_pool2
  /\ ports sample_pool2 !! 0%nat = Some (first_port sample_pool2)
  /\ exists d',
       impl_node_process sample_pool2 = Returns SPA_STATUS_OK d'
       /\ hooks d' = hooks sample_pool2
       /\ (forall j, j <> 0%nat -> ports d' !! j = ports sample_pool2 !! j).
Proof.
  assert (0 < n_ports sample_pool2) as Hn by (vm_compute; reflexivity).
  assert (ports sample_pool2 !! 0%nat = Some (first_port sample_pool2)) as Hp
    by (vm_compute; reflexivity).
  split; [exact Hn|]. split; [exact Hp|].
  eexists. split; [vm_compute; reflexivity|].
  match goal with
  | |- hooks ?x = _ /\ _ =>
      assert (impl_node_process sample_pool2 = Returns SPA_STATUS_OK x) as Hr
        by (vm_compute; reflexivity)
  end.
  destruct (proj2 (proj2 (process_outcome sample_pool2) Hn _ Hp) _ _ Hr)
    as (_ & _ & Hh & _ & _ & _ & Hj & _).
  split; [exact Hh | exact Hj].
Defined.

(** X2.  On a first port with a bound mailbox that holds no buffer of
    the pool and a proper free list [l] of bound buffers, [k] calls of
    [process] in a row, [k] up to the length of [l], all return
    [SPA_STATUS_OK] and leave the free list rotated by [k]; after as
    many calls as there are free buffers the list is back in its
    original order.  Nothing else in the node changes. *)
Theorem process_cycles_rotate (k : nat) (d : data) (p : port)
    (m : spa_io_buffers) (l : list nat) :
  0 < n_ports d ->
  ports d !! 0%nat = Some p ->
  io p = Some m ->
  n_buffers p <= io_buffer_id m ->
  is_free_list p l ->
  (forall i, i ∈ l -> buffer_bound p i) ->
  (k <= length l)%nat ->
  exists p',
    process_cycles k d
    = Some (replicate k SPA_STATUS_OK, set_ports (<[0%nat := p']> (ports d)) d)
    /\ free_list p' = Some (drop k l ++ take k l)
    /\ (k = length l -> free_list p' = Some l)
    /\ io p' = Some m
    /\ unlinked p' = unlinked p.
Proof.
  intros Hn Hp Hio Hid Hfl Hb Hk.
  assert (exists p',
    process_cycles k d
    = Some (replicate k SPA_STATUS_OK, set_ports (<[0%nat := p']> (ports d)) d)
    /\ is_free_list p' (drop k l ++ take k l)
    /\ io p' = Some m /\ unlinked p' = unlinked p) as (p' & Hc & Hfl' & Hio' & U).
  { revert d p l Hn Hp Hio Hid Hfl Hb Hk.
    induction k as [|k IH]; intros d p l Hn Hp Hio Hid Hfl Hb Hk.
    - exists p. simpl. rewrite set_ports_same by done.
      rewrite app_nil_r. done.
    - destruct l as [|x l]; [simpl in Hk; lia|]. simpl in Hk.
      destruct (process_port_rotates p m x l Hio Hid Hfl) as (p1 & Ht & Hfl1 & U1).
      { apply Hb. left. }
      destruct (unlinked_fields _ _ U1) as (Hio1 & Hnb1 & _ & _ & _ & _ & _ & Hbb).
      cbn [process_cycles].
      rewrite (process_first_port d p SPA_STATUS_OK p1 Hn Hp Ht).
      destruct (IH (set_ports (<[0%nat := p1]> (ports d)) d) p1 (l ++ [x]))
        as (p' & -> & Hfl' & Hio' & U'); try done.
      + simpl. apply list_lookup_insert_eq. by eapply lookup_lt_Some.
      + by rewrite Hio1.
      + by rewrite Hnb1.
      + intros i Hi. apply Hbb, Hb. apply elem_of_app in Hi as [Hi|Hi].
        * by right.
        * apply list_elem_of_singleton in Hi as ->. left.
      + rewrite length_app. simpl. lia.
      + exists p'. simpl. rewrite list_insert_insert_eq. split; [done|].
        split; [|split; [done|congruence]].
        rewrite drop_app_le, take_app_le in Hfl' by lia.
        by rewrite <- app_assoc in Hfl'. }
  exists p'. split; [done|]. split; [by apply free_list_walk|].
  split; [|done].
  intros ->. apply free_list_walk.
  by rewrite drop_all, firstn_all in Hfl'.
Qed.

End ProcessCycles.

Lemma process_cycles_rotate_witness :
  exists p',
    process_cycles 2 sample_pool2
    = Some (replicate 2 SPA_STATUS_OK,
            set_ports (<[0%nat := p']> (ports sample_pool2)) sample_pool2)
    /\ free_list p' = Some (drop 2 [0; 1]%nat ++ take 2 [0; 1]%nat)
    /\ (2%nat = length [0; 1]%nat -> free_list p' = Some [0; 1]%nat)
    /\ io p' = Some (mk_io_buffers 0 SPA_ID_INVALID)
    /\ unlinked p' = unlinked (first_port sample_pool2).
Proof.
  apply (process_cycles_rotate 2 sample_pool2 (first_port sample_pool2)
           (mk_io_buffers 0 SPA_ID_INVALID) [0; 1]%nat).
  - vm_compute. reflexivity.
  - vm_compute. reflexivity.
  - vm_compute. reflexivity.
  - vm_compute. discriminate.
  - apply (bool_decide_unpack _). vm_compute. exact I.
  - intros i Hi. apply elem_of_cons in Hi as [-> | Hi].
    + eexists _, _. split; [vm_compute; reflexivity|].
      split; vm_compute; reflexivity.
    + apply list_elem_of_singleton in Hi as ->.
      eexists _, _. split; [vm_compute; reflexivity|].
      split; vm_compute; reflexivity.
  - simpl. lia.
Defined.

(** ** More on [impl_port_enum_params] *)

Section EnumOutcome.

Context `{Platform}.

Implicit Types (p : port) (d : data).

Lemma set_hooks_nil d : set_hooks (hooks d ++ []) d = d.
Proof. destruct d. unfold set_hooks. simpl. by rewrite app_nil_r. Qed.

Lemma set_hooks_emit e evs d :
  set_hooks (hooks (emit e d) ++ evs) (emit e d) = set_hooks (hooks d ++ e :: evs) d.
Proof. destruct d. unfold emit, set_hooks. simpl. by rewrite <- app_assoc. Qed.

Lemma enum_switch_supported p id index :
  enum_switch p id index = Unsupported <-> supported_param id = false.
Proof.
  unfold enum_switch, supported_param.
  destruct (id =? SPA_PARAM_EnumFormat); simpl.
  { split; [|done]. by destruct (index =? 0). }
  destruct (id =? SPA_PARAM_Format); simpl.
  { split; [|done]. destruct (index =? 0); [|done]. by case_match. }
  destruct (id =? SPA_PARAM_Buffers); simpl.
  { split; [|done]. by destruct (index =? 0). }
  destruct (id =? SPA_PARAM_Meta); simpl.
  { split; [|done]. by destruct (index =? 0). }
  destruct (id =? SPA_PARAM_IO); simpl; [|done].
  split; [|done]. destruct (index =? 0); [done|]. by destruct (index =? 1).
Qed.

Lemma enum_switch_second p id param :
  enum_switch p id 1 = Candidate param -> id = SPA_PARAM_IO.
Proof.
  unfold enum_switch. simpl.
  destruct (Z.eqb_spec id SPA_PARAM_IO) as [->|?]; [done|].
  repeat case_match; done.
Qed.

Lemma enum_switch_format p :
  enum_switch p SPA_PARAM_Format 0
  = if ai_format (format p) =? SPA_AUDIO_FORMAT_UNKNOWN then Exhausted
    else Candidate (spa_format_audio_raw_build SPA_PARAM_Format (format p)).
Proof. reflexivity. Qed.

(** Whatever the loop returns, it has called the listeners with results
    of this enumeration only, at most as many as were still asked for,
    and changed nothing else; an id without [case] makes it return
    [-ENOENT] at once, unless nothing was asked for. *)
Lemma enum_loop_outcome fuel p seq id num filter nxt emitted d o :
  enum_loop fuel p seq id num filter nxt emitted d = Some o ->
  exists res evs,
    o = Returns res (set_hooks (hooks d ++ evs) d)
    /\ Forall (is_result seq id) evs
    /\ Z.of_nat (length evs) <= Z.max 0 (num - emitted)
    /\ (supported_param id = true -> res = 0)
    /\ (supported_param id = false ->
        evs = [] /\ res = if num <=? emitted then 0 else - ENOENT).
Proof.
  revert nxt emitted d.
  induction fuel as [|fuel IH]; intros nxt emitted d; [done|].
  rewrite enum_loop_unfold.
  destruct (Z.leb_spec num emitted) as [Hle|Hlt].
  { intros [= <-]. exists 0, []. rewrite set_hooks_nil. simpl.
    repeat split; auto; lia. }
  destruct (enum_switch p id nxt) as [param| |] eqn:Hs.
  - assert (supported_param id = true) as Hsup.
    { destruct (supported_param id) eqn:E; [done|].
      apply (enum_switch_supported p id nxt) in E. congruence. }
    destruct (spa_pod_filter param filter) as [r|].
    + intros Ho. destruct (IH _ _ _ Ho) as (res & evs & -> & Hev & Hlen & Hres & _).
      exists res, (result_event seq 0 SPA_RESULT_TYPE_NODE_PARAMS
                     (mk_result id nxt ((nxt + 1) mod 2 ^ 32) r) :: evs).
      rewrite set_hooks_emit. split; [done|]. split.
      { constructor; [|done]. by eexists _, _, _. }
      split; [simpl length; lia|]. split; [done|]. congruence.
    + intros Ho. destruct (IH _ _ _ Ho) as (res & evs & -> & Hev & Hlen & Hres & _).
      exists res, evs. split; [done|]. split; [done|]. split; [lia|].
      split; [done|]. congruence.
  - intros [= <-]. exists 0, []. rewrite set_hooks_nil. simpl.
    split; [done|]. split; [done|]. split; [lia|]. split; [done|].
    intros E. apply (enum_switch_supported p id nxt) in E. congruence.
  - intros [= <-]. exists (- ENOENT), []. rewrite set_hooks_nil. simpl.
    split; [done|]. split; [done|]. split; [lia|]. split; [|done].
    intros E. apply enum_switch_supported in Hs. congruence.
Qed.

(** X3.  A call of [port_enum_params] on an existing port always
    returns.  It returns [-ENOENT] exactly when the id is none of the
    five enumerable ones and at least one result is asked for, and 0
    otherwise.  All it does is call the listeners with results of this
    enumeration (same [seq] and id, result code 0): never more than
    [num] of them, none for an id it does not know; the node state is
    otherwise unchanged. *)
Theorem port_enum_params_outcome (fuel : nat) (d : data) (p : port)
    (seq direction port_id id start num : Z) (filter : option spa_pod) :
  (3 <= fuel)%nat ->
  port_id < n_ports d ->
  ports d !! Z.to_nat port_id = Some p ->
  0 <= start < 2 ^ 32 ->
  exists res evs,
    impl_port_enum_params fuel d seq direction port_id id start num filter
    = Some (Returns res (set_hooks (hooks d ++ evs) d))
    /\ Forall (is_result seq id) evs
    /\ Z.of_nat (length evs) <= Z.max 0 num
    /\ (res = - ENOENT <-> supported_param id = false /\ 0 < num)
    /\ (res = 0 <-> supported_param id = true \/ num <= 0)
    /\ (supported_param id = false -> evs = []).
Proof.
  intros Hf Hlt Hp Hs. unfold impl_port_enum_params.
  apply Z.leb_gt in Hlt. rewrite Hlt, Hp.
  destruct (enum_loop_total fuel p seq id num filter start 0 d Hf Hs) as [o Ho].
  rewrite Ho.
  destruct (enum_loop_outcome _ _ _ _ _ _ _ _ _ _ Ho)
    as (res & evs & -> & Hev & Hlen & Hsup & Hun).
  exists res, evs. split; [done|]. split; [done|].
  split; [by rewrite Z.sub_0_r in Hlen|].
  destruct (supported_param id) eqn:E.
  - rewrite (Hsup eq_refl). split; [|split].
    + split; [unfold ENOENT; lia|]. by intros [? _].
    + split; [by left|done].
    + done.
  - destruct (Hun eq_refl) as [-> ->].
    destruct (Z.leb_spec num 0).
    + split; [|split; [|done]].
      * split; [unfold ENOENT; lia|]. intros [_ ?]. lia.
      * split; [by right|done].
    + split; [|split; [|done]].
      * split; [done|]. intros _. done.
      * split; [unfold ENOENT; lia|]. intros [?|?]; [done|lia].
Qed.

(** X4.  Enumerating [SPA_PARAM_IO] from index 0 with room for two or
    more results and a filter that lets both candidates through sends
    exactly two results, the data mailbox (index 0, next 1) and then
    the notify area (index 1, next 2), and returns 0: asking for more
    than there is ends the enumeration without an error. *)
Theorem enum_io_two_candidates (fuel : nat) (d : data) (p : port)
    (seq direction port_id num : Z) (filter : option spa_pod) (r0 r1 : spa_pod) :
  (3 <= fuel)%nat ->
  port_id < n_ports d ->
  ports d !! Z.to_nat port_id = Some p ->
  2 <= num ->
  spa_pod_filter (io_pod SPA_PARAM_IO SPA_IO_Buffers sizeof_spa_io_buffers) filter
  = Some r0 ->
  spa_pod_filter (io_pod SPA_PARAM_IO SPA_IO_Notify (sizeof_spa_io_sequence + 1024))
    filter = Some r1 ->
  impl_port_enum_params fuel d seq direction port_id SPA_PARAM_IO 0 num filter
  = Some (Returns 0
            (emit (result_event seq 0 SPA_RESULT_TYPE_NODE_PARAMS
                     (mk_result SPA_PARAM_IO 1 2 r1))
               (emit (result_event seq 0 SPA_RESULT_TYPE_NODE_PARAMS
                        (mk_result SPA_PARAM_IO 0 1 r0)) d))).
Proof.
  intros Hf Hlt Hp Hnum H0 H1. unfold impl_port_enum_params.
  apply Z.leb_gt in Hlt. rewrite Hlt, Hp.
  destruct fuel as [|[|[|fuel]]]; [lia..|].
  rewrite enum_loop_unfold.
  destruct (Z.leb_spec num 0) as [?|_]; [lia|].
  change (enum_switch p SPA_PARAM_IO 0)
    with (Candidate (io_pod SPA_PARAM_IO SPA_IO_Buffers sizeof_spa_io_buffers)).
  cbv beta iota zeta. rewrite H0. change ((0 + 1) mod 2 ^ 32) with 1.
  rewrite enum_loop_unfold.
  destruct (Z.leb_spec num (0 + 1)) as [?|_]; [lia|].
  change (enum_switch p SPA_PARAM_IO 1)
    with (Candidate (io_pod SPA_PARAM_IO SPA_IO_Notify (sizeof_spa_io_sequence + 1024))).
  cbv beta iota zeta. rewrite H1. change ((1 + 1) mod 2 ^ 32) with 2.
  rewrite enum_loop_unfold.
  destruct (num <=? 0 + 1 + 1); reflexivity.
Qed.

(** X5.  Enumerating [SPA_PARAM_Format] from index 0 with room for at
    least one result: while the port's format is
    [SPA_AUDIO_FORMAT_UNKNOWN] the call returns 0 and sends nothing;
    once the format is known it sends exactly one result, the pod
    built from the port's format (if the filter lets it through), and
    returns 0. *)
Theorem enum_format_committed (fuel : nat) (d : data) (p : port)
    (seq direction port_id num : Z) (filter : option spa_pod) :
  (2 <= fuel)%nat ->
  port_id < n_ports d ->
  ports d !! Z.to_nat port_id = Some p ->
  1 <= num ->
  (ai_format (format p) = SPA_AUDIO_FORMAT_UNKNOWN ->
   impl_port_enum_params fuel d seq direction port_id SPA_PARAM_Format 0 num filter
   = Some (Returns 0 d))
  /\ (ai_format (format p) <> SPA_AUDIO_FORMAT_UNKNOWN ->
      forall r,
        spa_pod_filter (spa_format_audio_raw_build SPA_PARAM_Format (format p)) filter
        = Some r ->
        impl_port_enum_params fuel d seq direction port_id SPA_PARAM_Format 0 num filter
        = Some (Returns 0
                  (emit (result_event seq 0 SPA_RESULT_TYPE_NODE_PARAMS
                           (mk_result SPA_PARAM_Format 0 1 r)) d))).
Proof.
  intros Hf Hlt Hp Hnum. unfold impl_port_enum_params.
  apply Z.leb_gt in Hlt. rewrite Hlt, Hp.
  destruct fuel as [|[|fuel]]; [lia..|].
  rewrite enum_loop_unfold.
  destruct (Z.leb_spec num 0) as [?|_]; [lia|].
  rewrite enum_switch_format. split.
  - intros ->. reflexivity.
  - intros Hne r Hr. apply Z.eqb_neq in Hne. rewrite Hne, Hr.
    change ((0 + 1) mod 2 ^ 32) with 1. rewrite enum_loop_unfold.
    destruct (num <=? 0 + 1); reflexivity.
Qed.

(** X6.  A candidate the filter turns down is skipped and the
    enumeration goes on with the next index; this is not an error.
    For [SPA_PARAM_IO], when the filter rejects the data mailbox and
    accepts the notify area, a request from index 0 gets exactly the
    notify area, reported with index 1.  For an id with a single
    candidate that the filter rejects, the call returns 0 and sends
    nothing. *)
Theorem enum_skips_rejected (fuel : nat) (d : data) (p : port)
    (seq direction port_id num : Z) (filter : option spa_pod) :
  (3 <= fuel)%nat ->
  port_id < n_ports d ->
  ports d !! Z.to_nat port_id = Some p ->
  1 <= num ->
  (forall r1,
      spa_pod_filter (io_pod SPA_PARAM_IO SPA_IO_Buffers sizeof_spa_io_buffers) filter
      = None ->
      spa_pod_filter (io_pod SPA_PARAM_IO SPA_IO_Notify (sizeof_spa_io_sequence + 1024))
        filter = Some r1 ->
      impl_port_enum_params fuel d seq direction port_id SPA_PARAM_IO 0 num filter
      = Some (Returns 0
                (emit (result_event seq 0 SPA_RESULT_TYPE_NODE_PARAMS
                         (mk_result SPA_PARAM_IO 1 2 r1)) d)))
  /\ (forall id param,
        id <> SPA_PARAM_IO ->
        enum_switch p id 0 = Candidate param ->
        spa_pod_filter param filter = None ->
        impl_port_enum_params fuel d seq direction port_id id 0 num filter
        = Some (Returns 0 d)).
Proof.
  intros Hf Hlt Hp Hnum. unfold impl_port_enum_params.
  apply Z.leb_gt in Hlt. rewrite Hlt, Hp.
  destruct fuel as [|[|[|fuel]]]; [lia..|].
  split.
  - intros r1 H0 H1. rewrite enum_loop_unfold.
    destruct (Z.leb_spec num 0) as [?|_]; [lia|].
    change (enum_switch p SPA_PARAM_IO 0)
      with (Candidate (io_pod SPA_PARAM_IO SPA_IO_Buffers sizeof_spa_io_buffers)).
    cbv beta iota zeta. rewrite H0. change ((0 + 1) mod 2 ^ 32) with 1.
    rewrite enum_loop_unfold.
    destruct (Z.leb_spec num 0) as [?|_]; [lia|].
    change (enum_switch p SPA_PARAM_IO 1)
      with (Candidate (io_pod SPA_PARAM_IO SPA_IO_Notify (sizeof_spa_io_sequence + 1024))).
    cbv beta iota zeta. rewrite H1. change ((1 + 1) mod 2 ^ 32) with 2.
    rewrite enum_loop_unfold. destruct (num <=? 0 + 1); reflexivity.
  - intros id param Hid Hs Hr. rewrite enum_loop_unfold.
    destruct (Z.leb_spec num 0) as [?|_]; [lia|].
    rewrite Hs, Hr. change ((0 + 1) mod 2 ^ 32) with 1.
    rewrite enum_loop_unfold.
    destruct (Z.leb_spec num 0) as [?|_]; [lia|].
    destruct (enum_switch p id 1) as [param1| |] eqn:Hs1.
    + apply enum_switch_second in Hs1. done.
    + done.
    + apply enum_switch_supported in Hs1.
      assert (enum_switch p id 0 = Unsupported) as E
        by (by apply enum_switch_supported).
      congruence.
Qed.

End EnumOutcome.

Lemma port_enum_params_outcome_witness :
  exists res evs,
    @impl_port_enum_params sample_platform 3 main_data 7 SPA_DIRECTION_OUTPUT 0
      SPA_PARAM_IO 0 5 None
    = Some (Returns res (set_hooks (hooks main_data ++ evs) main_data))
    /\ Forall (is_result 7 SPA_PARAM_IO) evs
    /\ Z.of_nat (length evs) <= Z.max 0 5
    /\ (res = - ENOENT <-> supported_param SPA_PARAM_IO = false /\ 0 < 5)
    /\ (res = 0 <-> supported_param SPA_PARAM_IO = true \/ 5 <= 0)
    /\ (supported_param SPA_PARAM_IO = false -> evs = []).
Proof.
  apply (@port_enum_params_outcome sample_platform 3 main_data main_port
           7 SPA_DIRECTION_OUTPUT 0 SPA_PARAM_IO 0 5 None).
  - lia.
  - vm_compute. reflexivity.
  - vm_compute. reflexivity.
  - lia.
Defined.

Lemma enum_io_two_candidates_witness :
  @impl_port_enum_params sample_platform 3 main_data 7 SPA_DIRECTION_OUTPUT 0
    SPA_PARAM_IO 0 5 None
  = Some (Returns 0
            (emit (result_event 7 0 SPA_RESULT_TYPE_NODE_PARAMS
                     (mk_result SPA_PARAM_IO 1 2
                        (io_pod SPA_PARAM_IO SPA_IO_Notify
                           (sizeof_spa_io_sequence + 1024))))
               (emit (result_event 7 0 SPA_RESULT_TYPE_NODE_PARAMS
                        (mk_result SPA_PARAM_IO 0 1
                           (io_pod SPA_PARAM_IO SPA_IO_Buffers sizeof_spa_io_buffers)))
                  main_data))).
Proof.
  apply (@enum_io_two_candidates sample_platform 3 main_data main_port
           7 SPA_DIRECTION_OUTPUT 0 5 None).
  - lia.
  - vm_compute. reflexivity.
  - vm_compute. reflexivity.
  - lia.
  - reflexivity.
  - reflexivity.
Defined.

Lemma enum_format_committed_witness :
  @impl_port_enum_params sample_platform 2 main_data 7 SPA_DIRECTION_OUTPUT 0
    SPA_PARAM_Format 0 1 None
  = Some (Returns 0 main_data)
  /\ @impl_port_enum_params sample_platform 2
       (set_ports (<[0%nat := set_format sample_format main_port]> (ports main_data))
          main_data)
       7 SPA_DIRECTION_OUTPUT 0 SPA_PARAM_Format 0 1 None
     = Some (Returns 0
               (emit (result_event 7 0 SPA_RESULT_TYPE_NODE_PARAMS
                        (mk_result SPA_PARAM_Format 0 1 (pod_foreign 0)))
                  (set_ports
                     (<[0%nat := set_format sample_format main_port]> (ports main_data))
                     main_data))).
Proof.
  split.
  - apply (@enum_format_committed sample_platform 2 main_data main_port
             7 SPA_DIRECTION_OUTPUT 0 1 None);
      [lia | vm_compute; reflexivity | vm_compute; reflexivity | lia
      | vm_compute; reflexivity].
  - apply (@enum_format_committed sample_platform 2
             (set_ports
                (<[0%nat := set_format sample_format main_port]> (ports main_data))
                main_data)
             (set_format sample_format main_port)
             7 SPA_DIRECTION_OUTPUT 0 1 None);
      [lia | vm_compute; reflexivity | vm_compute; reflexivity | lia
      | vm_compute; discriminate | vm_compute; reflexivity].
Defined.

Lemma enum_skips_rejected_witness :
  @impl_port_enum_params picky_platform 3 main_data 7 SPA_DIRECTION_OUTPUT 0
    SPA_PARAM_IO 0 1 None
  = Some (Returns 0
            (emit (result_event 7 0 SPA_RESULT_TYPE_NODE_PARAMS
                     (mk_result SPA_PARAM_IO 1 2
                        (io_pod SPA_PARAM_IO SPA_IO_Notify
                           (sizeof_spa_io_sequence + 1024))))
               main_data))
  /\ @impl_port_enum_params sample_platform 3 main_data 7 SPA_DIRECTION_OUTPUT 0
       SPA_PARAM_Meta 0 1 (Some (pod_foreign 1))
     = Some (Returns 0 main_data).
Proof.
  split.
  - apply (@enum_skips_rejected picky_platform 3 main_data main_port
             7 SPA_DIRECTION_OUTPUT 0 1 None);
      [lia | vm_compute; reflexivity | vm_compute; reflexivity | lia
      | vm_compute; reflexivity | vm_compute; reflexivity].
  - apply (@enum_skips_rejected sample_platform 3 main_data main_port
             7 SPA_DIRECTION_OUTPUT 0 1 (Some (pod_foreign 1)))
      with (param := meta_pod SPA_PARAM_Meta);
      [lia | vm_compute; reflexivity | vm_compute; reflexivity | lia
      | vm_compute; discriminate | vm_compute; reflexivity | vm_compute; reflexivity].
Defined.

Section EnumPaging.

Context `{Platform}.

Implicit Types (p : port) (d : data).

Lemma enum_loop_shift fuel p seq id num filter nxt emitted d c :
  enum_loop fuel p seq id (num + c) filter nxt (emitted + c) d
  = enum_loop fuel p seq id num filter nxt emitted d.
Proof.
  revert nxt emitted d. induction fuel as [|fuel IH]; intros nxt emitted d; [done|].
  rewrite !enum_loop_unfold.
  replace (num + c <=? emitted + c) with (num <=? emitted)
    by (destruct (Z.leb_spec num emitted), (Z.leb_spec (num + c) (emitted + c)); lia).
  destruct (num <=? emitted); [done|].
  destruct (enum_switch p id nxt) as [param| |]; [|done..].
  destruct (spa_pod_filter param filter); [|by apply IH].
  replace (emitted + c + 1) with (emitted + 1 + c) by lia. apply IH.
Qed.

Lemma enum_loop_fuel_le fuel fuel' p seq id num filter nxt emitted d o :
  (fuel <= fuel')%nat ->
  enum_loop fuel p seq id num filter nxt emitted d = Some o ->
  enum_loop fuel' p seq id num filter nxt emitted d = Some o.
Proof.
  induction 1 as [|fuel' _ IH]; [done|].
  intros Ho. by apply enum_loop_more_fuel, IH.
Qed.

Lemma emit_neq e d : emit e d <> d.
Proof.
  intros E. apply (f_equal (fun x => length (hooks x))) in E.
  destruct d. unfold emit, set_hooks in E. simpl in E.
  rewrite length_app in E. simpl in E. lia.
Qed.

Lemma emit_inj e1 e2 d : emit e1 d = emit e2 d -> e1 = e2.
Proof.
  intros E. apply (f_equal hooks) in E.
  destruct d. unfold emit, set_hooks in E. simpl in E.
  apply app_inv_head in E. congruence.
Qed.

(** The turn in which a request for one result finds its result is the
    turn from which a longer request goes on. *)
Lemma enum_loop_page fuel p seq id filter nxt d res e k :
  0 <= k ->
  enum_loop fuel p seq id 1 filter nxt 0 d = Some (Returns res (emit e d)) ->
  exists index n r fuel',
    e = result_event seq 0 SPA_RESULT_TYPE_NODE_PARAMS (mk_result id index n r)
    /\ 0 <= n < 2 ^ 32
    /\ (fuel' <= fuel)%nat
    /\ enum_loop fuel p seq id (k + 1) filter nxt 0 d
       = enum_loop fuel' p seq id k filter n 0 (emit e d).
Proof.
  intros Hk. revert nxt.
  induction fuel as [|fuel IH]; intros nxt; [done|].
  rewrite !enum_loop_unfold. change (1 <=? 0) with false. cbv iota.
  destruct (Z.leb_spec (k + 1) 0) as [?|_]; [lia|].
  intros Hone.
  destruct (enum_switch p id nxt) as [param| |].
  - destruct (spa_pod_filter param filter) as [r|].
    + destruct fuel as [|fuel]; [done|].
      rewrite enum_loop_unfold in Hone. change (1 <=? 0 + 1) with true in Hone.
      cbv iota in Hone.
      assert (emit (result_event seq 0 SPA_RESULT_TYPE_NODE_PARAMS
                      (mk_result id nxt ((nxt + 1) mod 2 ^ 32) r)) d = emit e d)
        as He by congruence.
      apply emit_inj in He. subst e.
      exists nxt, ((nxt + 1) mod 2 ^ 32), r, (S fuel).
      split; [done|]. split; [apply Z.mod_pos_bound; lia|]. split; [lia|].
      apply (enum_loop_shift (S fuel) p seq id k filter _ 0 _ 1).
    + destruct (IH _ Hone) as (index & n & r & fuel' & -> & Hn & Hf & E).
      exists index, n, r, fuel'. split; [done|]. split; [done|]. split; [lia|done].
  - exfalso. apply (emit_neq e d). congruence.
  - exfalso. apply (emit_neq e d). congruence.
Qed.

(** X7.  Enumeration can be resumed.  If a request for one result from
    index [start] sends a result, then a request for [k + 1] results
    from [start] does the same as that request followed by a request
    for [k] results from the [next] index the first result carries:
    same return value, same results in the same order. *)
Theorem enum_params_resume (fuel : nat) (d : data) (p : port)
    (seq direction port_id id start k res seq' rc ty id' index n : Z)
    (filter : option spa_pod) (r : spa_pod) :
  (3 <= fuel)%nat ->
  port_id < n_ports d ->
  ports d !! Z.to_nat port_id = Some p ->
  0 <= start < 2 ^ 32 ->
  0 <= k ->
  impl_port_enum_params fuel d seq direction port_id id start 1 filter
  = Some (Returns res (emit (result_event seq' rc ty (mk_result id' index n r)) d)) ->
  impl_port_enum_params fuel d seq direction port_id id start (k + 1) filter
  = impl_port_enum_params fuel
      (emit (result_event seq' rc ty (mk_result id' index n r)) d)
      seq direction port_id id n k filter.
Proof.
  intros Hf Hlt Hp Hs Hk. unfold impl_port_enum_params.
  change (n_ports (emit _ d)) with (n_ports d).
  change (ports (emit _ d)) with (ports d).
  apply Z.leb_gt in Hlt. rewrite Hlt, Hp. intros Hone.
  destruct (enum_loop_page _ _ _ _ _ _ _ _ _ k Hk Hone)
    as (index1 & n1 & r1 & fuel' & He & Hn & Hle & E).
  assert (n1 = n) as -> by congruence.
  rewrite E.
  destruct (enum_loop fuel' p seq id k filter n 0
              (emit (result_event seq' rc ty (mk_result id' index n r)) d))
    as [o|] eqn:Ho.
  - symmetry. by apply (enum_loop_fuel_le fuel' fuel).
  - destruct (enum_loop_total fuel p seq id (k + 1) filter start 0 d Hf Hs) as [o Ho'].
    congruence.
Qed.

(** X8.  Starting an enumeration past the last candidate of a kind the
    port knows (index 2 or more, or index 1 or more for a kind other
    than [SPA_PARAM_IO]) is not an error: the call returns 0 and sends
    nothing. *)
Theorem enum_params_past_end (fuel : nat) (d : data) (p : port)
    (seq direction port_id id start num : Z) (filter : option spa_pod) :
  (1 <= fuel)%nat ->
  port_id < n_ports d ->
  ports d !! Z.to_nat port_id = Some p ->
  supported_param id = true ->
  (if id =? SPA_PARAM_IO then 2 else 1) <= start ->
  impl_port_enum_params fuel d seq direction port_id id start num filter
  = Some (Returns 0 d).
Proof.
  intros Hf Hlt Hp Hsup Hs. unfold impl_port_enum_params.
  apply Z.leb_gt in Hlt. rewrite Hlt, Hp.
  destruct fuel as [|fuel]; [lia|]. rewrite enum_loop_unfold.
  destruct (num <=? 0); [done|].
  destruct (enum_switch p id start) as [param| |] eqn:E; [|done|].
  - exfalso. destruct (enum_switch_candidate _ _ _ _ E) as [->| ->].
    + destruct (id =? SPA_PARAM_IO); lia.
    + apply enum_switch_second in E. subst id. simpl in Hs. lia.
  - apply enum_switch_supported in E. congruence.
Qed.

End EnumPaging.

Lemma enum_params_resume_witness :
  @impl_port_enum_params sample_platform 3 main_data 7 SPA_DIRECTION_OUTPUT 0
    SPA_PARAM_IO 0 (1 + 1) None
  = @impl_port_enum_params sample_platform 3
      (emit (result_event 7 0 SPA_RESULT_TYPE_NODE_PARAMS
               (mk_result SPA_PARAM_IO 0 1
                  (io_pod SPA_PARAM_IO SPA_IO_Buffers sizeof_spa_io_buffers)))
         main_data)
      7 SPA_DIRECTION_OUTPUT 0 SPA_PARAM_IO 1 1 None.
Proof.
  apply (@enum_params_resume sample_platform 3 main_data main_port
           7 SPA_DIRECTION_OUTPUT 0 SPA_PARAM_IO 0 1 0);
    [lia | vm_compute; reflexivity | vm_compute; reflexivity | lia | lia
    | vm_compute; reflexivity].
Defined.

Lemma enum_params_past_end_witness :
  @impl_port_enum_params sample_platform 1 main_data 7 SPA_DIRECTION_OUTPUT 0
    SPA_PARAM_Buffers 1 4 None
  = Some (Returns 0 main_data).
Proof.
  apply (@enum_params_past_end sample_platform 1 main_data main_port
           7 SPA_DIRECTION_OUTPUT 0 SPA_PARAM_Buffers 1 4 None);
    [lia | vm_compute; reflexivity | vm_compute; reflexivity
    | vm_compute; reflexivity | vm_compute; discriminate].
Defined.

(** ** More on change emission *)

Section Snapshot.

Implicit Types (p : port) (d : data).

Lemma omap_lookup_seq {A B} (g : nat -> A -> B) (l : list A) :
  omap (fun n => g n <$> l !! n) (seq 0 (length l)) = imap g l.
Proof.
  revert g. induction l as [|x l IH]; intros g; [done|].
  assert (forall ns : list nat, omap (fun n => g n <$> (x :: l) !! n) (S <$> ns)
                     = omap (fun n => (g ∘ S) n <$> l !! n) ns) as Hns.
  { induction ns as [|n ns IHns]; [done|].
    rewrite fmap_cons. cbn [omap list_omap]. rewrite IHns. reflexivity. }
  cbn [length seq]. rewrite <- fmap_S_seq. cbn [omap list_omap]. rewrite Hns.
  rewrite IH. reflexivity.
Qed.

Lemma emit_node_info_full d :
  change_mask_all d <> 0 ->
  info (emit_node_info d true) = info d
  /\ hooks (emit_node_info d true)
     = hooks d ++ [node_snapshot (emit_node_info d true)].
Proof.
  intros Hne. apply Z.eqb_neq in Hne. unfold emit_node_info, node_snapshot.
  destruct d as [cma [m fl pr np] t pcma ps n hs]. simpl in *.
  rewrite Hne. simpl. case_match; simpl; done.
Qed.

Lemma emit_one_port_info_full d n p :
  port_change_mask_all d <> 0 ->
  ports d !! n = Some p ->
  emit_one_port_info true d n
  = emit (port_snapshot (port_change_mask_all d) n
            (port_after_emit true (port_change_mask_all d) p))
      (set_ports (<[n := port_after_emit true (port_change_mask_all d) p]> (ports d)) d).
Proof.
  intros Hne Hp. apply Z.eqb_neq in Hne.
  unfold emit_one_port_info, port_after_emit, port_snapshot, emit. rewrite Hp.
  destruct p as [f [m fl np] t bs nb i ion ions e]. destruct d. simpl in *.
  rewrite Hne. simpl. case_match; reflexivity.
Qed.

Lemma emit_ports_loop_full ns d :
  port_change_mask_all d <> 0 ->
  NoDup ns ->
  hooks (foldl (emit_one_port_info true) d ns)
  = hooks d
    ++ omap (fun n =>
               (fun p => port_snapshot (port_change_mask_all d) n
                           (port_after_emit true (port_change_mask_all d) p))
               <$> ports d !! n) ns.
Proof.
  revert d. induction ns as [|n ns IH]; intros d Hne Hnd.
  { simpl. by rewrite app_nil_r. }
  apply NoDup_cons in Hnd as [Hn Hnd]. cbn [foldl omap list_omap].
  destruct (ports d !! n) as [p|] eqn:Hp; cbn [fmap option_fmap option_map].
  - rewrite (emit_one_port_info_full d n p Hne Hp).
    rewrite IH; [|done|done].
    change (hooks (emit ?e ?x)) with (hooks x ++ [e]).
    change (port_change_mask_all (emit ?e ?x)) with (port_change_mask_all x).
    change (ports (emit ?e (set_ports ?l ?x))) with l.
    change (hooks (set_ports ?l ?x)) with (hooks x).
    change (port_change_mask_all (set_ports ?l ?x)) with (port_change_mask_all x).
    rewrite <- app_assoc. f_equal. simpl. f_equal.
    apply omap_ext_in. intros m Hm.
    rewrite list_lookup_insert_ne; [done|]. intros ->. done.
  - rewrite emit_one_port_info_none by done. simpl. by apply IH.
Qed.

Lemma port_after_emit_full_frame mask_all p :
  port_info (port_after_emit true mask_all p) = port_info p
  /\ set_port_params (port_params p) (port_after_emit true mask_all p) = p.
Proof.
  unfold port_after_emit. destruct p as [f [m fl np] t bs nb i ion ions e]. done.
Qed.

Lemma emit_port_info_ports d full :
  Z.of_nat (length (ports d)) = n_ports d ->
  ports (emit_port_info d full)
  = port_after_emit full (port_change_mask_all d) <$> ports d.
Proof.
  intros Hlen. apply list_eq. intros n. rewrite list_lookup_fmap.
  destruct (ports d !! n) as [p|] eqn:Hp.
  - simpl. apply emit_port_info_lookup; [|done].
    apply lookup_lt_Some in Hp. lia.
  - simpl. apply lookup_ge_None. apply lookup_ge_None in Hp.
    destruct (emit_port_info_frame d full) as (_ & -> & _). done.
Qed.

(** X9.  A new listener gets the whole state.  When both all-facets
    masks are non-zero and [n_ports] is the number of ports,
    [add_listener] returns 0 after exactly these calls, in this order:
    one node info, then one port info for each port in index order.
    Each carries the all-facets mask and the info and descriptor table
    the node keeps after the call.  The call leaves the node info and
    every port info (pending masks included) as they were; only
    descriptor tables may differ. *)
Theorem add_listener_snapshot (d : data) :
  change_mask_all d <> 0 ->
  port_change_mask_all d <> 0 ->
  Z.of_nat (length (ports d)) = n_ports d ->
  exists d',
    impl_add_listener d = Returns 0 d'
    /\ hooks d'
       = hooks d ++ node_snapshot d'
                    :: imap (port_snapshot (port_change_mask_all d')) (ports d')
    /\ info d' = info d
    /\ change_mask_all d' = change_mask_all d
    /\ port_change_mask_all d' = port_change_mask_all d
    /\ n_ports d' = n_ports d
    /\ Forall2 (fun p p' => port_info p' = port_info p
                            /\ set_port_params (port_params p) p' = p)
         (ports d) (ports d').
Proof.
  intros Hn Hp Hlen. eexists. split; [reflexivity|].
  set (d1 := emit_node_info d true).
  destruct (emit_node_info_full d Hn) as [Hi Hh]. fold d1 in Hi, Hh.
  assert (ports d1 = ports d) as Hps by apply emit_node_info_ports.
  assert (n_ports d1 = n_ports d) as Hnp by apply emit_node_info_n_ports.
  assert (port_change_mask_all d1 = port_change_mask_all d) as Hpm
    by apply emit_node_info_mask_all.
  assert (change_mask_all d1 = change_mask_all d) as Hcm.
  { unfold d1, emit_node_info. simpl. repeat case_match; done. }
  destruct (emit_port_info_frame d1 true) as (Hf1 & Hf2 & Hf3 & Hf4 & Hf5 & Hf7).
  assert (ports (emit_port_info d1 true)
          = port_after_emit true (port_change_mask_all d) <$> ports d) as Hports.
  { rewrite emit_port_info_ports by congruence. by rewrite Hpm, Hps. }
  split; [|split; [congruence|split; [congruence|split; [congruence|split;
           [congruence|]]]]].
  - unfold emit_port_info at 1.
    rewrite emit_ports_loop_full; [|congruence|apply NoDup_seq].
    rewrite Hh, <- app_assoc. f_equal. cbn [app]. f_equal.
    { unfold node_snapshot. by rewrite Hf4, Hf5, Hf7. }
    rewrite Hports, Hf3, Hpm, imap_fmap, Hnp, <- Hlen, Nat2Z.id, Hps.
    apply omap_lookup_seq.
  - rewrite Hports. apply Forall2_fmap_r, Forall_Forall2_diag, Forall_forall.
    intros p _. apply port_after_emit_full_frame.
Qed.

End Snapshot.

Lemma add_listener_snapshot_witness :
  exists d',
    impl_add_listener main_data = Returns 0 d'
    /\ hooks d'
       = hooks main_data
         ++ node_snapshot d'
            :: imap (port_snapshot (port_change_mask_all d')) (ports d')
    /\ info d' = info main_data
    /\ change_mask_all d' = change_mask_all main_data
    /\ port_change_mask_all d' = port_change_mask_all main_data
    /\ n_ports d' = n_ports main_data
    /\ Forall2 (fun p p' => port_info p' = port_info p
                            /\ set_port_params (port_params p) p' = p)
         (ports main_data) (ports d').
Proof.
  apply (add_listener_snapshot main_data);
    [vm_compute; discriminate | vm_compute; discriminate | vm_compute; reflexivity].
Defined.

Section Quiet.

Implicit Types (p : port) (d : data).

Lemma emit_node_info_quiet d :
  ni_change_mask (info d) = 0 -> emit_node_info d false = d.
Proof.
  unfold emit_node_info. destruct d as [cma [m fl pr np] t pcma ps n hs].
  simpl. intros ->. reflexivity.
Qed.

Lemma emit_one_port_info_quiet d n :
  (forall p, ports d !! n = Some p -> pti_change_mask (port_info p) = 0) ->
  emit_one_port_info false d n = d.
Proof.
  intros Hq. unfold emit_one_port_info.
  destruct (ports d !! n) as [p|] eqn:Hp; [|done].
  specialize (Hq p eq_refl).
  destruct p as [f [m fl np] t bs nb i ion ions e]. simpl in Hq. subst m.
  destruct d as [cma inf t' pcma ps n' hs]. simpl in *.
  unfold set_ports. simpl. f_equal. by apply list_insert_id.
Qed.

Lemma emit_port_info_quiet d :
  (forall n p, (n < Z.to_nat (n_ports d))%nat -> ports d !! n = Some p ->
               pti_change_mask (port_info p) = 0) ->
  emit_port_info d false = d.
Proof.
  unfold emit_port_info. generalize (Z.to_nat (n_ports d)). intros k Hq.
  assert (forall ns, (forall n, n ∈ ns -> n < k)%nat ->
                     foldl (emit_one_port_info false) d ns = d) as Hns.
  { induction ns as [|n ns IH]; intros Hlt; [done|].
    cbn [foldl]. rewrite emit_one_port_info_quiet.
    - apply IH. intros m Hm. apply Hlt. by apply list_elem_of_further.
    - intros p. apply Hq, Hlt, list_elem_of_here. }
  apply Hns. intros n Hn. apply elem_of_seq in Hn. lia.
Qed.

Lemma port_after_emit_partial_mask mask_all p :
  pti_change_mask (port_info (port_after_emit false mask_all p)) = 0.
Proof. unfold port_after_emit. destruct p as [f [m fl np] t bs nb i ion ions e]. done. Qed.

(** After a partial emission of node and ports nothing is pending. *)
Lemma emit_partial_quiet d :
  Z.of_nat (length (ports d)) <= n_ports d ->
  quiet (emit_port_info (emit_node_info d false) false).
Proof.
  intros Hlen. split.
  - destruct (emit_port_info_frame (emit_node_info d false) false)
      as (_ & _ & _ & _ & -> & _).
    apply emit_node_info_mask.
  - apply Forall_lookup. intros n p' Hp'.
    assert (is_Some (ports (emit_node_info d false) !! n)) as [p Hp].
    { apply lookup_lt_is_Some_2. apply lookup_lt_Some in Hp'.
      destruct (emit_port_info_frame (emit_node_info d false) false)
        as (_ & Hl & _). lia. }
    rewrite (emit_port_info_lookup _ false n p) in Hp'; [| |done].
    + injection Hp' as <-. apply port_after_emit_partial_mask.
    + rewrite emit_node_info_n_ports. rewrite emit_node_info_ports in Hp.
      apply lookup_lt_Some in Hp. lia.
Qed.

(** X10.  [set_param] flushes every pending change: when [n_ports]
    covers all ports it leaves the node mask and all port masks zero.
    And when nothing is pending, [set_param] is a no-op: it returns 0,
    calls no listener and leaves the state as it is; so calling it
    twice is the same as calling it once. *)
Theorem set_param_flushes (d : data) (id flags : Z) (param : option spa_pod) :
  Z.of_nat (length (ports d)) <= n_ports d ->
  (forall d1, impl_set_param d id flags param = Returns 0 d1 -> quiet d1)
  /\ (quiet d -> impl_set_param d id flags param = Returns 0 d)
  /\ and_then (impl_set_param d id flags param)
       (fun d1 => impl_set_param d1 id flags param)
     = impl_set_param d id flags param.
Proof.
  intros Hlen.
  assert (forall d0, quiet d0 -> impl_set_param d0 id flags param = Returns 0 d0)
    as Hnoop.
  { intros d0 [Hm Hps]. unfold impl_set_param.
    rewrite (emit_node_info_quiet d0 Hm), emit_port_info_quiet; [done|].
    intros n p _ Hp. by apply (Forall_lookup_1 _ _ _ _ Hps Hp). }
  split; [|split].
  - intros d1 [= <-]. by apply emit_partial_quiet.
  - apply Hnoop.
  - unfold impl_set_param at 1 3. cbn [and_then]. apply Hnoop.
    by apply emit_partial_quiet.
Qed.

End Quiet.

Lemma set_param_flushes_witness :
  quiet (state_or_main (impl_set_param main_data SPA_PARAM_Props 0 None))
  /\ and_then (impl_set_param main_data SPA_PARAM_Props 0 None)
       (fun d1 => impl_set_param d1 SPA_PARAM_Props 0 None)
     = impl_set_param main_data SPA_PARAM_Props 0 None.
Proof.
  assert (Z.of_nat (length (ports main_data)) <= n_ports main_data) as Hlen
    by (vm_compute; discriminate).
  destruct (set_param_flushes main_data SPA_PARAM_Props 0 None Hlen)
    as (Hq & _ & Hi).
  split; [|exact Hi]. apply Hq. vm_compute. reflexivity.
Defined.

(** ** The shape of the node state *)

Section Invariant.

Context `{Platform}.

Implicit Types (p : port) (d : data).

Lemma length_drain_params n t : length (drain_params n t) = length t.
Proof.
  unfold drain_params. generalize (seq 0 (Z.to_nat n)). intros ns. revert t.
  induction ns as [|i ns IH]; intros t; [done|].
  cbn [foldl]. rewrite IH. apply length_alter.
Qed.

Lemma node_ok_main : node_ok main_data.
Proof.
  split; [done|]. split; [done|].
  apply Forall_forall. intros p Hp. apply elem_of_replicate in Hp as [-> _].
  split; [done|]. split; [done|]. unfold MAX_BUFFERS. simpl. lia.
Qed.

Lemma node_ok_emit_node_info d full : node_ok d -> node_ok (emit_node_info d full).
Proof.
  intros (Hp & Hn & Hps). unfold node_ok.
  rewrite emit_node_info_ports, emit_node_info_n_ports.
  split; [done|]. split; [|done].
  destruct d as [cma [m fl pr np] t pcma ps n hs]. simpl in *.
  unfold emit_node_info. simpl.
  destruct full; simpl; repeat case_match; simpl; try done;
    by rewrite length_drain_params.
Qed.

Lemma port_ok_after_emit full mask_all p :
  port_ok p -> port_ok (port_after_emit full mask_all p).
Proof.
  intros (Ht & Hb & Hn). unfold port_after_emit.
  destruct p as [f [m fl np] t bs nb i ion ions e]. simpl in *.
  split; [|done]. simpl. case_match; [|done]. by rewrite length_drain_params.
Qed.

Lemma node_ok_emit_port_info d full : node_ok d -> node_ok (emit_port_info d full).
Proof.
  intros (Hp & Hn & Hps).
  destruct (emit_port_info_frame d full) as (En & El & _ & Et & Ei & _).
  split; [congruence|]. split; [congruence|].
  rewrite emit_port_info_ports by done.
  apply Forall_fmap. eapply Forall_impl; [exact Hps|].
  intros p. apply port_ok_after_emit.
Qed.

Lemma node_ok_alter_port f k d :
  (forall p, port_ok p -> port_ok (f p)) ->
  node_ok d -> node_ok (set_ports (alter f k (ports d)) d).
Proof.
  intros Hf (Hp & Hn & Hps). split; [|split; [done|]]; cbn [ports n_ports set_ports].
  - by rewrite length_alter.
  - apply Forall_alter; [done|]. intros p _. apply Hf.
Qed.

Lemma port_ok_set_format f p : port_ok p -> port_ok (set_format f p).
Proof. by destruct p. Qed.

Lemma node_ok_commit_format k param d d1 :
  commit_format k param d = Some d1 -> node_ok d -> node_ok d1.
Proof.
  rewrite commit_format_spec. intros [= <-] Hok.
  eapply (node_ok_alter_port _ k) in Hok; [|intros p; apply port_ok_set_format].
  destruct Hok as (Hp & Hn & Hps). unfold store_past_params.
  split; [|split]; cbn [ports n_ports params info set_port_change_mask_all
                          set_params set_ports] in *.
  - by rewrite length_alter.
  - by rewrite length_insert.
  - apply Forall_alter; [done|]. intros p _. apply port_ok_set_format.
Qed.

Lemma node_ok_set_port d n p :
  node_ok d -> port_ok p -> node_ok (set_ports (<[n := p]> (ports d)) d).
Proof.
  intros (Hp & Hn & Hps) Hok. split; [|split; [done|]]; simpl.
  - by rewrite length_insert.
  - by apply Forall_insert.
Qed.

Lemma port_ok_unlinked p p' : unlinked p' = unlinked p -> port_ok p -> port_ok p'.
Proof.
  intros U (Ht & Hb & Hn). unfold port_ok.
  destruct (unlinked_fields _ _ U) as (_ & -> & _ & -> & -> & _ & -> & _). done.
Qed.

Lemma port_ok_use_buffers_loop bufs p i p' r :
  use_buffers_loop p i bufs = Some (p', r) -> port_ok p -> port_ok p'.
Proof.
  revert p i. induction bufs as [|sb bufs IH]; intros p i.
  { intros [= <- <-]. done. }
  cbn [use_buffers_loop].
  destruct (buffers p !! i) as [b|] eqn:Hb; [|done]. cbn [mbind option_bind].
  intros Hl (Ht & Hbs & Hn).
  destruct (bind_buffer_mem (sb_datas0 sb)) as [ptr mapped|res [ptr|]].
  - match type of Hl with
    | context [spa_list_append ?q ?a ?b] =>
        destruct (spa_list_append q a b) as [p1|] eqn:Ha; [|done]
    end.
    cbn [mbind option_bind] in Hl. apply (IH _ _ Hl).
    apply (port_ok_unlinked _ _ (append_unlinked _ _ _ _ Ha)).
    split; [done|]. split; [|done]. simpl. by rewrite length_insert.
  - injection Hl as <- <-. split; [done|]. split; [|done].
    simpl. by rewrite length_insert.
  - injection Hl as <- <-. done.
Qed.

Lemma node_ok_process d res d' :
  node_ok d -> impl_node_process d = Returns res d' -> node_ok d'.
Proof.
  intros Hok. unfold impl_node_process.
  destruct (Z.to_nat (n_ports d)) as [|k]; [by intros [= <- <-]|].
  simpl. destruct (ports d !! 0%nat) as [p|] eqn:Hp; [|done].
  destruct (process_port p) as [t|] eqn:Ht; [|done].
  destruct (process_port_cases p t Ht) as (res' & p' & -> & _ & U).
  intros [= <- <-]. apply node_ok_set_port; [done|].
  destruct Hok as (_ & _ & Hps).
  pose proof (Forall_lookup_1 _ _ _ _ Hps Hp) as Hpok.
  assert (port_ok (set_io (io p) p')) as (Ht' & Hb' & Hn')
    by (by apply (port_ok_unlinked p)).
  destruct p'. done.
Qed.

(** X11.  The state [main] builds has [n_ports] equal to the number of
    ports, every [n_params] equal to the length of its descriptor
    table, [MAX_BUFFERS] buffer slots in every port and a buffer count
    between 0 and [MAX_BUFFERS]; and every method of the table that
    returns keeps it so, whatever its arguments.  Hence all states the
    node can reach have this shape. *)
Theorem node_ok_reachable :
  (forall d fuel m res d',
      node_ok d -> impl_node fuel m d = Some (Returns res d') -> node_ok d')
  /\ (forall d, reachable d -> node_ok d).
Proof.
  assert (forall d fuel m res d',
             node_ok d -> impl_node fuel m d = Some (Returns res d') -> node_ok d')
    as Hstep.
  { intros d fuel m res d' Hok.
    destruct m; cbn [impl_node].
    - intros [= <- <-]. by apply node_ok_emit_port_info, node_ok_emit_node_info.
    - by intros [= <- <-].
    - by intros [= <- <-].
    - intros [= <- <-]. by apply node_ok_emit_port_info, node_ok_emit_node_info.
    - by intros [= <- <-].
    - by intros [= <- <-].
    - unfold impl_port_enum_params.
      destruct (n_ports d <=? port_id); [by intros [= <- <-]|].
      destruct (ports d !! Z.to_nat port_id) as [p|]; [|done].
      intros Ho. destruct (enum_loop_outcome _ _ _ _ _ _ _ _ _ _ Ho)
        as (res' & evs & [= -> ->] & _). done.
    - unfold impl_port_set_param.
      destruct (n_ports d <=? port_id); [by intros [= <- <-]|].
      destruct (ports d !! Z.to_nat port_id) as [p|] eqn:Hp; [|done].
      destruct (id =? SPA_PARAM_Format); [|by intros [= <- <-]].
      destruct (commit_format (Z.to_nat port_id) param d) as [d1|] eqn:Hc; [|done].
      intros [= <- <-]. apply node_ok_emit_port_info, node_ok_emit_node_info.
      apply node_ok_alter_port; [|by apply (node_ok_commit_format _ _ _ _ Hc)].
      intros q Hq. by destruct q.
    - unfold impl_port_use_buffers.
      destruct (n_ports d <=? port_id); [by intros [= <- <-]|].
      destruct (ports d !! Z.to_nat port_id) as [p|] eqn:Hp; [|done].
      destruct (Z.ltb_spec MAX_BUFFERS (Z.of_nat (length bufs))) as [?|Hle];
        [by intros [= <- <-]|].
      assert (port_ok p) as Hpok.
      { destruct Hok as (_ & _ & Hps). by apply (Forall_lookup_1 _ _ _ _ Hps Hp). }
      destruct (use_buffers_loop p 0 bufs) as [[p' [r|]]|] eqn:Hl; [| |done].
      + intros [= <- <-]. apply node_ok_set_port; [done|].
        by apply (port_ok_use_buffers_loop _ _ _ _ _ Hl).
      + intros [= <- <-]. apply node_ok_set_port; [done|].
        destruct (port_ok_use_buffers_loop _ _ _ _ _ Hl Hpok) as (Ht & Hb & Hn).
        destruct p'. split; [done|]. split; [done|]. simpl. lia.
    - unfold impl_port_set_io.
      destruct (n_ports d <=? port_id); [by intros [= <- <-]|].
      destruct (ports d !! Z.to_nat port_id) as [p|] eqn:Hp; [|done].
      assert (port_ok p) as (Ht & Hb & Hn).
      { destruct Hok as (_ & _ & Hps). by apply (Forall_lookup_1 _ _ _ _ Hps Hp). }
      destruct (id =? SPA_IO_Buffers);
        [|destruct (id =? SPA_IO_Notify)]; intros [= <- <-];
        try done; apply node_ok_set_port; try done; destruct p; done.
    - unfold impl_port_reuse_buffer.
      destruct (n_ports d <=? port_id); [by intros [= <- <-]|].
      destruct (ports d !! Z.to_nat port_id) as [p|] eqn:Hp; [|done].
      destruct (port_reuse_buffer p buffer_id) as [p'|] eqn:Hr; [|done].
      intros [= <- <-]. apply node_ok_set_port; [done|].
      apply (port_ok_unlinked p); [by eapply append_unlinked|].
      destruct Hok as (_ & _ & Hps). by apply (Forall_lookup_1 _ _ _ _ Hps Hp).
    - intros [= Hr]. by apply (node_ok_process d res d'). }
  split; [exact Hstep|].
  induction 1 as [|fuel m d res d' _ IH Hc]; [apply node_ok_main|].
  by apply (Hstep d fuel m res d').
Qed.

End Invariant.

Lemma node_ok_reachable_witness : node_ok sample_pool2.
Proof.
  apply (proj2 (@node_ok_reachable sample_platform)).
  pose (d1 := state_or_main
                (impl_port_set_io main_data SPA_DIRECTION_OUTPUT 0 SPA_IO_Buffers
                   (Some sample_mailbox) sizeof_spa_io_buffers)).
  pose (d2 := state_or_main
                (@impl_port_set_param sample_platform d1 SPA_DIRECTION_OUTPUT 0
                   SPA_PARAM_Format 0 (Some (pod_foreign 1)))).
  apply (@reachable_call sample_platform 0
           (call_port_use_buffers SPA_DIRECTION_OUTPUT 0 0
              [host_buffer 8192; host_buffer 12288]) d2 0);
    [|vm_compute; reflexivity].
  apply (@reachable_call sample_platform 0
           (call_port_set_param SPA_DIRECTION_OUTPUT 0 SPA_PARAM_Format 0
              (Some (pod_foreign 1))) d1 0);
    [|vm_compute; reflexivity].
  apply (@reachable_call sample_platform 0
           (call_port_set_io SPA_DIRECTION_OUTPUT 0 SPA_IO_Buffers
              (Some sample_mailbox) sizeof_spa_io_buffers) main_data 0);
    [|vm_compute; reflexivity].
  apply reachable_main.
Defined.

(** ** Binding io areas *)

Section PortSetIo.

Implicit Types (p : port) (d : data).

(** X12.  [port_set_io] on an existing port: an id other than
    [SPA_IO_Buffers] and [SPA_IO_Notify] is refused with [-ENOENT] and
    no change.  Binding the same id again replaces the earlier
    binding: only the last call counts.  The two kinds of area are
    independent: they can be bound in either order with the same
    result.  Binding NULL as the data mailbox of the first port is
    accepted, and leaves [process] undefined. *)
Theorem port_set_io_rebind (d : data) (p : port) (direction port_id : Z)
    (area1 area2 : option io_area) (size1 size2 : Z) :
  0 <= port_id < n_ports d ->
  ports d !! Z.to_nat port_id = Some p ->
  (forall id, id <> SPA_IO_Buffers -> id <> SPA_IO_Notify ->
              impl_port_set_io d direction port_id id area1 size1
              = Returns (- ENOENT) d)
  /\ (forall id,
        and_then (impl_port_set_io d direction port_id id area1 size1)
          (fun d1 => impl_port_set_io d1 direction port_id id area2 size2)
        = impl_port_set_io d direction port_id id area2 size2)
  /\ and_then (impl_port_set_io d direction port_id SPA_IO_Buffers area1 size1)
       (fun d1 => impl_port_set_io d1 direction port_id SPA_IO_Notify area2 size2)
     = and_then (impl_port_set_io d direction port_id SPA_IO_Notify area2 size2)
         (fun d1 => impl_port_set_io d1 direction port_id SPA_IO_Buffers area1 size1)
  /\ (port_id = 0 ->
      and_then (impl_port_set_io d direction port_id SPA_IO_Buffers None size1)
        impl_node_process
      = Undefined).
Proof.
  intros [Hge Hlt] Hp. apply Z.leb_gt in Hlt.
  assert (Z.to_nat port_id < length (ports d))%nat as Hlen
    by (by eapply lookup_lt_Some).
  unfold impl_port_set_io. rewrite Hlt, Hp.
  split; [|split; [|split]].
  - intros id Hb Hn. apply Z.eqb_neq in Hb, Hn. by rewrite Hb, Hn.
  - intros id. destruct (id =? SPA_IO_Buffers) eqn:Eb;
      [|destruct (id =? SPA_IO_Notify) eqn:En];
      cbn [and_then n_ports ports set_ports]; rewrite Hlt, ?Hp; [| |done];
      rewrite list_lookup_insert_eq by done; rewrite ?Eb, ?En;
      rewrite list_insert_insert_eq; destruct d, p; reflexivity.
  - change (SPA_IO_Notify =? SPA_IO_Buffers) with false.
    change (SPA_IO_Buffers =? SPA_IO_Buffers) with true.
    change (SPA_IO_Notify =? SPA_IO_Notify) with true.
    change (SPA_IO_Buffers =? SPA_IO_Notify) with false.
    cbn [and_then n_ports ports set_ports]. rewrite Hlt.
    rewrite !list_lookup_insert_eq by done.
    change (SPA_IO_Notify =? SPA_IO_Buffers) with false.
    change (SPA_IO_Buffers =? SPA_IO_Buffers) with true.
    change (SPA_IO_Notify =? SPA_IO_Notify) with true.
    change (SPA_IO_Buffers =? SPA_IO_Notify) with false.
    cbv iota. rewrite !list_insert_insert_eq. destruct d, p; reflexivity.
  - intros ->. change (SPA_IO_Buffers =? SPA_IO_Buffers) with true.
    cbn [and_then]. unfold impl_node_process. cbn [n_ports set_ports].
    destruct (Z.to_nat (n_ports d)) as [|k] eqn:Hk; [lia|].
    cbn [seq process_ports ports set_ports]. change (Z.to_nat 0) with 0%nat in *.
    rewrite list_lookup_insert_eq by done. reflexivity.
Qed.

End PortSetIo.

Lemma port_set_io_rebind_witness :
  and_then (impl_port_set_io main_data SPA_DIRECTION_OUTPUT 0 SPA_IO_Buffers
              (Some sample_mailbox) 8)
    (fun d1 => impl_port_set_io d1 SPA_DIRECTION_OUTPUT 0 SPA_IO_Buffers None 8)
  = impl_port_set_io main_data SPA_DIRECTION_OUTPUT 0 SPA_IO_Buffers None 8
  /\ and_then (impl_port_set_io sample_pool2 SPA_DIRECTION_OUTPUT 0 SPA_IO_Buffers
                 None 8)
       impl_node_process
     = Undefined.
Proof.
  split.
  - assert (0 <= 0 < n_ports main_data) as Hr by (vm_compute; split; [discriminate|reflexivity]).
    assert (ports main_data !! Z.to_nat 0 = Some main_port) as Hp
      by (vm_compute; reflexivity).
    destruct (port_set_io_rebind main_data main_port SPA_DIRECTION_OUTPUT 0
                (Some sample_mailbox) None 8 8 Hr Hp) as (_ & Hre & _).
    apply (Hre SPA_IO_Buffers).
  - assert (0 <= 0 < n_ports sample_pool2) as Hr by (vm_compute; split; [discriminate|reflexivity]).
    assert (ports sample_pool2 !! Z.to_nat 0 = Some (first_port sample_pool2)) as Hp
      by (vm_compute; reflexivity).
    destruct (port_set_io_rebind sample_pool2 (first_port sample_pool2)
                SPA_DIRECTION_OUTPUT 0 None None 8 8 Hr Hp) as (_ & _ & _ & Hu).
    apply Hu. reflexivity.
Defined.

(** ** Recycling a buffer id *)

Section ReuseUnchecked.

Implicit Types (p : port) (d : data).

Lemma unlinked_b_buffer p p' i b :
  unlinked p' = unlinked p -> buffers p !! i = Some b ->
  exists b', buffers p' !! i = Some b' /\ b_buffer b' = b_buffer b
             /\ b_id b' = b_id b.
Proof.
  intros U Hb.
  destruct (unlinked_members _ _ U) as (_ & _ & _ & _ & _ & _ & _ & E).
  apply (f_equal (fun l => l !! i)) in E. rewrite !list_lookup_fmap, Hb in E.
  destruct (buffers p' !! i) as [b'|]; [|done].
  exists b'. split; [done|]. destruct b, b'. simpl in E. by simplify_eq.
Qed.

(** A free list whose first buffer was never handed over: [process]
    dereferences its NULL [buffer] pointer. *)
Lemma process_port_unbound_slot p m x l b :
  io p = Some m -> n_buffers p <= io_buffer_id m ->
  is_free_list p (x :: l) ->
  buffers p !! x = Some b -> b_buffer b = None ->
  process_port p = None.
Proof.
  intros Hio Hid Hfl Hb Hnone. unfold process_port. rewrite Hio. simpl.
  destruct (Z.ltb_spec (io_buffer_id m) (n_buffers p)) as [?|_]; [lia|]. simpl.
  rewrite (free_list_is_empty p (x :: l)) by done. simpl.
  assert (next (empty p) = BufferLink x) as ->.
  { destruct Hfl as [_ [[Hn _] _]]. unfold nx in Hn. simpl in Hn. by injection Hn. }
  destruct (remove_first_spec p x l Hfl) as (p2 & -> & Hfl2 & U2). simpl.
  destruct (unlinked_b_buffer _ _ _ _ U2 Hb) as (b2 & -> & Hb2 & _). simpl.
  by rewrite Hb2, Hnone.
Qed.

(** X13.  [port_reuse_buffer] checks the port id and nothing else.  An
    invalid port gives [-EINVAL] and no change.  A buffer id past the
    buffer array of the port is undefined behaviour.  A buffer id
    inside the array is recycled even when no buffer was ever handed
    over for it: on the first port with an empty free list and a bound
    mailbox the call returns 0, the free list then holds that one id,
    and the next [process] is undefined (it follows the NULL [buffer]
    pointer of that slot). *)
Theorem reuse_buffer_unchecked (d : data) (port_id buffer_id : Z) :
  (n_ports d <= port_id ->
   impl_port_reuse_buffer d port_id buffer_id = Returns (- EINVAL) d)
  /\ (0 <= port_id < n_ports d ->
      forall p, ports d !! Z.to_nat port_id = Some p ->
        ((length (buffers p) <= Z.to_nat buffer_id)%nat ->
         impl_port_reuse_buffer d port_id buffer_id = Undefined)
        /\ (forall b m,
              port_id = 0 ->
              is_free_list p [] ->
              buffers p !! Z.to_nat buffer_id = Some b ->
              b_buffer b = None ->
              io p = Some m ->
              n_buffers p <= io_buffer_id m ->
              exists p',
                impl_port_reuse_buffer d port_id buffer_id
                = Returns 0 (set_ports (<[0%nat := p']> (ports d)) d)
                /\ free_list p' = Some [Z.to_nat buffer_id]
                /\ impl_node_process (set_ports (<[0%nat := p']> (ports d)) d)
                   = Undefined)).
Proof.
  unfold impl_port_reuse_buffer. split.
  - intros Hle. apply Z.leb_le in Hle. by rewrite Hle.
  - intros [Hge Hlt] p Hp. pose proof Hlt as Hlt'. apply Z.leb_gt in Hlt'.
    rewrite Hlt', Hp. split.
    + intros Hout. apply lookup_ge_None in Hout.
      unfold port_reuse_buffer, spa_list_append, spa_list_insert, set_prev.
      simpl. by rewrite Hout.
    + intros b m -> Hfl Hb Hnone Hio Hid.
      destruct (append_spec p [] (Z.to_nat buffer_id) Hfl) as (p' & Ha & Hfl' & U).
      { apply not_elem_of_nil. }
      { by eexists. }
      unfold port_reuse_buffer. rewrite Ha. exists p'.
      change (Z.to_nat 0) with 0%nat in *. split; [done|]. split.
      { by apply free_list_walk. }
      destruct (unlinked_members _ _ U) as (_ & _ & _ & Hn' & Hio' & _).
      destruct (unlinked_b_buffer _ _ _ _ U Hb) as (b' & Hb' & Hbb' & _).
      unfold impl_node_process. cbn [n_ports set_ports].
      destruct (Z.to_nat (n_ports d)) as [|k] eqn:Hk; [lia|].
      cbn [seq process_ports ports set_ports].
      rewrite list_lookup_insert_eq by (by eapply lookup_lt_Some).
      rewrite (process_port_unbound_slot p' m (Z.to_nat buffer_id) [] b'); try done.
      * congruence.
      * lia.
      * congruence.
Qed.

End ReuseUnchecked.

Lemma reuse_buffer_unchecked_witness :
  let d := state_or_main
             (impl_port_set_io main_data SPA_DIRECTION_OUTPUT 0 SPA_IO_Buffers
                (Some sample_mailbox) sizeof_spa_io_buffers) in
  impl_port_reuse_buffer d 16 0 = Returns (- EINVAL) d
  /\ impl_port_reuse_buffer d 0 32 = Undefined
  /\ exists p',
       impl_port_reuse_buffer d 0 5
       = Returns 0 (set_ports (<[0%nat := p']> (ports d)) d)
       /\ free_list p' = Some [Z.to_nat 5]
       /\ impl_node_process (set_ports (<[0%nat := p']> (ports d)) d) = Undefined.
Proof.
  intros d.
  assert (0 <= 0 < n_ports d) as Hr by (vm_compute; split; [discriminate|reflexivity]).
  assert (ports d !! Z.to_nat 0 = Some (first_port d)) as Hp
    by (vm_compute; reflexivity).
  split; [|split].
  - apply (proj1 (reuse_buffer_unchecked d 16 0)). vm_compute. discriminate.
  - apply (proj1 (proj2 (reuse_buffer_unchecked d 0 32) Hr (first_port d) Hp)).
    vm_compute. lia.
  - apply (proj2 (proj2 (reuse_buffer_unchecked d 0 5) Hr (first_port d) Hp)
             zero_buffer (mk_io_buffers 0 SPA_ID_INVALID)).
    + reflexivity.
    + apply (bool_decide_unpack _). vm_compute. exact I.
    + vm_compute. reflexivity.
    + reflexivity.
    + vm_compute. reflexivity.
    + vm_compute. discriminate.
Defined.

(** ** Handing buffers over *)

Section UseBuffersOutcome.

Context `{Platform}.

Implicit Types (p : port) (d : data).

Lemma unlinked_lookup p p' j :
  unlinked p' = unlinked p ->
  set_b_link null_list <$> buffers p' !! j = set_b_link null_list <$> buffers p !! j.
Proof.
  intros U. destruct (unlinked_members _ _ U) as (_ & _ & _ & _ & _ & _ & _ & E).
  apply (f_equal (fun l => l !! j)) in E. by rewrite !list_lookup_fmap in E.
Qed.

(** The loop writes slot [i] and the slots after it; in the slots
    before it only links change. *)
Lemma use_buffers_loop_keeps bufs p i p' r j :
  use_buffers_loop p i bufs = Some (p', r) -> (j < i)%nat ->
  set_b_link null_list <$> buffers p' !! j = set_b_link null_list <$> buffers p !! j.
Proof.
  revert p i. induction bufs as [|sb bufs IH]; intros p i.
  { by intros [= <- <-]. }
  cbn [use_buffers_loop].
  destruct (buffers p !! i) as [b|] eqn:Hb; [|done]. cbn [mbind option_bind].
  intros Hl Hj.
  destruct (bind_buffer_mem (sb_datas0 sb)) as [ptr mapped|res [ptr|]].
  - match type of Hl with
    | context [spa_list_append ?q ?a ?b] =>
        destruct (spa_list_append q a b) as [p1|] eqn:Ha; [|done]
    end.
    cbn [mbind option_bind] in Hl.
    rewrite (IH _ _ Hl) by lia.
    rewrite (unlinked_lookup _ _ j (append_unlinked _ _ _ _ Ha)).
    cbn [buffers set_buffers]. rewrite list_lookup_insert_ne by lia. done.
  - injection Hl as <- <-. cbn [buffers set_buffers].
    rewrite list_lookup_insert_ne by lia. done.
  - by injection Hl as <- <-.
Qed.

(** When the loop runs to its end, slot [i + j] holds the [j]-th
    descriptor, its index and the memory bound for it. *)
Lemma use_buffers_loop_slots bufs p i p' j sb :
  use_buffers_loop p i bufs = Some (p', None) -> bufs !! j = Some sb ->
  exists b ptr mapped,
    buffers p' !! (i + j)%nat = Some b
    /\ set_b_link null_list b
       = mk_buffer (Z.of_nat (i + j)) (Some sb) null_list (Some ptr) mapped
    /\ bind_buffer_mem (sb_datas0 sb) = mem_bound ptr mapped.
Proof.
  revert p i j. induction bufs as [|sb0 bufs IH]; intros p i j; [done|].
  cbn [use_buffers_loop].
  destruct (buffers p !! i) as [b|] eqn:Hb; [|done]. cbn [mbind option_bind].
  intros Hl Hj.
  destruct (bind_buffer_mem (sb_datas0 sb0)) as [ptr mapped|res [ptr|]] eqn:Hbind;
    [|done..].
  match type of Hl with
  | context [spa_list_append ?q ?a ?b] =>
      destruct (spa_list_append q a b) as [p1|] eqn:Ha; [|done]
  end.
  cbn [mbind option_bind] in Hl.
  destruct j as [|j].
  - injection Hj as <-. rewrite Nat.add_0_r.
    pose proof (use_buffers_loop_keeps _ _ _ _ _ i Hl (Nat.lt_succ_diag_r i)) as E.
    rewrite (unlinked_lookup _ _ i (append_unlinked _ _ _ _ Ha)) in E.
    cbn [buffers set_buffers] in E.
    rewrite list_lookup_insert_eq in E by (by eapply lookup_lt_Some).
    destruct (buffers p' !! i) as [b1|]; [|done].
    exists b1, ptr, mapped. split; [done|]. split; [|done].
    cbn [fmap option_fmap option_map] in E. apply (inj Some) in E.
    rewrite E. reflexivity.
  - replace (i + S j)%nat with (S i + j)%nat by lia.
    apply (IH _ _ _ Hl). done.
Qed.

Lemma use_buffers_loop_app l1 l2 p i :
  use_buffers_loop p i (l1 ++ l2)
  = match use_buffers_loop p i l1 with
    | Some (p', None) => use_buffers_loop p' (i + length l1) l2
    | r => r
    end.
Proof.
  revert p i. induction l1 as [|sb l1 IH]; intros p i.
  { simpl. by rewrite Nat.add_0_r. }
  cbn [app use_buffers_loop length].
  destruct (buffers p !! i) as [b|]; [|done]. cbn [mbind option_bind].
  destruct (bind_buffer_mem (sb_datas0 sb)) as [ptr mapped|res [ptr|]]; [|done..].
  match goal with
  | |- context [spa_list_append ?q ?a ?b] =>
      destruct (spa_list_append q a b) as [p1|]; [|done]
  end.
  cbn [mbind option_bind]. rewrite IH.
  by replace (S i + length l1)%nat with (i + S (length l1))%nat by lia.
Qed.

(** X14.  The first [port_use_buffers] on a port (its free list is
    still the empty one [main] set up) with at most [MAX_BUFFERS]
    descriptors whose memory can all be bound returns 0 and leaves the
    port with [n_buffers] set to their number, slot [j] holding the
    [j]-th descriptor with id [j] and its memory, the free list
    holding the ids 0, 1, ... in order, and format, info, descriptor
    table and io areas as they were.  If this is the first port and
    its mailbox is bound and names no buffer, the next [process]
    returns [-EPIPE] when no buffer was handed over and
    [SPA_STATUS_OK] otherwise, moving buffer 0 to the end of the free
    list. *)
Theorem use_buffers_first_call (d : data) (p : port)
    (direction port_id flags : Z) (bufs : list spa_buffer) :
  0 <= port_id < n_ports d ->
  ports d !! Z.to_nat port_id = Some p ->
  is_free_list p [] ->
  length (buffers p) = Z.to_nat MAX_BUFFERS ->
  Forall (fun sb => exists ptr mapped,
            bind_buffer_mem (sb_datas0 sb) = mem_bound ptr mapped) bufs ->
  (length bufs <= Z.to_nat MAX_BUFFERS)%nat ->
  exists p',
    impl_port_use_buffers d direction port_id flags bufs
    = Returns 0 (set_ports (<[Z.to_nat port_id := p']> (ports d)) d)
    /\ n_buffers p' = Z.of_nat (length bufs)
    /\ free_list p' = Some (seq 0 (length bufs))
    /\ (forall j sb, bufs !! j = Some sb ->
          exists b ptr mapped,
            buffers p' !! j = Some b
            /\ b_id b = Z.of_nat j /\ b_buffer b = Some sb
            /\ bind_buffer_mem (sb_datas0 sb) = mem_bound ptr mapped
            /\ b_ptr b = Some ptr /\ b_mapped b = mapped)
    /\ format p' = format p /\ port_info p' = port_info p
    /\ port_params p' = port_params p /\ io p' = io p
    /\ (forall m,
          port_id = 0 -> io p = Some m ->
          Z.of_nat (length bufs) <= io_buffer_id m ->
          let d1 := set_ports (<[0%nat := p']> (ports d)) d in
          match bufs with
          | [] => impl_node_process d1 = Returns (- EPIPE) d1
          | _ :: rest =>
              exists p'',
                impl_node_process d1
                = Returns SPA_STATUS_OK (set_ports (<[0%nat := p'']> (ports d)) d)
                /\ free_list p'' = Some (seq 1 (length rest) ++ [0%nat])
          end).
Proof.
  intros [H0 Hlt] Hp Hfl Hlen Hall Hn. unfold impl_port_use_buffers.
  pose proof Hlt as Hlt'. apply Z.leb_gt in Hlt'. rewrite Hlt', Hp.
  destruct (Z.ltb_spec MAX_BUFFERS (Z.of_nat (length bufs))) as [?|_];
    [unfold MAX_BUFFERS in *; lia|].
  destruct (use_buffers_loop_fresh bufs p 0 Hfl)
    as (p1 & Hl & Hfl1 & Hb1 & Hio1 & Hf1 & Hpp1 & Hpi1 & Hnb1);
    [intros; lia|lia|done|].
  rewrite Hl. eexists. split; [reflexivity|].
  assert (is_free_list (set_n_buffers (Z.of_nat (length bufs)) p1)
            (seq 0 (length bufs))) as Hfl2.
  { apply (same_links_free_list p1); [by intros [| |?]|done]. }
  split; [done|]. split; [by apply free_list_walk|]. split.
  { intros j sb Hj.
    destruct (use_buffers_loop_slots _ _ _ _ _ _ Hl Hj) as (b & ptr & mapped & Hb & E & Hm).
    exists b, ptr, mapped. split; [done|].
    destruct b. unfold set_b_link in E. simpl in *. by simplify_eq. }
  split; [done|]. split; [done|]. split; [done|]. split; [done|].
  intros m -> Hio Hid. change (Z.to_nat 0) with 0%nat in *.
  set (d1 := set_ports
               (<[0%nat := set_n_buffers (Z.of_nat (length bufs)) p1]> (ports d)) d).
  assert (0 < n_ports d1) as Hnp by done.
  assert (ports d1 !! 0%nat = Some (set_n_buffers (Z.of_nat (length bufs)) p1)) as Hp1.
  { unfold d1. cbn [ports set_ports]. apply list_lookup_insert_eq.
    by eapply lookup_lt_Some. }
  assert (forall q, set_ports (<[0%nat := q]> (ports d1)) d1
                    = set_ports (<[0%nat := q]> (ports d)) d) as Hset.
  { intros q. unfold d1, set_ports. simpl. by rewrite list_insert_insert_eq. }
  destruct bufs as [|sb rest].
  - assert (process_port (set_n_buffers (Z.of_nat (length (@nil spa_buffer))) p1)
            = Some (Stop (- EPIPE)
                      (set_n_buffers (Z.of_nat (length (@nil spa_buffer))) p1)))
      as Ht.
    { apply (process_port_starved _ m); [by rewrite <- Hio, <- Hio1|done|].
      by rewrite (free_list_is_empty _ _ Hfl2). }
    pose proof (process_first_port d1 _ _ _ Hnp Hp1 Ht) as E.
    by rewrite (set_ports_same d1 _ Hp1) in E.
  - destruct (process_port_rotates (set_n_buffers (Z.of_nat (length (sb :: rest))) p1)
                m 0%nat (seq 1 (length rest))) as (p2 & Ht & Hfl3 & U3).
    + by rewrite <- Hio, <- Hio1.
    + done.
    + done.
    + destruct (Hb1 0%nat) as (b & sb' & ?); [simpl; lia|]. by exists b, sb'.
    + exists p2. split; [|by apply free_list_walk].
      rewrite <- Hset. by apply (process_first_port d1 _ _ _ Hnp Hp1).
Qed.

(** X15.  [port_use_buffers] refuses more than [MAX_BUFFERS]
    descriptors with [-ENOSPC] and no change.  When the memory of a
    descriptor cannot be bound, the call returns the error at once and
    does not undo what it did: on a port whose free list was empty,
    the descriptors before the failing one stay in their slots and on
    the free list, while [n_buffers] keeps its old value. *)
Theorem use_buffers_failure (d : data) (p : port)
    (direction port_id flags : Z) (good rest : list spa_buffer) (bad : spa_buffer)
    (res : Z) (ptr : option Z) :
  0 <= port_id < n_ports d ->
  ports d !! Z.to_nat port_id = Some p ->
  (forall bufs, MAX_BUFFERS < Z.of_nat (length bufs) ->
                impl_port_use_buffers d direction port_id flags bufs
                = Returns (- ENOSPC) d)
  /\ (is_free_list p [] ->
      length (buffers p) = Z.to_nat MAX_BUFFERS ->
      Forall (fun sb => exists ptr mapped,
                bind_buffer_mem (sb_datas0 sb) = mem_bound ptr mapped) good ->
      bind_buffer_mem (sb_datas0 bad) = mem_error res ptr ->
      (length (good ++ bad :: rest) <= Z.to_nat MAX_BUFFERS)%nat ->
      exists p',
        impl_port_use_buffers d direction port_id flags (good ++ bad :: rest)
        = Returns res (set_ports (<[Z.to_nat port_id := p']> (ports d)) d)
        /\ n_buffers p' = n_buffers p
        /\ free_list p' = Some (seq 0 (length good))
        /\ (forall j, (j < length good)%nat -> buffer_bound p' j)).
Proof.
  intros [H0 Hlt] Hp. unfold impl_port_use_buffers.
  apply Z.leb_gt in Hlt. rewrite Hlt, Hp. split.
  { intros bufs Hbig. apply Z.ltb_lt in Hbig. by rewrite Hbig. }
  intros Hfl Hlen Hall Hbad Hn.
  destruct (Z.ltb_spec MAX_BUFFERS (Z.of_nat (length (good ++ bad :: rest))))
    as [?|_]; [unfold MAX_BUFFERS in *; lia|].
  rewrite length_app in Hn. simpl in Hn.
  destruct (use_buffers_loop_fresh good p 0 Hfl)
    as (p1 & Hl & Hfl1 & Hb1 & Hio1 & Hf1 & Hpp1 & Hpi1 & Hnb1);
    [intros; lia|lia|done|].
  rewrite use_buffers_loop_app, Hl. cbn [use_buffers_loop Nat.add].
  destruct (lookup_lt_is_Some_2 (buffers p1) (length good)) as [b Hb].
  { destruct Hfl1 as [_ Hc].
    assert (length (buffers p1) = length (buffers p)) as ->; [|lia].
    clear -Hl. revert Hl. generalize 0%nat. revert p.
    induction good as [|sb good IH]; intros p i; [by intros [= <-]|].
    cbn [use_buffers_loop].
    destruct (buffers p !! i) as [b|]; [|done]. cbn [mbind option_bind].
    destruct (bind_buffer_mem (sb_datas0 sb)) as [ptr mapped|res [ptr|]]; [|done..].
    match goal with
    | |- context [spa_list_append ?q ?a ?b] =>
        destruct (spa_list_append q a b) as [p2|] eqn:Ha; [|done]
    end.
    cbn [mbind option_bind]. intros Hl. rewrite (IH _ _ Hl).
    destruct (unlinked_fields _ _ (append_unlinked _ _ _ _ Ha))
      as (_ & _ & _ & _ & _ & _ & -> & _).
    simpl. by rewrite length_insert. }
  rewrite Hb, Hbad. cbn [mbind option_bind].
  destruct ptr as [ptr|].
  - eexists. split; [reflexivity|]. split; [done|]. split.
    + apply free_list_walk. apply (same_links_free_list p1); [|done].
      by apply set_buffer_keeps_links with (b := b).
    + intros j Hj. destruct (Hb1 j Hj) as (bj & sbj & Hbj & ?).
      exists bj, sbj. split; [|done]. cbn [buffers set_buffers].
      rewrite list_lookup_insert_ne by lia. done.
  - exists p1. split; [done|]. split; [done|]. split; [by apply free_list_walk|done].
Qed.

End UseBuffersOutcome.

Lemma use_buffers_first_call_witness :
  let d := state_or_main
             (impl_port_set_io main_data SPA_DIRECTION_OUTPUT 0 SPA_IO_Buffers
                (Some sample_mailbox) sizeof_spa_io_buffers) in
  let bufs := [host_buffer 8192; host_buffer 12288] in
  exists p',
    @impl_port_use_buffers sample_platform d SPA_DIRECTION_OUTPUT 0 0 bufs
    = Returns 0 (set_ports (<[0%nat := p']> (ports d)) d)
    /\ n_buffers p' = 2
    /\ free_list p' = Some [0; 1]%nat
    /\ exists p'',
         impl_node_process (set_ports (<[0%nat := p']> (ports d)) d)
         = Returns SPA_STATUS_OK (set_ports (<[0%nat := p'']> (ports d)) d)
         /\ free_list p'' = Some [1; 0]%nat.
Proof.
  intros d bufs.
  assert (0 <= 0 < n_ports d) as Hr by (vm_compute; split; [discriminate|reflexivity]).
  assert (ports d !! Z.to_nat 0 = Some (first_port d)) as Hp
    by (vm_compute; reflexivity).
  assert (is_free_list (first_port d) []) as Hfl
    by (apply (bool_decide_unpack _); vm_compute; exact I).
  assert (length (buffers (first_port d)) = Z.to_nat MAX_BUFFERS) as Hlen
    by (vm_compute; reflexivity).
  assert (Forall (fun sb => exists ptr mapped,
                    @bind_buffer_mem sample_platform (sb_datas0 sb)
                    = mem_bound ptr mapped) bufs) as Hall
    by (repeat constructor; eexists _, _; reflexivity).
  assert (length bufs <= Z.to_nat MAX_BUFFERS)%nat as Hn by (vm_compute; lia).
  destruct (@use_buffers_first_call sample_platform d (first_port d)
              SPA_DIRECTION_OUTPUT 0 0 bufs Hr Hp Hfl Hlen Hall Hn)
    as (p' & E & Hnb & Hf & _ & _ & _ & _ & _ & Hproc).
  exists p'. split; [exact E|]. split; [exact Hnb|]. split; [exact Hf|].
  apply (Hproc (mk_io_buffers 0 SPA_ID_INVALID)).
  - reflexivity.
  - vm_compute. reflexivity.
  - vm_compute. discriminate.
Defined.

Lemma use_buffers_failure_witness :
  let bad := mk_spa_buffer (mk_spa_data 1 None 512 (-1) 0 (mk_chunk 0 0 0)) in
  exists p',
    @impl_port_use_buffers sample_platform main_data SPA_DIRECTION_OUTPUT 0 0
      ([host_buffer 8192] ++ bad :: [host_buffer 12288])
    = Returns (- EINVAL) (set_ports (<[0%nat := p']> (ports main_data)) main_data)
    /\ n_buffers p' = 0
    /\ free_list p' = Some [0%nat].
Proof.
  intros bad.
  assert (0 <= 0 < n_ports main_data) as Hr
    by (vm_compute; split; [discriminate|reflexivity]).
  assert (ports main_data !! Z.to_nat 0 = Some main_port) as Hp
    by (vm_compute; reflexivity).
  assert (is_free_list main_port []) as Hfl
    by (apply (bool_decide_unpack _); vm_compute; exact I).
  assert (length (buffers main_port) = Z.to_nat MAX_BUFFERS) as Hlen
    by (vm_compute; reflexivity).
  assert (Forall (fun sb => exists ptr mapped,
                    @bind_buffer_mem sample_platform (sb_datas0 sb)
                    = mem_bound ptr mapped) [host_buffer 8192]) as Hall
    by (repeat constructor; eexists _, _; reflexivity).
  assert (@bind_buffer_mem sample_platform (sb_datas0 bad) = mem_error (- EINVAL) None)
    as Hbad by (vm_compute; reflexivity).
  assert (length ([host_buffer 8192] ++ bad :: [host_buffer 12288])
          <= Z.to_nat MAX_BUFFERS)%nat as Hn by (vm_compute; lia).
  destruct (proj2 (@use_buffers_failure sample_platform main_data main_port
                     SPA_DIRECTION_OUTPUT 0 0 [host_buffer 8192]
                     [host_buffer 12288] bad (- EINVAL) None Hr Hp)
              Hfl Hlen Hall Hbad Hn)
    as (p' & E & Hnb & Hf & _).
  exists p'. split; [exact E|]. split; [exact Hnb|exact Hf].
Defined.

(** ** What a format commit tells the listeners *)

Section CommitNotifies.

Context `{Platform}.

Implicit Types (p : port) (d : data).

Lemma emit_ports_loop_quiet ns d :
  (forall n p, n ∈ ns -> ports d !! n = Some p -> pti_change_mask (port_info p) = 0) ->
  foldl (emit_one_port_info false) d ns = d.
Proof.
  induction ns as [|n ns IH]; intros Hq; [done|].
  cbn [foldl]. rewrite emit_one_port_info_quiet.
  - apply IH. intros m p Hm. apply Hq. by apply list_elem_of_further.
  - intros p. apply Hq, list_elem_of_here.
Qed.

(** A turn of the partial emission on a port whose only pending facet
    is the parameters. *)
Lemma emit_one_port_info_params d n p :
  ports d !! n = Some p ->
  pti_change_mask (port_info p) = SPA_PORT_CHANGE_MASK_PARAMS ->
  emit_one_port_info false d n
  = emit (port_info_event SPA_DIRECTION_OUTPUT (Z.of_nat n) (port_info p)
            (drain_params (pti_n_params (port_info p)) (port_params p)))
      (set_ports
         (<[n := set_port_info (set_pti_change_mask 0 (port_info p))
                   (set_port_params
                      (drain_params (pti_n_params (port_info p)) (port_params p)) p)]>
            (ports d)) d).
Proof.
  intros Hp Hm. unfold emit_one_port_info. rewrite Hp.
  destruct p as [f [m fl np] t bs nb i ion ions e]. simpl in Hm. subst m.
  reflexivity.
Qed.

Lemma emit_ports_loop_one ns d k p :
  NoDup ns -> k ∈ ns -> ports d !! k = Some p ->
  pti_change_mask (port_info p) = SPA_PORT_CHANGE_MASK_PARAMS ->
  (forall n q, n <> k -> ports d !! n = Some q -> pti_change_mask (port_info q) = 0) ->
  foldl (emit_one_port_info false) d ns = emit_one_port_info false d k.
Proof.
  intros Hnd Hk Hp Hm Hq. revert Hnd Hk.
  induction ns as [|n ns IH]; intros Hnd Hk; [by apply elem_of_nil in Hk|].
  apply NoDup_cons in Hnd as [Hn Hnd]. cbn [foldl].
  destruct (decide (n = k)) as [->|Hne].
  - apply emit_ports_loop_quiet. intros m q Hmns.
    rewrite (emit_one_port_info_params d k p Hp Hm).
    cbn [emit ports set_ports set_hooks]. intros Hq'.
    rewrite list_lookup_insert_ne in Hq' by (intros ->; done).
    apply (Hq m q); [intros ->; done|done].
  - rewrite (emit_one_port_info_quiet d n); [|intros q; by apply Hq].
    apply IH; [done|]. apply elem_of_cons in Hk as [?|?]; [congruence|done].
Qed.

(** X16.  When nothing is pending, a format commit on a port (with a
    payload or without) calls the listeners exactly once: one port
    info for that port, with the parameters facet as its mask and the
    port's descriptor table.  No node info is sent.  The ports are
    left as three writes leave them: the format written into the
    committed port, then the start of the format of port 0 blanked by
    the store past the end of [d->params] (so on port 0 the format
    just committed is lost), then the table of the committed port
    drained.  The same store replaces [port_change_mask_all].
    Afterwards nothing is pending on any port. *)
Theorem port_set_param_notifies (d : data) (p : port)
    (direction port_id flags : Z) (param : option spa_pod) :
  quiet d ->
  0 <= port_id < n_ports d ->
  ports d !! Z.to_nat port_id = Some p ->
  exists d1,
    impl_port_set_param d direction port_id SPA_PARAM_Format flags param
    = Returns 0 d1
    /\ hooks d1
       = hooks d
         ++ [port_info_event SPA_DIRECTION_OUTPUT port_id
               (set_pti_change_mask SPA_PORT_CHANGE_MASK_PARAMS (port_info p))
               (drain_params (pti_n_params (port_info p)) (port_params p))]
    /\ ports d1
       = alter (fun q =>
                  set_port_params
                    (drain_params (pti_n_params (port_info q)) (port_params q)) q)
           (Z.to_nat port_id)
           (alter (fun q =>
                     set_format
                       (overrun_format (buffers_descriptor param) (format q)) q)
              0%nat
              (alter (fun q => set_format (committed_format param (format q)) q)
                 (Z.to_nat port_id) (ports d)))
    /\ port_change_mask_all d1
       = SPA_PARAM_Buffers + 2 ^ 32 * pi_flags (buffers_descriptor param)
    /\ info d1 = info d
    /\ Forall (fun q => pti_change_mask (port_info q) = 0) (ports d1).
Proof.
  intros [Hnm Hpm] [Hge Hlt] Hp.
  assert (Z.to_nat port_id < length (ports d))%nat as Hlen
    by (by eapply lookup_lt_Some).
  unfold impl_port_set_param. apply Z.leb_gt in Hlt as Hlt'. rewrite Hlt', Hp.
  change (SPA_PARAM_Format =? SPA_PARAM_Format) with true. cbv iota zeta.
  destruct (commit_format (Z.to_nat port_id) param d) as [dS|] eqn:Hc;
    [|by rewrite commit_format_spec in Hc].
  destruct (commit_format_frame _ _ _ _ Hc) as (Hn & Hl & Hi & Hh & _).
  assert (alter mark_params_changed (Z.to_nat port_id) (ports dS)
          = alter mark_params_changed (Z.to_nat port_id)
              (alter (fun q => set_format
                                 (overrun_format (buffers_descriptor param) (format q)) q)
                 0%nat
                 (alter (fun q => set_format (committed_format param (format q)) q)
                    (Z.to_nat port_id) (ports d)))
          /\ port_change_mask_all dS
             = SPA_PARAM_Buffers + 2 ^ 32 * pi_flags (buffers_descriptor param))
    as (Hps & Hm).
  { rewrite commit_format_spec in Hc. by injection Hc as <-. }
  rewrite Hps. clear Hps.
  set (k := Z.to_nat port_id) in *.
  set (L1 := alter _ 0%nat (alter _ k (ports d))).
  assert (length L1 = length (ports d)) as HL1 by (unfold L1; by rewrite !length_alter).
  assert (Forall (fun q => pti_change_mask (port_info q) = 0) L1) as Hq1.
  { unfold L1. apply Forall_alter; [apply Forall_alter; [done|]|];
      intros q _ Hq; by destruct q. }
  assert (exists p1, L1 !! k = Some p1 /\ port_info p1 = port_info p
                     /\ port_params p1 = port_params p) as (p1 & Hp1 & Hpi & Hpp).
  { unfold L1. destruct (decide (k = 0%nat)) as [->|Hne].
    - rewrite !list_lookup_alter_eq, Hp. eexists. split; [reflexivity|]. by destruct p.
    - rewrite list_lookup_alter_ne by done.
      rewrite list_lookup_alter_eq, Hp. eexists. split; [reflexivity|]. by destruct p. }
  assert (pti_change_mask (port_info p1) = 0) as Hz
    by (by apply (Forall_lookup_1 _ _ _ _ Hq1 Hp1)).
  set (d2 := set_ports (alter mark_params_changed k L1) dS).
  assert (ports d2 !! k = Some (mark_params_changed p1)) as Hp2.
  { unfold d2. cbn [ports set_ports]. by rewrite list_lookup_alter_eq, Hp1. }
  rewrite emit_node_info_quiet by (unfold d2; cbn [info set_ports]; congruence).
  unfold emit_port_info.
  rewrite (emit_ports_loop_one _ _ k (mark_params_changed p1)).
  - rewrite (emit_one_port_info_params _ _ (mark_params_changed p1) Hp2 eq_refl).
    eexists. split; [reflexivity|].
    cbn [emit hooks ports info port_change_mask_all set_hooks set_ports d2].
    unfold d2. cbn [hooks ports info port_change_mask_all set_ports].
    assert (<[k := set_port_info
                     (set_pti_change_mask 0 (port_info (mark_params_changed p1)))
                     (set_port_params
                        (drain_params
                           (pti_n_params (port_info (mark_params_changed p1)))
                           (port_params (mark_params_changed p1)))
                        (mark_params_changed p1))]>
              (alter mark_params_changed k L1)
            = alter (fun q =>
                       set_port_params
                         (drain_params (pti_n_params (port_info q)) (port_params q)) q)
                k L1) as ->.
    { apply list_eq. intros n. destruct (decide (n = k)) as [->|Hne].
      - rewrite list_lookup_insert_eq by (rewrite length_alter; lia).
        rewrite list_lookup_alter_eq, Hp1. cbn [fmap option_fmap option_map].
        f_equal. destruct p1 as [f [m fl np] t bs nb i ion ions e].
        simpl in Hz. subst m. reflexivity.
      - rewrite list_lookup_insert_ne by done.
        by rewrite !list_lookup_alter_ne by done. }
    split; [|split; [done|split; [done|split; [done|]]]].
    + rewrite Hh. unfold k. rewrite Z2Nat.id by done. do 2 f_equal.
      unfold mark_params_changed.
      cbn [port_info port_params set_port_info set_pti_change_mask pti_n_params].
      by rewrite Hpi, Hpp.
    + apply Forall_alter; [done|]. intros q _ Hq. by destruct q.
  - apply NoDup_seq.
  - apply elem_of_seq. unfold d2. cbn [n_ports set_ports]. lia.
  - exact Hp2.
  - reflexivity.
  - intros n q Hne. unfold d2. cbn [ports set_ports].
    rewrite list_lookup_alter_ne by done. intros Hq.
    by apply (Forall_lookup_1 _ _ _ _ Hq1 Hq).
Qed.

End CommitNotifies.

Lemma port_set_param_notifies_witness :
  let d := state_or_main (impl_set_param main_data SPA_PARAM_Props 0 None) in
  (exists d1,
      @impl_port_set_param sample_platform d SPA_DIRECTION_OUTPUT 3
        SPA_PARAM_Format 0 (Some (pod_foreign 1)) = Returns 0 d1
      /\ hooks d1
         = hooks d
           ++ [port_info_event SPA_DIRECTION_OUTPUT 3
                 (mk_port_info SPA_PORT_CHANGE_MASK_PARAMS 0 N_PORT_PARAMS)
                 (port_params main_port)]
      /\ format <$> ports d1 !! 3%nat = Some sample_format
      /\ format <$> ports d1 !! 0%nat = Some audio_info_zero
      /\ port_change_mask_all d1 = 8589934597)
  /\ (exists d1,
        @impl_port_set_param sample_platform d SPA_DIRECTION_OUTPUT 0
          SPA_PARAM_Format 0 (Some (pod_foreign 1)) = Returns 0 d1
        /\ format <$> ports d1 !! 0%nat = Some audio_info_zero
        /\ port_change_mask_all d1 = 8589934597).
Proof.
  intros d.
  assert (quiet d) as Hq.
  { split; [vm_compute; reflexivity|]. vm_compute. repeat constructor. }
  assert (0 <= 3 < n_ports d) as Hr3
    by (vm_compute; split; [discriminate|reflexivity]).
  assert (0 <= 0 < n_ports d) as Hr0
    by (vm_compute; split; [discriminate|reflexivity]).
  assert (ports d !! Z.to_nat 3 = Some (set_port_info (mk_port_info 0 0 N_PORT_PARAMS)
                                          main_port)) as Hp3
    by (vm_compute; reflexivity).
  assert (ports d !! Z.to_nat 0 = Some (set_port_info (mk_port_info 0 0 N_PORT_PARAMS)
                                          main_port)) as Hp0
    by (vm_compute; reflexivity).
  split.
  - destruct (@port_set_param_notifies sample_platform d _ SPA_DIRECTION_OUTPUT 3 0
                (Some (pod_foreign 1)) Hq Hr3 Hp3) as (d1 & E & Hh & Hps & Hm & _).
    exists d1. split; [exact E|]. split; [rewrite Hh; vm_compute; reflexivity|].
    rewrite Hps, Hm. repeat split; vm_compute; reflexivity.
  - destruct (@port_set_param_notifies sample_platform d _ SPA_DIRECTION_OUTPUT 0 0
                (Some (pod_foreign 1)) Hq Hr0 Hp0) as (d1 & E & _ & Hps & Hm & _).
    exists d1. split; [exact E|].
    rewrite Hps, Hm. repeat split; vm_compute; reflexivity.
Defined.
